(** * Feature-store flat-file transcoding: exporter and importer

    A shallow embedding of [cli/lib/featurestore_data_classes.py],
    [cli/lib/data_importer.py] and [cli/lib/data_exporter.py], with [main] of
    [cli/import_tool.py] and [cli/export_tool.py], and the properties of the
    flat-file codec, the importer's type inference and identifier remapping,
    the exporter's discovery and decoding, the storage paths, and the
    staging-object cleanup discipline.

    Conventions of the embedding.
    - Python [str] is [string]; [str.upper] is modelled on ASCII letters.
    - A Python [dict] / [defaultdict] is an association list kept in insertion
      order: assignment to an existing key replaces the value in place,
      assignment to a new key appends.
    - The [csv] module is taken at its row interface: a file is the list of
      rows handed to [writerow] / yielded by the reader (the unit tests of the
      repository mock [csv] at the same interface); errors of the local file
      system are not modelled.
    - [uuid4] is an explicit generator: [uuid4 n] is the text of the [n]-th
      UUID drawn during the run.
    - Remote calls are recorded in a trace, and an oracle decides whether a
      call raises.  The listing calls of the exporter are queries of the
      environment that leave no entry in the trace; a listing is decided when
      the call is made.
    - [re.match] on the two fixed path patterns is modelled by a matcher for
      the fragment of regular expressions they are written in; on the
      regexes given to the exporter it is a function of the environment.
    - [os.path.join] is modelled on two components, for POSIX paths. *)

From Stdlib Require Import String Ascii List Bool Arith ZArith Lia.
Import ListNotations.
Local Open Scope string_scope.
Local Open Scope list_scope.

(** String concatenation, as in an f-string or [+]. *)
Infix "+++" := String.append (right associativity, at level 60).

Set Implicit Arguments.

(** ** Insertion-ordered dictionaries *)

Module Dict.
Section Dict.
Variable V : Type.

Definition t := list (string * V).

Definition empty : t := [].

(** [d.get(k)] *)
Fixpoint get (d : t) (k : string) : option V :=
  match d with
  | [] => None
  | (k', v) :: d' => if String.eqb k' k then Some v else get d' k
  end.

(** [k in d] *)
Definition contains (d : t) (k : string) : bool :=
  match get d k with Some _ => true | None => false end.

(** [d[k] = v] *)
Fixpoint set (d : t) (k : string) (v : V) : t :=
  match d with
  | [] => [(k, v)]
  | (k', v') :: d' =>
      if String.eqb k' k then (k', v) :: d' else (k', v') :: set d' k v
  end.

(** [d[k]] on a [defaultdict] whose factory returns [dflt]: the value
    found, or [dflt] after it has been inserted under [k]. *)
Definition getitem (dflt : V) (d : t) (k : string) : V * t :=
  match get d k with
  | Some v => (v, d)
  | None => (dflt, set d k dflt)
  end.

Definition keys (d : t) : list string := map fst d.

(** [bool(d)] *)
Definition truthy (d : t) : bool :=
  match d with [] => false | _ :: _ => true end.

(** The invariant of a dictionary: keys are unique. *)
Definition wf (d : t) : Prop := NoDup (keys d).
End Dict.
End Dict.

Arguments Dict.empty {V}.

(** ** Value types

    [feature_pb2.Feature.ValueType] is an enumeration of the client library;
    the importer reads it by member name ([ValueType[name]], a [KeyError] on
    an unknown name) and the exporter writes the member's [name]. *)

Inductive ValueType : Type :=
| VALUE_TYPE_UNSPECIFIED
| BOOL
| BOOL_ARRAY
| DOUBLE
| DOUBLE_ARRAY
| INT64
| INT64_ARRAY
| STRING
| STRING_ARRAY
| BYTES.

(** [value_type.name] *)
Definition ValueType_name (t : ValueType) : string :=
  match t with
  | VALUE_TYPE_UNSPECIFIED => "VALUE_TYPE_UNSPECIFIED"
  | BOOL => "BOOL"
  | BOOL_ARRAY => "BOOL_ARRAY"
  | DOUBLE => "DOUBLE"
  | DOUBLE_ARRAY => "DOUBLE_ARRAY"
  | INT64 => "INT64"
  | INT64_ARRAY => "INT64_ARRAY"
  | STRING => "STRING"
  | STRING_ARRAY => "STRING_ARRAY"
  | BYTES => "BYTES"
  end.

Definition ValueType_members : list ValueType :=
  [VALUE_TYPE_UNSPECIFIED; BOOL; BOOL_ARRAY; DOUBLE; DOUBLE_ARRAY;
   INT64; INT64_ARRAY; STRING; STRING_ARRAY; BYTES].

(** [ValueType[name]]; [None] stands for the [KeyError]. *)
Definition ValueType_getitem (name : string) : option ValueType :=
  find (fun t => String.eqb (ValueType_name t) name) ValueType_members.

(** Membership in the tuple of array types tested by
    [_set_feature_metadata]. *)
Definition is_array_type (t : ValueType) : bool :=
  match t with
  | BOOL_ARRAY | DOUBLE_ARRAY | INT64_ARRAY | STRING_ARRAY => true
  | _ => false
  end.

(** [str.upper] on ASCII text: the letters a to z become A to Z and every
    other character is kept.  On text outside ASCII [str.upper] does more
    (it maps the long s, U+017F, to S, for one), which [upper] does not
    follow; [is_ascii] holds of the texts on which the two agree. *)
Definition upper_ascii (c : ascii) : ascii :=
  let n := nat_of_ascii c in
  if Nat.leb 97 n && Nat.leb n 122 then ascii_of_nat (n - 32) else c.

Fixpoint upper (s : string) : string :=
  match s with
  | EmptyString => EmptyString
  | String c s' => String (upper_ascii c) (upper s')
  end.

(** Whether every character of a text is an ASCII character. *)
Fixpoint is_ascii (s : string) : bool :=
  match s with
  | EmptyString => true
  | String c s' => Nat.ltb (nat_of_ascii c) 128 && is_ascii s'
  end.

(** ** The data model ([featurestore_data_classes.py]) *)

Record FeatureMetadata : Type := { data_type : ValueType }.

Record Feature : Type := { value : string }.

Record Entity : Type := { features : Dict.t Feature }.

Record EntityType : Type := {
  features_metadata : Dict.t FeatureMetadata;
  entities : Dict.t Entity
}.

Record Featurestore : Type := { entity_types : Dict.t EntityType }.

(** The default factories of the data classes. *)
Definition FeatureMetadata_default : FeatureMetadata :=
  {| data_type := VALUE_TYPE_UNSPECIFIED |}.
Definition Feature_default : Feature := {| value := "" |}.
Definition Entity_default : Entity := {| features := Dict.empty |}.
Definition EntityType_default : EntityType :=
  {| features_metadata := Dict.empty; entities := Dict.empty |}.
Definition Featurestore_default : Featurestore :=
  {| entity_types := Dict.empty |}.

Definition Model := Dict.t Featurestore.

(** *** Read-only views of a model *)

Definition find_entity_type (m : Model) (fs et : string) : option EntityType :=
  match Dict.get m fs with
  | Some s => Dict.get (entity_types s) et
  | None => None
  end.

(** The recorded value type of feature [f] in an entity type. *)
Definition et_meta (T : EntityType) (f : string) : option ValueType :=
  option_map data_type (Dict.get (features_metadata T) f).

(** The value of feature [f] of entity [e] in an entity type. *)
Definition et_value (T : EntityType) (e f : string) : option string :=
  match Dict.get (entities T) e with
  | Some E => option_map value (Dict.get (features E) f)
  | None => None
  end.

(** The recorded value type of feature [f] in entity type [et] of
    featurestore [fs]. *)
Definition metadata_of (m : Model) (fs et f : string) : option ValueType :=
  match find_entity_type m fs et with
  | Some T => et_meta T f
  | None => None
  end.

(** The content of the model: the value at (featurestore, entity type,
    entity, feature). *)
Definition value_of (m : Model) (fs et e f : string) : option string :=
  match find_entity_type m fs et with
  | Some T => et_value T e f
  | None => None
  end.

(** A flat-file row, as the csv reader yields it. *)
Definition Row := list string.

(** ['/'.join(row)] *)
Definition join_slash (row : Row) : string := String.concat "/" row.

(** ** The importer's parser ([data_importer.py]) *)

Section Importer.
(** [uuid4 n] is [str(uuid4())] for the [n]-th call of the run. *)
Variable uuid4 : nat -> string.

(** [str(uuid4())[:5]] *)
Definition suffix (n : nat) : string := substring 0 5 (uuid4 n).

(** The state threaded through [_parse_schema_and_data]: the two local
    dictionaries, the number of UUIDs drawn and the warnings logged. *)
Record ImportState : Type := {
  featurestores : Model;
  featurestore_id_map : Dict.t string;
  uuid_calls : nat;
  warnings : list string
}.

Definition initial_state (n : nat) : ImportState :=
  {| featurestores := Dict.empty;
     featurestore_id_map := Dict.empty;
     uuid_calls := n;
     warnings := [] |}.

(** A state with its warnings replaced. *)
Definition with_warnings (st : ImportState) (ws : list string) : ImportState :=
  {| featurestores := featurestores st;
     featurestore_id_map := featurestore_id_map st;
     uuid_calls := uuid_calls st;
     warnings := ws |}.

(** [_parse_values]: success flag and the six values read. *)
Definition _parse_values (row : Row)
  : bool * string * string * string * string * string * string :=
  if negb (Nat.eqb (length row) 12) then (false, "", "", "", "", "", "")
  else (true, nth 1 row "", nth 3 row "", nth 5 row "", nth 7 row "",
        nth 9 row "", nth 11 row "").

(** [_map_featurestore]: the mapped identifier, the featurestore found or
    created under it, and the updated state. *)
Definition _map_featurestore (st : ImportState) (featurestore_id : string)
  : string * Featurestore * ImportState :=
  let '(id_map, calls) :=
    if negb (Dict.contains (featurestore_id_map st) featurestore_id)
    then (Dict.set (featurestore_id_map st) featurestore_id
            (featurestore_id +++ "_" +++ suffix (uuid_calls st)),
          S (uuid_calls st))
    else (featurestore_id_map st, uuid_calls st) in
  let mapped :=
    match Dict.get id_map featurestore_id with
    | Some i => i
    | None => featurestore_id
    end in
  let '(fs, fss) := Dict.getitem Featurestore_default (featurestores st) mapped in
  (mapped, fs,
   {| featurestores := fss;
      featurestore_id_map := id_map;
      uuid_calls := calls;
      warnings := warnings st |}).

(** [_set_feature_metadata]: success flag, the entity type after the call
    and the warnings logged by the call. *)
Definition _set_feature_metadata (feature_id feature_data_type : string)
    (entity_type : EntityType) : bool * EntityType * list string :=
  if negb (Dict.contains (features_metadata entity_type) feature_id) then
    let feature_data_type := upper feature_data_type in
    match ValueType_getitem feature_data_type with
    | Some feature_data_type_value =>
        if is_array_type feature_data_type_value then
          (false, entity_type,
           ["Uploading array value types not currently supported."])
        else
          let '(_, md) := Dict.getitem FeatureMetadata_default
                            (features_metadata entity_type) feature_id in
          (true,
           {| features_metadata :=
                Dict.set md feature_id
                  {| data_type := feature_data_type_value |};
              entities := entities entity_type |},
           [])
    | None =>
        (false, entity_type, ["Unknown datatype: " +++ feature_data_type])
    end
  else (true, entity_type, []).

(** [entity_type.entities[entity_id].features[feature_id].value = v] *)
Definition set_feature_value (entity_type : EntityType)
    (entity_id feature_id feature_value : string) : EntityType :=
  let '(entity, ents) :=
    Dict.getitem Entity_default (entities entity_type) entity_id in
  let '(_, feats) :=
    Dict.getitem Feature_default (features entity) feature_id in
  {| features_metadata := features_metadata entity_type;
     entities :=
       Dict.set ents entity_id
         {| features := Dict.set feats feature_id {| value := feature_value |} |}
  |}.

(** [_store_values] *)
Definition _store_values (st : ImportState)
    (featurestore_id entity_type_id entity_id feature_id
     feature_data_type feature_value : string) : ImportState :=
  let '(mapped, featurestore, st1) := _map_featurestore st featurestore_id in
  let '(entity_type, ets) :=
    Dict.getitem EntityType_default (entity_types featurestore) entity_type_id in
  let '(success, entity_type1, logged) :=
    _set_feature_metadata feature_id feature_data_type entity_type in
  let entity_type2 :=
    if success
    then set_feature_value entity_type1 entity_id feature_id feature_value
    else entity_type1 in
  {| featurestores :=
       Dict.set (featurestores st1) mapped
         {| entity_types := Dict.set ets entity_type_id entity_type2 |};
     featurestore_id_map := featurestore_id_map st1;
     uuid_calls := uuid_calls st1;
     warnings := warnings st1 ++ logged |}.

(** The body of the loop of [_parse_schema_and_data] for one row. *)
Definition parse_row (st : ImportState) (row : Row) : ImportState :=
  let '(success, featurestore_id, entity_type_id, entity_id, feature_id,
        feature_data_type, feature_value) := _parse_values row in
  if success then
    _store_values st featurestore_id entity_type_id entity_id feature_id
      feature_data_type feature_value
  else
    {| featurestores := featurestores st;
       featurestore_id_map := featurestore_id_map st;
       uuid_calls := uuid_calls st;
       warnings := warnings st ++ ["Failed to parse line: " +++ join_slash row] |}.

(** The loop of [_parse_schema_and_data], from an arbitrary state. *)
Definition parse_rows (st : ImportState) (rows : list Row) : ImportState :=
  fold_left parse_row rows st.

(** [_parse_schema_and_data] on a file holding [rows]; [n] UUIDs were
    drawn before. *)
Definition _parse_schema_and_data (n : nat) (rows : list Row) : ImportState :=
  parse_rows (initial_state n) rows.
(** The identifier a featurestore identifier is mapped to by the next
    [_map_featurestore]: the recorded one, or a new one. *)
Definition mapped_id (st : ImportState) (featurestore_id : string) : string :=
  match Dict.get (featurestore_id_map st) featurestore_id with
  | Some i => i
  | None => featurestore_id +++ "_" +++ suffix (uuid_calls st)
  end.
End Importer.

(** The value type a line leaves recorded for its feature: the one already
    recorded, else the one its data-type token names, unless that is an array
    type or no type at all. *)
Definition inferred_type (known : option ValueType) (feature_data_type : string)
  : option ValueType :=
  match known with
  | Some t => Some t
  | None =>
      match ValueType_getitem (upper feature_data_type) with
      | Some t => if is_array_type t then None else Some t
      | None => None
      end
  end.

(** The warnings [_set_feature_metadata] logs for a line. *)
Definition metadata_warnings (known : option ValueType) (feature_data_type : string)
  : list string :=
  match known with
  | Some _ => []
  | None =>
      match ValueType_getitem (upper feature_data_type) with
      | Some t =>
          if is_array_type t
          then ["Uploading array value types not currently supported."]
          else []
      | None => ["Unknown datatype: " +++ upper feature_data_type]
      end
  end.

(** What [_store_values] does to the entity type it writes into. *)
Definition stored_entity_type (T : EntityType) (e f tok v : string) : EntityType :=
  let '(success, T1, _) := _set_feature_metadata f tok T in
  if success then set_feature_value T1 e f v else T1.

(** The entity type a line is stored into, as it is before the line: the
    one found under the identifiers, or a new one. *)
Definition target_entity_type (m : Model) (k et : string) : EntityType :=
  fst (Dict.getitem EntityType_default
         (entity_types (fst (Dict.getitem Featurestore_default m k))) et).

(** ** The exporter's writer ([data_exporter.py]) *)

(** [line_data] of [_write_to_file]. *)
Definition line_data (featurestore_id entity_type_id entity_id feature_id
    type_name feature_value : string) : Row :=
  ["featurestores"; featurestore_id; "entityTypes"; entity_type_id;
   "entities"; entity_id; "features"; feature_id;
   "featureDataTypes"; type_name; "featureValues"; feature_value].

(** The innermost loop body of [_write_to_file].  The accumulator holds the
    rows written so far and the entity type's [features_metadata], which the
    [defaultdict] lookup extends when the feature has no metadata. *)
Definition write_feature (featurestore_id entity_type_id entity_id : string)
    (acc : list Row * Dict.t FeatureMetadata) (item : string * Feature)
  : list Row * Dict.t FeatureMetadata :=
  let '(rows, md) := acc in
  let '(feature_id, feature) := item in
  let '(meta, md') := Dict.getitem FeatureMetadata_default md feature_id in
  (rows ++ [line_data featurestore_id entity_type_id entity_id feature_id
              (ValueType_name (data_type meta)) (value feature)],
   md').

Definition write_entity (featurestore_id entity_type_id : string)
    (acc : list Row * Dict.t FeatureMetadata) (item : string * Entity)
  : list Row * Dict.t FeatureMetadata :=
  fold_left (write_feature featurestore_id entity_type_id (fst item))
    (features (snd item)) acc.

(** The loop over one entity type: rows written and the entity type as the
    loop leaves it. *)
Definition write_entity_type (featurestore_id : string)
    (item : string * EntityType) : list Row * (string * EntityType) :=
  let '(rows, md) :=
    fold_left (write_entity featurestore_id (fst item))
      (entities (snd item)) ([], features_metadata (snd item)) in
  (rows, (fst item, {| features_metadata := md; entities := entities (snd item) |})).

Definition write_featurestore (item : string * Featurestore)
  : list Row * (string * Featurestore) :=
  let results := map (write_entity_type (fst item)) (entity_types (snd item)) in
  (concat (map fst results),
   (fst item, {| entity_types := map snd results |})).

(** [_write_to_file]: the rows handed to [writerow], in order, and the model
    as the call leaves it. *)
Definition _write_to_file (featurestores_data : Model) : list Row * Model :=
  let results := map write_featurestore featurestores_data in
  (concat (map fst results), map snd results).

(** The flat file written for a model. *)
Definition written_rows (m : Model) : list Row := fst (_write_to_file m).

(** *** The encoding, stated on the model *)

(** The type-name token of a feature: the name of its recorded type, or of
    the default metadata when none is recorded. *)
Definition type_in (md : Dict.t FeatureMetadata) (f : string) : ValueType :=
  match Dict.get md f with
  | Some x => data_type x
  | None => VALUE_TYPE_UNSPECIFIED
  end.

Definition type_of (T : EntityType) (f : string) : ValueType :=
  type_in (features_metadata T) f.

(** The same, addressed from the model. *)
Definition model_type (m : Model) (fs et f : string) : ValueType :=
  match find_entity_type m fs et with
  | Some T => type_of T f
  | None => VALUE_TYPE_UNSPECIFIED
  end.

(** All (featurestore, entity type, entity, feature) combinations of a model
    with type and value, in iteration order. *)
Definition combinations (m : Model)
  : list (string * string * string * string * ValueType * string) :=
  flat_map (fun '(fs, FS) =>
    flat_map (fun '(et, T) =>
      flat_map (fun '(e, E) =>
        map (fun '(f, F) => (fs, et, e, f, type_of T f, value F))
          (features E))
        (entities T))
      (entity_types FS))
    m.

Definition encode_combination
    (c : string * string * string * string * ValueType * string) : Row :=
  let '(fs, et, e, f, t, v) := c in
  line_data fs et e f (ValueType_name t) v.

(** The dictionary invariant at every level of a model. *)
Definition wf_entity (E : Entity) : Prop := Dict.wf (features E).
Definition wf_entity_type (T : EntityType) : Prop :=
  Dict.wf (features_metadata T) /\ Dict.wf (entities T) /\
  Forall (fun kv => wf_entity (snd kv)) (entities T).
Definition wf_featurestore (FS : Featurestore) : Prop :=
  Dict.wf (entity_types FS) /\
  Forall (fun kv => wf_entity_type (snd kv)) (entity_types FS).
Definition wf_model (m : Model) : Prop :=
  Dict.wf m /\ Forall (fun kv => wf_featurestore (snd kv)) m.

(** *** What the importer makes of an encoded model *)

Definition key_matches (fs et e f : string)
    (c : string * string * string * string * ValueType * string) : bool :=
  let '(fs', et', e', f', _, _) := c in
  String.eqb fs' fs && String.eqb et' et && String.eqb e' e && String.eqb f' f.

(** The value the importer holds for a combination after it has read the
    lines of [done]: that of the last line for the combination, unless the
    line's type is an array type. *)
Definition expected
    (done : list (string * string * string * string * ValueType * string))
    (fs et e f : string) : option string :=
  match find (key_matches fs et e f) (rev done) with
  | Some (_, _, _, _, t, v) => if is_array_type t then None else Some v
  | None => None
  end.

(** What holds of the importer's state after it has read the lines of
    [done], each of which carries the type [ty] gives its feature: mapped
    identifiers are generated ones; recorded metadata belongs to a mapped
    featurestore, is the type of the feature and not an array type; the
    values under a mapped identifier are the expected ones; there are no
    values elsewhere; and the featurestore of every line read is mapped. *)
Definition import_invariant (uuid4 : nat -> string)
    (ty : string -> string -> string -> ValueType) (st : ImportState)
    (done : list (string * string * string * string * ValueType * string))
  : Prop :=
  (forall fs k, Dict.get (featurestore_id_map st) fs = Some k ->
                exists i, k = fs +++ "_" +++ suffix uuid4 i) /\
  (forall k et f t,
      metadata_of (featurestores st) k et f = Some t ->
      exists fs, Dict.get (featurestore_id_map st) fs = Some k /\
                 t = ty fs et f /\ is_array_type t = false) /\
  (forall fs k et e f,
      Dict.get (featurestore_id_map st) fs = Some k ->
      value_of (featurestores st) k et e f = expected done fs et e f) /\
  (forall k et e f v,
      value_of (featurestores st) k et e f = Some v ->
      exists fs, Dict.get (featurestore_id_map st) fs = Some k) /\
  (forall fs et e f t v,
      In (fs, et, e, f, t, v) done ->
      Dict.get (featurestore_id_map st) fs <> None).

(** Every line of the list carries the type [ty] gives its feature. *)
Definition typed_by (ty : string -> string -> string -> ValueType)
    (cs : list (string * string * string * string * ValueType * string))
  : Prop :=
  forall fs et e f t v, In (fs, et, e, f, t, v) cs -> t = ty fs et f.

(** The identifier part of a combination. *)
Definition combination_key
    (c : string * string * string * string * ValueType * string)
  : string * string * string * string :=
  let '(fs, et, e, f, _, _) := c in (fs, et, e, f).

(** *** Sample data, after the unit tests and the examples of the format *)

Definition sample_uuid4 : nat -> string :=
  fun _ => "d3d75afa-a029-4842-9b77-f753661dd1f5".


(** Featurestore [fs1] with entity type [pets], feature [age] of type INT64
    and entity [rex] with [age = 4]. *)
Definition pets_model : Model :=
  [("fs1",
    {| entity_types :=
         [("pets",
           {| features_metadata := [("age", {| data_type := INT64 |})];
              entities :=
                [("rex", {| features := [("age", {| value := "4" |})] |})] |})]
    |})].

(** The same with an array-typed feature [tags] next to [age]. *)
Definition pets_model_with_array : Model :=
  [("fs1",
    {| entity_types :=
         [("pets",
           {| features_metadata :=
                [("age", {| data_type := INT64 |});
                 ("tags", {| data_type := STRING_ARRAY |})];
              entities :=
                [("rex",
                  {| features :=
                       [("age", {| value := "4" |});
                        ("tags", {| value := "a,b" |})] |})] |})]
    |})].

(** Rows of the importer's unit tests. *)
Definition height_row : Row :=
  ["featurestores"; "benchmark_featurestore"; "entityTypes"; "human";
   "entities"; "bob"; "features"; "height"; "featureDataTypes"; "int64";
   "featureValues"; "4"].

Definition sally_row : Row :=
  ["featurestores"; "benchmark_featurestore"; "entityTypes"; "human";
   "entities"; "sally"; "features"; "height"; ""; "";
   "featureValues"; "3"].

Definition awake_row : Row :=
  ["featurestores"; "benchmark_featurestore"; "entityTypes"; "human";
   "entities"; "bob"; "features"; "awake"; "featureDataTypes"; "bool";
   "featureValues"; "True"].

Definition array_row : Row :=
  ["featurestores"; "benchmark_featurestore"; "entityTypes"; "human";
   "entities"; "bob"; "features"; "height"; "featureDataTypes"; "int64_array";
   "featureValues"; "1,2,3"].

(** A later line for [height] that claims another type. *)
Definition retyped_row : Row :=
  ["featurestores"; "benchmark_featurestore"; "entityTypes"; "human";
   "entities"; "bob"; "features"; "height"; "featureDataTypes"; "string";
   "featureValues"; "5"].

Definition bad_row : Row := ["bad line"].

(** ** Remote calls, exceptions and guaranteed cleanup *)

(** A blob object of the storage client; [blob_serial] tells apart the
    objects made by different calls. *)
Record Blob : Type := { blob_serial : nat; blob_path : string }.

Definition Blob_eqb (a b : Blob) : bool :=
  Nat.eqb (blob_serial a) (blob_serial b) && String.eqb (blob_path a) (blob_path b).

(** The calls on the external services. *)
Inductive Call : Type :=
| FeaturestoreServiceClient (api_endpoint : string)
| create_featurestore (featurestore_id : string)
| create_entity_type (featurestore_id entity_type_id : string)
| batch_create_features (featurestore_id entity_type_id : string)
    (requests : list (string * ValueType))
| storage_blob (b : Blob)
| upload_from_file (b : Blob) (csv_rows : list Row)
| import_feature_values (featurestore_id entity_type_id uri entity_id_field : string)
    (feature_ids : list string)
| export_feature_values (entity_type_name output_uri_prefix : string)
| download_as_bytes (b : Blob)
| csv_reader_exhausted (b : Blob)
| blob_delete (b : Blob).

(** Whether a call deletes the staging object [b]. *)
Definition deletes (b : Blob) (c : Call) : bool :=
  match c with blob_delete b' => Blob_eqb b b' | _ => false end.
Definition is_delete (c : Call) : bool :=
  match c with blob_delete _ => true | _ => false end.
Definition is_storage_blob (c : Call) : bool :=
  match c with storage_blob _ => true | _ => false end.

(** [os.path.join] of two components. *)
Fixpoint endswith_slash (s : string) : bool :=
  match s with
  | EmptyString => false
  | String c EmptyString => Ascii.eqb c "/"
  | String _ s' => endswith_slash s'
  end.

Definition path_join (a b : string) : string :=
  if String.prefix "/" b then b
  else if String.eqb a "" || endswith_slash a then a +++ b
  else a +++ "/" +++ b.

Section Effects.
(** The type of Python exceptions. *)
Variable Exn : Type.
Variable uuid4 : nat -> string.
(** Configuration of the tool. *)
Variable region : string.
Variable gcs_path : string.

(** The calls made so far, each with the exception it raised, if any. *)
Definition Trace := list (Call * option Exn).

Record World : Type := { trace : Trace; uuids : nat }.

(** The environment: whether a call raises, given what happened before, and
    what the csv reader yields from a downloaded blob before it stops. *)
Variable raises : Trace -> Call -> option Exn.
Variable downloaded_rows : Trace -> Blob -> list Row.

Inductive outcome (A : Type) : Type :=
| Returned (a : A)
| Raised (x : Exn).
Arguments Raised {A} x.

Definition M (A : Type) : Type := World -> outcome A * World.

Definition ret {A} (a : A) : M A := fun w => (Returned a, w).

Definition bind {A B} (m : M A) (k : A -> M B) : M B :=
  fun w =>
    match m w with
    | (Returned a, w') => k a w'
    | (Raised x, w') => (Raised x, w')
    end.

(** [try: body finally: cleanup] *)
Definition try_finally {A} (body : M A) (cleanup : M unit) : M A :=
  fun w =>
    let '(r, w1) := body w in
    match cleanup w1 with
    | (Returned _, w2) => (r, w2)
    | (Raised y, w2) => (Raised y, w2)
    end.

(** A call on an external service. *)
Definition call (c : Call) : M unit :=
  fun w =>
    let r := raises (trace w) c in
    (match r with Some x => Raised x | None => Returned tt end,
     {| trace := trace w ++ [(c, r)]; uuids := uuids w |}).

(** [str(uuid4())[:5]] *)
Definition draw_suffix : M string :=
  fun w => (Returned (suffix uuid4 (uuids w)),
            {| trace := trace w; uuids := S (uuids w) |}).

(** A new blob object for [path]: [storage.Client(project)], the match of
    the path against [GS_FINAL_PATH_FORMAT], [bucket(...)] and [blob(...)],
    taken as one call that may raise.  Whether it raises is left to the
    environment: that covers the [AttributeError] of [match.group] on a path
    that does not match, and the failures of the storage client. *)
Definition new_blob (path : string) : M Blob :=
  fun w =>
    let b := {| blob_serial := length (trace w); blob_path := path |} in
    bind (call (storage_blob b)) (fun _ => ret b) w.

(** [for x in l: f x] *)
Fixpoint for_each {A} (l : list A) (f : A -> M unit) : M unit :=
  match l with
  | [] => ret tt
  | x :: l' => bind (f x) (fun _ => for_each l' f)
  end.

Notation "x <- m ;; k" := (bind m (fun x => k))
  (at level 61, m at next level, right associativity).
Notation "m ;;; k" := (bind m (fun _ => k))
  (at level 61, right associativity).

(** *** Importer: schema creation and upload *)

(** [_create_schema] *)
Definition _create_schema (featurestores : Model) : M unit :=
  for_each featurestores (fun '(featurestore_id, featurestore) =>
    call (create_featurestore featurestore_id) ;;;
    for_each (entity_types featurestore) (fun '(entity_type_id, entity_type) =>
      call (create_entity_type featurestore_id entity_type_id) ;;;
      call (batch_create_features featurestore_id entity_type_id
              (map (fun kv => (fst kv, data_type (snd kv)))
                 (features_metadata entity_type))))).

(** [_create_blob_object] *)
Definition _create_blob_object (entity_type_id : string) : M (string * Blob) :=
  s <- draw_suffix ;;
  let filename := entity_type_id +++ "_" +++ s +++ ".csv" in
  let filepath := path_join gcs_path filename in
  blob <- new_blob filepath ;;
  ret (filepath, blob).

(** [_write_header]: the header row and the entity-id column. *)
Definition _write_header (entity_type : EntityType) : M (Row * string) :=
  s <- draw_suffix ;;
  let entity_id_column_id := "entity_id_" +++ s in
  ret (entity_id_column_id :: Dict.keys (features_metadata entity_type),
       entity_id_column_id).

(** [_write_row].  The [defaultdict] lookup gives the default feature, whose
    value is the empty string, when the entity lacks the feature; the entry
    it adds to the entity is not read again. *)
Definition _write_row (entity_type : EntityType) (entity_id : string)
    (entity : Entity) : Row :=
  entity_id ::
  map (fun feature_metadata_id =>
         value (fst (Dict.getitem Feature_default (features entity)
                       feature_metadata_id)))
    (Dict.keys (features_metadata entity_type)).

(** [_upload_data_file] *)
Definition _upload_data_file (entity_type : EntityType) (blob : Blob) : M string :=
  hc <- _write_header entity_type ;;
  let rows :=
    fst hc :: map (fun kv => _write_row entity_type (fst kv) (snd kv))
                (entities entity_type) in
  call (upload_from_file blob rows) ;;;
  ret (snd hc).

(** [_run_data_ingestion_job] *)
Definition _run_data_ingestion_job (featurestore_id entity_type_id : string)
    (entity_type : EntityType) (filepath entity_id_column_id : string) : M unit :=
  call (import_feature_values featurestore_id entity_type_id filepath
          entity_id_column_id (Dict.keys (features_metadata entity_type))).

(** The body of the inner loop of [_upload_data], for one entity type. *)
Definition upload_entity_type (featurestore_id : string)
    (item : string * EntityType) : M unit :=
  let '(entity_type_id, entity_type) := item in
  fb <- _create_blob_object entity_type_id ;;
  try_finally
    (entity_id_column_id <- _upload_data_file entity_type (snd fb) ;;
     _run_data_ingestion_job featurestore_id entity_type_id entity_type
       (fst fb) entity_id_column_id)
    (call (blob_delete (snd fb))).

(** [_upload_data] *)
Definition _upload_data (featurestores : Model) : M unit :=
  for_each featurestores (fun '(featurestore_id, featurestore) =>
    for_each (entity_types featurestore) (upload_entity_type featurestore_id)).

(** [DataImporter.execute] on a file holding [rows]: the outcome, the world
    after the run and the warnings logged while parsing. *)
Definition execute (rows : list Row) (w : World)
  : outcome unit * World * list string :=
  let st := _parse_schema_and_data uuid4 (uuids w) rows in
  let w1 := {| trace := trace w; uuids := uuid_calls st |} in
  if Dict.truthy (featurestores st) then
    (bind (call (FeaturestoreServiceClient (region +++ "-aiplatform.googleapis.com")))
       (fun _ => bind (_create_schema (featurestores st))
                   (fun _ => _upload_data (featurestores st))) w1,
     warnings st)
  else (Returned tt, w1, warnings st).

(** *** Exporter: export of one entity type's entity data *)

(** [_locate_folder_and_blob] *)
Definition _locate_folder_and_blob (entity_type_id : string) : M (string * Blob) :=
  s <- draw_suffix ;;
  let unique_folder := entity_type_id +++ "_" +++ s in
  let unique_folder_path := path_join gcs_path unique_folder in
  let filepath := path_join unique_folder_path "000000000000.csv" in
  blob <- new_blob filepath ;;
  ret (unique_folder_path, blob).

(** [_process_data_line]: the loop over the zipped header and values; the
    accumulator holds the current [entity_id] and the entity type. *)
Definition _process_data_line (entity_type_id : string)
    (entity_type_data : EntityType) (features_in_order feature_values : Row)
  : EntityType :=
  snd (fold_left
         (fun (acc : string * EntityType) '(feature_name, feature_value) =>
            let '(entity_id, data) := acc in
            if String.eqb feature_name ("entity_type_" +++ entity_type_id)
            then (feature_value, data)
            else if String.eqb feature_name "feature_timestamp"
            then (entity_id, data)
            else (entity_id,
                  set_feature_value data entity_id feature_name feature_value))
         (combine features_in_order feature_values)
         ("", entity_type_data)).

(** [_process_entities_and_features] on the rows the csv reader yields. *)
Definition _process_entities_and_features (entity_type_id : string)
    (entity_type_data : EntityType) (csv_rows : list Row) : EntityType :=
  match csv_rows with
  | [] => entity_type_data
  | features_in_order :: data_rows =>
      fold_left
        (fun data row => _process_data_line entity_type_id data features_in_order row)
        data_rows entity_type_data
  end.

(** [_export_entity_and_features]: the export job and the download; yields
    the rows the csv reader will give. *)
Definition _export_entity_and_features (entity_type_name unique_folder_path : string)
    (blob : Blob) : M (list Row) :=
  call (export_feature_values entity_type_name unique_folder_path) ;;;
  fun w =>
    bind (call (download_as_bytes blob))
      (fun _ => ret (downloaded_rows (trace w) blob)) w.

(** [_export_entity_type_entity_data]; returns the entity type data after
    the staged CSV has been decoded into it.  The csv reader yields the rows
    of [downloaded_rows] and then either stops or raises
    ([csv_reader_exhausted]).  When the function raises, the exception
    leaves [execute] and the partly filled data is not used again. *)
Definition _export_entity_type_entity_data (entity_type_id : string)
    (entity_type_data : EntityType) (entity_type_name : string) : M EntityType :=
  fb <- _locate_folder_and_blob entity_type_id ;;
  try_finally
    (csv_rows <- _export_entity_and_features entity_type_name (fst fb) (snd fb) ;;
     let data := _process_entities_and_features entity_type_id
                   entity_type_data csv_rows in
     call (csv_reader_exhausted (snd fb)) ;;;
     ret data)
    (call (blob_delete (snd fb))).

End Effects.

Arguments Returned {Exn A} a.
Arguments Raised {Exn A} x.

(** *** The bracket discipline of staging objects, stated on traces *)

Section Brackets.
Variable Exn : Type.

(** How often [blob.delete()] is called on the staging object [b] in a
    trace, whether or not the call returned. *)
Definition deletions (b : Blob) (tr : Trace Exn) : nat :=
  length (filter (fun ce => deletes b (fst ce)) tr).

(** No call of the trace raised. *)
Definition quiet (tr : Trace Exn) : Prop := Forall (fun ce => snd ce = None) tr.

(** The calls of a [try] body: neither a blob creation nor a deletion. *)
Definition body_call (c : Call) : Prop :=
  is_delete c = false /\ is_storage_blob c = false.

(** The calls a block of code made and how it ended: it returned and no call
    raised, or its last call raised and ended it. *)
Inductive block_outcome (A : Type) : Trace Exn -> outcome Exn A -> Prop :=
| block_returns tr a : quiet tr -> block_outcome tr (Returned a)
| block_raises tr c x : quiet tr -> block_outcome (tr ++ [(c, Some x)]) (Raised x).

(** The trace of one entity type, starting when the trace so far has [n]
    entries: either the blob object could not be made, or it was made, the
    [try] body ran, and the blob was deleted; a deletion that raises replaces
    the outcome of the body. *)
Inductive segment (A : Type) (n : nat) : Trace Exn -> outcome Exn A -> Prop :=
| segment_no_blob path x :
    segment n [(storage_blob {| blob_serial := n; blob_path := path |}, Some x)]
      (Raised x)
| segment_blob path body rb d :
    Forall (fun ce => body_call (fst ce)) body ->
    block_outcome body rb ->
    segment n
      ((storage_blob {| blob_serial := n; blob_path := path |}, None)
         :: body ++
         [(blob_delete {| blob_serial := n; blob_path := path |}, d)])
      (match d with Some y => Raised y | None => rb end).

(** The trace of a loop over entity types: segments one after the other,
    the first that raises ends the loop. *)
Inductive segments (n : nat) : Trace Exn -> outcome Exn unit -> Prop :=
| segments_nil : segments n [] (Returned tt)
| segments_stop seg x : segment n seg (Raised x : outcome Exn unit) ->
                        segments n seg (Raised x)
| segments_cons seg rest r :
    segment n seg (Returned tt) ->
    segments (n + length seg) rest r ->
    segments n (seg ++ rest) r.

(** A block of code whose calls all satisfy [P]: from any world it extends
    the trace by such calls and ends as the calls say. *)
Definition block (A : Type) (P : Call -> Prop) (m : M Exn A) : Prop :=
  forall w, exists tr,
    trace (snd (m w)) = trace w ++ tr /\
    Forall (fun ce => P (fst ce)) tr /\
    block_outcome tr (fst (m w)).

(** A piece of code that handles one staging object, and a loop of such. *)
Definition one_segment (A : Type) (m : M Exn A) : Prop :=
  forall w, exists seg,
    trace (snd (m w)) = trace w ++ seg /\
    segment (length (trace w)) seg (fst (m w)).

Definition many_segments (m : M Exn unit) : Prop :=
  forall w, exists tr,
    trace (snd (m w)) = trace w ++ tr /\
    segments (length (trace w)) tr (fst (m w)).

(** What a trace [tr] and an outcome [r] of code that handles staging
    objects must satisfy: every blob object that was made is deleted exactly
    once; a normal return means that no call raised; and when a call of a
    [try] body raised [x], what follows is exactly the deletion of a blob
    made before, and the outcome is an exception: [x], unless the deletion
    raised one of its own. *)
Definition cleanup_guarantee (tr : Trace Exn) (r : outcome Exn unit) : Prop :=
  (forall b, In (storage_blob b, None) tr -> deletions b tr = 1) /\
  (r = Returned tt -> quiet tr) /\
  (forall pre c x post,
      tr = pre ++ (c, Some x) :: post ->
      body_call c ->
      exists b d,
        post = [(blob_delete b, d)] /\
        In (storage_blob b, None) pre /\
        r = Raised (match d with Some y => y | None => x end)).

(** The outcome with its value forgotten. *)
Definition forget (A : Type) (r : outcome Exn A) : outcome Exn unit :=
  match r with Returned _ => Returned tt | Raised x => Raised x end.
End Brackets.

(** *** Sample environments *)

(** An environment in which only the ingestion job fails. *)
Definition ingestion_fails : Trace string -> Call -> option string :=
  fun _ c =>
    match c with
    | import_feature_values _ _ _ _ _ => Some "ow"
    | _ => None
    end.

Definition no_download : Trace string -> Blob -> list Row := fun _ _ => [].

Definition empty_world : World string := {| trace := []; uuids := 0 |}.

(** ** Further definitions *)

(** The body of the loop of [_process_data_line], for one column. *)
Definition process_column (entity_type_id : string)
    (acc : string * EntityType) (item : string * string) : string * EntityType :=
  let '(feature_name, feature_value) := item in
  let '(entity_id, data) := acc in
  if String.eqb feature_name ("entity_type_" +++ entity_type_id)
  then (feature_value, data)
  else if String.eqb feature_name "feature_timestamp"
  then (entity_id, data)
  else (entity_id, set_feature_value data entity_id feature_name feature_value).

(** A column name that [_process_data_line] does not store as a feature. *)
Definition reserved_column (entity_type_id feature_name : string) : bool :=
  String.eqb feature_name ("entity_type_" +++ entity_type_id) ||
  String.eqb feature_name "feature_timestamp".

(** *** Properties of traces of whole runs *)

Section TraceProperties.
Variable Exn : Type.

(** Code that, from any world, extends the trace by calls for which [Q]
    holds. *)
Definition yields (A : Type) (Q : Trace Exn -> Prop) (m : M Exn A) : Prop :=
  forall w, exists tr, trace (snd (m w)) = trace w ++ tr /\ Q tr.

(** The cells of an entity's row of the staged CSV after the identifier:
    for each feature of the metadata, the entity's value or the empty
    string. *)
Definition staged_cells (T : EntityType) (E : Entity) : Row :=
  map (fun f => match Dict.get (features E) f with
                | Some F => value F
                | None => ""
                end)
    (Dict.keys (features_metadata T)).

(** The staged CSV of an entity type whose identifier column is [col]. *)
Definition staged_csv (col : string) (T : EntityType) : list Row :=
  (col :: Dict.keys (features_metadata T))
    :: map (fun kv => fst kv :: staged_cells T (snd kv)) (entities T).

(** An upload carries the staged CSV of an entity type of the model. *)
Definition uploads_staged_csv (featurestores : Model) (c : Call) : Prop :=
  match c with
  | upload_from_file _ csv_rows =>
      exists fs FS et T s,
        In (fs, FS) featurestores /\ In (et, T) (entity_types FS) /\
        csv_rows = staged_csv ("entity_id_" +++ s) T
  | _ => True
  end.

(** Every ingestion job comes right after a successful upload to the blob
    at its source path, of a CSV whose header is the job's identifier column
    followed by its feature identifiers. *)
Definition ingestion_follows_upload (tr : Trace Exn) : Prop :=
  forall pre fs et uri col ids o post,
    tr = pre ++ (import_feature_values fs et uri col ids, o) :: post ->
    exists pre' b data,
      pre = pre' ++ [(upload_from_file b ((col :: ids) :: data), None)] /\
      blob_path b = uri.
End TraceProperties.

(** The calls [_create_schema] plans for a model, in order: for each
    featurestore its creation, then for each of its entity types the creation
    of the entity type and of its features. *)
Definition schema_plan (featurestores : Model) : list Call :=
  flat_map (fun '(fs, FS) =>
    create_featurestore fs ::
    flat_map (fun '(et, T) =>
      [create_entity_type fs et;
       batch_create_features fs et
         (map (fun kv => (fst kv, data_type (snd kv))) (features_metadata T))])
      (entity_types FS))
    featurestores.

Section WholeRuns.
Variable Exn : Type.


End WholeRuns.

(** ** The exporter's discovery of what to export ([data_exporter.py]) *)

(** [s.split('/')] *)
Fixpoint split_slash (s : string) : list string :=
  match s with
  | EmptyString => [EmptyString]
  | String c s' =>
      if Ascii.eqb c "/" then EmptyString :: split_slash s'
      else match split_slash s' with
           | seg :: segs => String c seg :: segs
           | [] => [String c EmptyString]
           end
  end.

(** [name.split('/')[-1]] *)
Definition last_segment (name : string) : string := last (split_slash name) "".

(** A feature as the service lists it: its resource name and value type. *)
Record RemoteFeature : Type := {
  feature_resource_name : string;
  value_type : ValueType
}.

(** [entity_type_data.features_metadata[feature_id].data_type = value_type] *)
Definition set_data_type (entity_type_data : EntityType) (feature_id : string)
    (value_type : ValueType) : EntityType :=
  let '(_, md) := Dict.getitem FeatureMetadata_default
                    (features_metadata entity_type_data) feature_id in
  {| features_metadata := Dict.set md feature_id {| data_type := value_type |};
     entities := entities entity_type_data |}.

Module DataExporter.
Section DataExporter.
Variable Exn : Type.
Variable uuid4 : nat -> string.
(** Configuration of the tool. *)
Variables project_id region gcs_path : string.
Variables featurestore_id_regex entity_type_id_regex : string.

(** The environment.  The calls of [Call] are recorded in the trace; the
    listing calls of the client are queries that leave no entry.  A listing
    is decided when the call is made: iterating the pager yields the
    resources of the first component and then stops, or raises the exception
    of the second. *)
Variable raises : Trace Exn -> Call -> option Exn.
Variable downloaded_rows : Trace Exn -> Blob -> list Row.
Variable list_featurestores : Trace Exn -> string -> list string * option Exn.
Variable list_entity_types : Trace Exn -> string -> list string * option Exn.
Variable list_features : Trace Exn -> string -> list RemoteFeature * option Exn.

(** [re.match(pattern, string)]: whether there is a match; it raises on a
    pattern that does not compile. *)
Variable re_match : string -> string -> outcome Exn bool.

Notation "x <- m ;; k" := (bind m (fun x => k))
  (at level 61, m at next level, right associativity).
Notation "m ;;; k" := (bind m (fun _ => k))
  (at level 61, right associativity).

(** Code that makes no call: it returns or raises as [r] says. *)
Definition lift (A : Type) (r : outcome Exn A) : M Exn A := fun w => (r, w).

(** A loop whose body updates the local data [s]. *)
Fixpoint fold_m (A B : Type) (f : B -> A -> M Exn B) (l : list A) (s : B)
  : M Exn B :=
  match l with
  | [] => ret s
  | x :: l' => s' <- f s x ;; fold_m f l' s'
  end.

(** [for x in client.list_...(parent=...): body] *)
Definition for_listed (A B : Type) (list_call : Trace Exn -> list A * option Exn)
    (f : B -> A -> M Exn B) (s : B) : M Exn B :=
  fun w =>
    let listing := list_call (trace w) in
    (s' <- fold_m f (fst listing) s ;;
     match snd listing with
     | Some x => lift (Raised x)
     | None => ret s'
     end) w.

(** [_export_feature_metadata]; yields the entity type data after the
    metadata have been recorded. *)
Definition _export_feature_metadata (entity_type_data : EntityType)
    (entity_type_name : string) : M Exn EntityType :=
  for_listed (fun tr => list_features tr entity_type_name)
    (fun data feature =>
       let feature_id := last_segment (feature_resource_name feature) in
       ret (set_data_type data feature_id (value_type feature)))
    entity_type_data.

(** [_export_entity_type_data]; yields the featurestore data after the
    entity type has been exported into it. *)
Definition _export_entity_type_data (entity_type_id : string)
    (featurestore_data : Featurestore) (entity_type_name : string)
  : M Exn Featurestore :=
  let '(entity_type_data, ets) :=
    Dict.getitem EntityType_default (entity_types featurestore_data)
      entity_type_id in
  data1 <- _export_feature_metadata entity_type_data entity_type_name ;;
  data2 <- _export_entity_type_entity_data uuid4 gcs_path raises downloaded_rows
             entity_type_id data1 entity_type_name ;;
  ret {| entity_types := Dict.set ets entity_type_id data2 |}.

(** The body of the loop of [_export_featurestore_data], for one listed
    entity type. *)
Definition export_listed_entity_type (featurestore_data : Featurestore)
    (entity_type_name : string) : M Exn Featurestore :=
  let entity_type_id := last_segment entity_type_name in
  matched <- lift (re_match entity_type_id_regex entity_type_id) ;;
  if negb matched then ret featurestore_data
  else _export_entity_type_data entity_type_id featurestore_data entity_type_name.

(** [_export_featurestore_data]; yields the featurestores data after the
    featurestore has been exported into it. *)
Definition _export_featurestore_data (featurestores_data : Model)
    (featurestore_name featurestore_id : string) : M Exn Model :=
  let '(featurestore_data, fss) :=
    Dict.getitem Featurestore_default featurestores_data featurestore_id in
  data <- for_listed (fun tr => list_entity_types tr featurestore_name)
            export_listed_entity_type featurestore_data ;;
  ret (Dict.set fss featurestore_id data).

(** The body of the loop of [_export_featurestores], for one listed
    featurestore. *)
Definition export_listed_featurestore (featurestores_data : Model)
    (featurestore_name : string) : M Exn Model :=
  let featurestore_id := last_segment featurestore_name in
  matched <- lift (re_match featurestore_id_regex featurestore_id) ;;
  if negb matched then ret featurestores_data
  else _export_featurestore_data featurestores_data featurestore_name
         featurestore_id.

(** [featurestore_client.common_location_path(project, location)] *)
Definition common_location_path : string :=
  "projects/" +++ project_id +++ "/locations/" +++ region.

(** [_export_featurestores] *)
Definition _export_featurestores : M Exn Model :=
  call raises (FeaturestoreServiceClient (region +++ "-aiplatform.googleapis.com")) ;;;
  for_listed (fun tr => list_featurestores tr common_location_path)
    export_listed_featurestore Dict.empty.

(** [DataExporter.execute]; yields the rows written to the export file.
    Nothing is written when the discovery raises. *)
Definition execute : M Exn (list Row) :=
  featurestores <- _export_featurestores ;;
  ret (written_rows featurestores).
End DataExporter.
End DataExporter.

(** *** Properties of runs of the exporter *)

(** The separator [os.path.join] puts between a first component and a
    relative second one. *)
Definition separator (a : string) : string :=
  if String.eqb a "" || endswith_slash a then "" else "/".

(** The value type a listing gives feature [f]: that of the last listed
    feature with that identifier. *)
Definition listed_type (l : list RemoteFeature) (f : string) : option ValueType :=
  option_map value_type
    (find (fun feature =>
             String.eqb (last_segment (feature_resource_name feature)) f)
       (rev l)).

Section ExporterRuns.
Variable Exn : Type.

(** Code whose normal results satisfy [R]. *)
Definition returns (A : Type) (R : A -> Prop) (m : M Exn A) : Prop :=
  forall w a, fst (m w) = Returned a -> R a.


(** Every download reads the blob object made just before the export job
    that precedes it, at the file the job writes under its output prefix;
    both calls returned. *)
Definition download_follows_export (tr : Trace Exn) : Prop :=
  forall pre b o post,
    tr = pre ++ (download_as_bytes b, o) :: post ->
    exists pre' name output_uri_prefix,
      pre = pre' ++ [(storage_blob b, None);
                     (export_feature_values name output_uri_prefix, None)] /\
      blob_path b = path_join output_uri_prefix "000000000000.csv".
End ExporterRuns.

(** *** A sample service for the exporter *)

(** One featurestore with the entity types [human] and [robot], each with
    the feature [height]. *)
Definition sample_featurestores : Trace string -> string -> list string * option string :=
  fun _ parent => ([parent +++ "/featurestores/fs1"], None).

Definition sample_entity_types : Trace string -> string -> list string * option string :=
  fun _ parent =>
    ([parent +++ "/entityTypes/human"; parent +++ "/entityTypes/robot"], None).

Definition sample_features : Trace string -> string -> list RemoteFeature * option string :=
  fun _ parent =>
    ([{| feature_resource_name := parent +++ "/features/height";
         value_type := INT64 |}], None).

Definition sample_download : Trace string -> Blob -> list Row :=
  fun _ _ => [["entity_type_human"; "height"]; ["bob"; "4"]].

(** [re.match] on patterns without metacharacters: a prefix test. *)
Definition literal_match : string -> string -> outcome string bool :=
  fun pattern s => Returned (String.prefix pattern s).

Definition no_failure : Trace string -> Call -> option string := fun _ _ => None.

(** The staging folder of the entity type with resource name
    [entity_type_name] when the [n]-th UUID of the run is drawn for it: a
    folder under [gcs_path]. *)
Definition staging_folder (uuid4 : nat -> string) (gcs_path : string)
    (entity_type_name : string) (n : nat) : string :=
  gcs_path +++ separator gcs_path +++
  last_segment entity_type_name +++ "_" +++ suffix uuid4 n.

(** Every export job of a trace is for an entity type and an output prefix
    that satisfy [P]. *)
Definition export_jobs (Exn : Type) (P : string -> string -> Prop)
    (tr : Trace Exn) : Prop :=
  forall name output_uri_prefix o,
    In (export_feature_values name output_uri_prefix, o) tr ->
    P name output_uri_prefix.

(** ** Storage paths ([GS_ORIGINAL_PATH_FORMAT], [GS_FINAL_PATH_FORMAT])

    The two patterns the tools match storage paths against, in the fragment
    of Python's regular expressions they are written in, with the semantics
    of [re.match]: the match starts at the start of the string, quantifiers
    are greedy and give back characters when what follows fails, [.] is any
    character but a newline, [$] matches at the end of the string and just
    before a newline that ends it. *)

Module Re.
(** The items of a pattern: the start anchor, a literal character, an
    optional literal character, a named group that holds a character class
    repeated with [+] (at least one) or with the star, and the end anchor. *)
Inductive item : Type :=
| Bol
| Lit (c : ascii)
| Opt (c : ascii)
| Group (name : string) (at_least_one : bool) (cls : ascii -> bool)
| Eol.

Definition pattern := list item.

(** The literal text [s]. *)
Fixpoint lits (s : string) : pattern :=
  match s with
  | EmptyString => []
  | String c s' => Lit c :: lits s'
  end.

(** The named groups of a match object. *)
Definition Match := Dict.t string.

Definition newline : ascii := "010"%char.

(** [.] *)
Definition dot (c : ascii) : bool := negb (Ascii.eqb c newline).
(** [[^/]] *)
Definition not_slash (c : ascii) : bool := negb (Ascii.eqb c "/").

(** All characters of [s] are in the class. *)
Fixpoint all (cls : ascii -> bool) (s : string) : bool :=
  match s with
  | EmptyString => true
  | String c s' => cls c && all cls s'
  end.

(** A greedy repetition of a character class on [s]: the longest run first,
    then shorter ones, until the continuation [k] accepts the text taken
    and the rest of the string.  [taken] is the text taken so far. *)
Fixpoint greedy (A : Type) (cls : ascii -> bool) (s : string)
    (k : string -> string -> option A) (taken : string) : option A :=
  match s with
  | String c s' =>
      if cls c then
        match greedy cls s' k (taken +++ String c EmptyString) with
        | Some r => Some r
        | None => k taken s
        end
      else k taken s
  | EmptyString => k taken s
  end.

(** The items [p] matched against [s], which starts at position [pos] of
    the subject; [g] holds the groups closed so far. *)
Fixpoint match_items (p : pattern) (pos : nat) (s : string) (g : Match)
  : option Match :=
  match p with
  | [] => Some g
  | Bol :: p' => if Nat.eqb pos 0 then match_items p' pos s g else None
  | Lit c :: p' =>
      match s with
      | String c' s' =>
          if Ascii.eqb c c' then match_items p' (S pos) s' g else None
      | EmptyString => None
      end
  | Opt c :: p' =>
      let taken :=
        match s with
        | String c' s' =>
            if Ascii.eqb c c' then match_items p' (S pos) s' g else None
        | EmptyString => None
        end in
      match taken with
      | Some r => Some r
      | None => match_items p' pos s g
      end
  | Group name at_least_one cls :: p' =>
      greedy cls s
        (fun text rest =>
           if at_least_one && String.eqb text "" then None
           else match_items p' (pos + String.length text) rest
                  (Dict.set g name text))
        ""
  | Eol :: p' =>
      if String.eqb s "" || String.eqb s (String newline EmptyString)
      then match_items p' pos s g
      else None
  end.

(** [re.match(pattern, string)]; [None] is Python's [None]. *)
Definition re_match (p : pattern) (s : string) : option Match :=
  match_items p 0 s Dict.empty.
End Re.

(** [GS_ORIGINAL_PATH_FORMAT]: the anchor, [gs://], the group
    [bucket_name] of [[^/]+], [/?], the group [blob_name] of a starred dot,
    and [$]. *)
Definition GS_ORIGINAL_PATH_FORMAT : Re.pattern :=
  Re.Bol :: Re.lits "gs://" ++
  [Re.Group "bucket_name" true Re.not_slash; Re.Opt "/";
   Re.Group "blob_name" false Re.dot; Re.Eol].

(** [GS_FINAL_PATH_FORMAT]: the anchor, [gs://], the group [bucket_name]
    of [[^/]+], [/], the group [blob_name] of [.+], and [$]. *)
Definition GS_FINAL_PATH_FORMAT : Re.pattern :=
  Re.Bol :: Re.lits "gs://" ++
  [Re.Group "bucket_name" true Re.not_slash; Re.Lit "/";
   Re.Group "blob_name" true Re.dot; Re.Eol].

(** The check of [DataImporter.__init__] and [DataExporter.__init__]: the
    message of the [ValueError] raised, or nothing. *)
Definition __init__ (gcs_path : string) : option string :=
  match Re.re_match GS_ORIGINAL_PATH_FORMAT gcs_path with
  | None => Some ("Not a valid GS path format: " +++ gcs_path)
  | Some _ => None
  end.

(** The bucket and the blob name that [_create_blob_object] and
    [_locate_folder_and_blob] read off the match of the file path;
    [None] is the [AttributeError] raised by [match.group] when there is no
    match. *)
Definition bucket_and_blob_name (filepath : string) : option (string * string) :=
  match Re.re_match GS_FINAL_PATH_FORMAT filepath with
  | Some m =>
      match Dict.get m "bucket_name", Dict.get m "blob_name" with
      | Some bucket_name, Some blob_name => Some (bucket_name, blob_name)
      | _, _ => None
      end
  | None => None
  end.

(** The longest prefix of [s] in a character class, and what follows it. *)
Fixpoint take_while (cls : ascii -> bool) (s : string) : string :=
  match s with
  | String c s' => if cls c then String c (take_while cls s') else EmptyString
  | EmptyString => EmptyString
  end.

Fixpoint drop_while (cls : ascii -> bool) (s : string) : string :=
  match s with
  | String c s' => if cls c then drop_while cls s' else s
  | EmptyString => EmptyString
  end.

(** [s] without a slash at its start. *)
Definition after_slash (s : string) : string :=
  match s with
  | String c s' => if Ascii.eqb c "/" then s' else s
  | EmptyString => EmptyString
  end.

(** ** The command-line tools ([import_tool.py], [export_tool.py]) *)

Section Tools.
Variable Exn : Type.
(** [ValueError(message)] and [Exception(message)] chained to its cause by
    [raise ... from ex]. *)
Variable ValueError : string -> Exn.
Variable Exception_from : string -> Exn -> Exn.

(** What [main] makes of the outcome of the [try] block. *)
Definition wrap_exception (A : Type) (message : string) (r : outcome Exn A)
  : outcome Exn A :=
  match r with
  | Returned a => Returned a
  | Raised ex => Raised (Exception_from message ex)
  end.

(** [main] of [import_tool.py] on a file holding [rows]: the outcome, the
    world after the run and the warnings logged. *)
Definition import_tool_main (uuid4 : nat -> string)
    (region import_file_path gcs_path : string)
    (raises : Trace Exn -> Call -> option Exn) (rows : list Row) (w : World Exn)
  : outcome Exn unit * World Exn * list string :=
  let message := "Failed to process file: " +++ import_file_path in
  match __init__ gcs_path with
  | Some invalid =>
      (wrap_exception message (Raised (ValueError invalid)), w, [])
  | None =>
      let '(r, w', logged) := execute uuid4 region gcs_path raises rows w in
      (wrap_exception message r, w', logged)
  end.

(** [main] of [export_tool.py]: the outcome, with the rows written to the
    export file, and the world after the run. *)
Definition export_tool_main (uuid4 : nat -> string)
    (project_id region gcs_path export_file_path : string)
    (featurestore_id_regex entity_type_id_regex : string)
    (raises : Trace Exn -> Call -> option Exn)
    (downloaded_rows : Trace Exn -> Blob -> list Row)
    (list_featurestores list_entity_types
       : Trace Exn -> string -> list string * option Exn)
    (list_features : Trace Exn -> string -> list RemoteFeature * option Exn)
    (re_match : string -> string -> outcome Exn bool) (w : World Exn)
  : outcome Exn (list Row) * World Exn :=
  let message := "Failed to export Featurestore data: " +++ export_file_path in
  match __init__ gcs_path with
  | Some invalid => (wrap_exception message (Raised (ValueError invalid)), w)
  | None =>
      let '(r, w') :=
        DataExporter.execute uuid4 project_id region gcs_path
          featurestore_id_regex entity_type_id_regex raises downloaded_rows
          list_featurestores list_entity_types list_features re_match w in
      (wrap_exception message r, w')
  end.
End Tools.

(** *** Ingestion jobs and the schema *)

(** An ingestion job is for an entity type of the model, and names the
    features of its metadata. *)
Definition ingests_entity_type (featurestores : Model) (c : Call) : Prop :=
  match c with
  | import_feature_values featurestore_id entity_type_id _ _ feature_ids =>
      exists FS T,
        In (featurestore_id, FS) featurestores /\
        In (entity_type_id, T) (entity_types FS) /\
        feature_ids = Dict.keys (features_metadata T)
  | _ => True
  end.

Definition is_import (c : Call) : bool :=
  match c with import_feature_values _ _ _ _ _ => true | _ => false end.

(** The identifiers of a flat-file row: featurestore, entity type, entity
    and feature. *)
Definition row_key (row : Row) : string * string * string * string :=
  (nth 1 row "", nth 3 row "", nth 5 row "", nth 7 row "").

(** A download in which the entity [bob] comes twice. *)
Definition repeated_download : Trace string -> Blob -> list Row :=
  fun _ _ => [["entity_type_human"; "height"]; ["bob"; "4"]; ["bob"; "5"]].

(** ** The feature time of an ingestion job ([_run_data_ingestion_job])

    [current_time.nanos = (current_time.nanos // 1000000) * 1000000], on
    Python integers. *)
Definition truncate_nanos (nanos : Z) : Z := (nanos / 1000000 * 1000000)%Z.

(** ** Staging objects, one entity type at a time *)

(** The entity types of a model, each with the identifier of its
    featurestore, in the order in which the loops of [_upload_data] meet
    them. *)
Definition entity_types_in_order (featurestores : Model)
  : list (string * string * EntityType) :=
  flat_map (fun '(featurestore_id, featurestore) =>
              map (fun '(entity_type_id, entity_type) =>
                     (featurestore_id, entity_type_id, entity_type))
                (entity_types featurestore))
    featurestores.

Section StagingRuns.
Variable Exn : Type.

(** How often the staging object [b] was deleted in a trace: the calls of
    [b.delete()] that returned. *)
Definition successful_deletions (b : Blob) (tr : Trace Exn) : nat :=
  length (filter (fun ce => deletes b (fst ce) &&
                            match snd ce with None => true | Some _ => false end)
            tr).

(** The calls made for one staging object [b] whose [try] block makes the
    calls [body] in order.  Making the blob object raises, and nothing else
    happens; or it is made, the calls of the block are made up to the first
    that raises, and then, in either case, [b.delete()] is called; an
    exception of the deletion replaces the outcome of the block. *)
Inductive staged (b : Blob) (body : list Call)
  : Trace Exn -> outcome Exn unit -> Prop :=
| staged_no_blob x :
    staged b body [(storage_blob b, Some x)] (Raised x)
| staged_block_raised done c rest x d :
    body = done ++ c :: rest ->
    staged b body
      ((storage_blob b, None)
         :: map (fun c' => (c', None)) done ++ [(c, Some x); (blob_delete b, d)])
      (Raised (match d with Some y => y | None => x end))
| staged_block_returned d :
    staged b body
      ((storage_blob b, None)
         :: map (fun c' => (c', None)) body ++ [(blob_delete b, d)])
      (match d with Some y => Raised y | None => Returned tt end).

(** The calls of a loop whose body makes, for the item [a], calls that
    satisfy [S a]: the items are taken in order, and the first one whose
    calls end in an exception ends the loop. *)
Inductive staged_run (A : Type)
    (S : A -> Trace Exn -> outcome Exn unit -> Prop)
  : list A -> Trace Exn -> outcome Exn unit -> Prop :=
| staged_run_nil : staged_run S [] [] (Returned tt)
| staged_run_stop a l seg x :
    S a seg (Raised x) -> staged_run S (a :: l) seg (Raised x)
| staged_run_next a l seg tr r :
    S a seg (Returned tt) -> staged_run S l tr r ->
    staged_run S (a :: l) (seg ++ tr) r.

(** The calls [_upload_data] makes for one entity type: the staging object
    is named after the entity type, the [try] block uploads the CSV of the
    entity type to it and runs the ingestion job on it. *)
Definition upload_staged (gcs_path : string)
    (item : string * string * EntityType)
    (seg : Trace Exn) (r : outcome Exn unit) : Prop :=
  let '(featurestore_id, entity_type_id, entity_type) := item in
  exists n s s',
    let path := path_join gcs_path (entity_type_id +++ "_" +++ s +++ ".csv") in
    let b := {| blob_serial := n; blob_path := path |} in
    let col := "entity_id_" +++ s' in
    staged b
      [upload_from_file b (staged_csv col entity_type);
       import_feature_values featurestore_id entity_type_id path col
         (Dict.keys (features_metadata entity_type))]
      seg r.
End StagingRuns.

(** An environment in which the ingestion job fails and the deletion of the
    staging object fails too. *)
Definition ingestion_and_deletion_fail : Trace string -> Call -> option string :=
  fun _ c =>
    match c with
    | import_feature_values _ _ _ _ _ => Some "ow"
    | blob_delete _ => Some "NotFound"
    | _ => None
    end.

(** * Properties *)

(** ** Dictionaries *)

Section DictFacts.
Variable V : Type.
Implicit Types (d : Dict.t V) (k : string) (v : V).

Lemma dict_get_set_same d k v : Dict.get (Dict.set d k v) k = Some v.
Proof.
  induction d as [|[k' v'] d IH]; simpl.
  - now rewrite String.eqb_refl.
  - destruct (String.eqb k' k) eqn:E; simpl; rewrite E; auto.
Qed.

Lemma dict_get_set_other d k k' v :
  k <> k' -> Dict.get (Dict.set d k v) k' = Dict.get d k'.
Proof.
  intros Hne. induction d as [|[k0 v0] d IH]; simpl.
  - destruct (String.eqb k k') eqn:E; auto.
    apply String.eqb_eq in E. contradiction.
  - destruct (String.eqb k0 k) eqn:E; simpl.
    + apply String.eqb_eq in E. subst k0.
      destruct (String.eqb k k') eqn:E'; auto.
      apply String.eqb_eq in E'. contradiction.
    + now rewrite IH.
Qed.

Lemma dict_get_set d k k' v :
  Dict.get (Dict.set d k v) k' =
  if String.eqb k k' then Some v else Dict.get d k'.
Proof.
  destruct (String.eqb k k') eqn:E.
  - apply String.eqb_eq in E. subst. apply dict_get_set_same.
  - apply String.eqb_neq in E. now apply dict_get_set_other.
Qed.

Lemma dict_set_getitem dflt d k v :
  Dict.set (snd (Dict.getitem dflt d k)) k v = Dict.set d k v.
Proof.
  unfold Dict.getitem. destruct (Dict.get d k) eqn:G; simpl; auto.
  clear G. induction d as [|[k' v'] d IH]; simpl.
  - now rewrite String.eqb_refl.
  - destruct (String.eqb k' k) eqn:E; simpl; rewrite E; auto.
    now rewrite IH.
Qed.

Lemma dict_getitem_get dflt d k :
  Dict.get (snd (Dict.getitem dflt d k)) k = Some (fst (Dict.getitem dflt d k)).
Proof.
  unfold Dict.getitem. destruct (Dict.get d k) eqn:G; simpl; auto.
  apply dict_get_set_same.
Qed.

Lemma dict_get_In d k v : Dict.get d k = Some v -> In (k, v) d.
Proof.
  induction d as [|[k' v'] d IH]; simpl; [discriminate|].
  destruct (String.eqb k' k) eqn:E.
  - apply String.eqb_eq in E. intros [= ->]. subst. now left.
  - intros H. right. auto.
Qed.

Lemma dict_get_None_notin d k : Dict.get d k = None -> ~ In k (Dict.keys d).
Proof.
  induction d as [|[k' v'] d IH]; simpl; [tauto|].
  destruct (String.eqb k' k) eqn:E; [discriminate|].
  apply String.eqb_neq in E. intros H [H1|H1]; [contradiction|]. now apply IH.
Qed.

Lemma dict_In_get d k v : Dict.wf d -> In (k, v) d -> Dict.get d k = Some v.
Proof.
  unfold Dict.wf, Dict.keys.
  induction d as [|[k' v'] d IH]; simpl; [tauto|].
  intros Hnd [H|H].
  - injection H as -> ->. now rewrite String.eqb_refl.
  - inversion Hnd as [|? ? Hnot Hnd']; subst.
    destruct (String.eqb k' k) eqn:E.
    + apply String.eqb_eq in E. subst k'. exfalso. apply Hnot.
      change k with (fst (k, v)). now apply in_map.
    + auto.
Qed.

Lemma dict_keys_set d k v :
  Dict.keys (Dict.set d k v) =
  if Dict.contains d k then Dict.keys d else Dict.keys d ++ [k].
Proof.
  unfold Dict.contains.
  induction d as [|[k' v'] d IH]; simpl; auto.
  destruct (String.eqb k' k) eqn:E; simpl; auto.
  rewrite IH. destruct (Dict.get d k); auto.
Qed.

Lemma dict_wf_set d k v : Dict.wf d -> Dict.wf (Dict.set d k v).
Proof.
  unfold Dict.wf. rewrite dict_keys_set. unfold Dict.contains.
  destruct (Dict.get d k) eqn:G; auto.
  intros Hnd. apply NoDup_app; auto.
  - constructor; [simpl; tauto | constructor].
  - intros a Ha [<-|[]]. now apply (dict_get_None_notin _ _ G).
Qed.

End DictFacts.

(** ** Value types *)

Lemma ValueType_getitem_name t : ValueType_getitem (ValueType_name t) = Some t.
Proof. destruct t; reflexivity. Qed.

Lemma ValueType_name_upper t : upper (ValueType_name t) = ValueType_name t.
Proof. destruct t; reflexivity. Qed.

Lemma ValueType_getitem_sound name t :
  ValueType_getitem name = Some t -> ValueType_name t = name.
Proof.
  unfold ValueType_getitem. intros H. apply find_some in H.
  destruct H as [_ H]. now apply String.eqb_eq in H.
Qed.

Lemma inferred_type_not_array known tok t :
  (forall t0, known = Some t0 -> is_array_type t0 = false) ->
  inferred_type known tok = Some t -> is_array_type t = false.
Proof.
  unfold inferred_type. intros Hk. destruct known as [t0|].
  - intros [= <-]. now apply Hk.
  - destruct (ValueType_getitem (upper tok)) as [t1|]; [|discriminate].
    destruct (is_array_type t1) eqn:A; [discriminate|]. now intros [= <-].
Qed.

(** ** One entity type: metadata and values *)

Lemma et_meta_None T f :
  et_meta T f = None <-> Dict.get (features_metadata T) f = None.
Proof.
  unfold et_meta. destruct (Dict.get (features_metadata T) f); simpl; split;
    congruence.
Qed.

Lemma et_meta_default f : et_meta EntityType_default f = None.
Proof. reflexivity. Qed.

Lemma et_value_default e f : et_value EntityType_default e f = None.
Proof. reflexivity. Qed.

Lemma set_feature_metadata_known f tok T t :
  et_meta T f = Some t -> _set_feature_metadata f tok T = (true, T, []).
Proof.
  unfold _set_feature_metadata, et_meta, Dict.contains.
  destruct (Dict.get (features_metadata T) f); simpl; [auto|discriminate].
Qed.

Lemma set_feature_metadata_rejected f tok T :
  et_meta T f = None -> inferred_type None tok = None ->
  _set_feature_metadata f tok T = (false, T, metadata_warnings None tok).
Proof.
  intros Hm Hi. apply et_meta_None in Hm.
  unfold _set_feature_metadata, Dict.contains. rewrite Hm. simpl.
  simpl in Hi. destruct (ValueType_getitem (upper tok)) as [t|]; auto.
  destruct (is_array_type t); [auto|discriminate].
Qed.

Lemma set_feature_metadata_new f tok T t :
  et_meta T f = None -> inferred_type None tok = Some t ->
  _set_feature_metadata f tok T =
  (true,
   {| features_metadata := Dict.set (features_metadata T) f {| data_type := t |};
      entities := entities T |},
   []).
Proof.
  intros Hm Hi. apply et_meta_None in Hm.
  unfold _set_feature_metadata, Dict.contains. rewrite Hm. simpl.
  simpl in Hi. destruct (ValueType_getitem (upper tok)) as [t'|]; [|discriminate].
  destruct (is_array_type t'); [discriminate|]. injection Hi as ->.
  unfold Dict.getitem. rewrite Hm.
  pose proof (dict_set_getitem FeatureMetadata_default (features_metadata T) f
                {| data_type := t |}) as H.
  unfold Dict.getitem in H. rewrite Hm in H. simpl in H. now rewrite H.
Qed.

Lemma set_feature_value_eq T e f v :
  set_feature_value T e f v =
  {| features_metadata := features_metadata T;
     entities :=
       Dict.set (entities T) e
         {| features :=
              Dict.set
                (features (fst (Dict.getitem Entity_default (entities T) e)))
                f {| value := v |} |} |}.
Proof.
  unfold set_feature_value.
  destruct (Dict.getitem Entity_default (entities T) e) as [E ents] eqn:G1.
  destruct (Dict.getitem Feature_default (features E) f) as [F feats] eqn:G2.
  f_equal.
  replace ents with (snd (Dict.getitem Entity_default (entities T) e))
    by now rewrite G1.
  rewrite dict_set_getitem. simpl. f_equal. f_equal.
  replace feats with (snd (Dict.getitem Feature_default (features E) f))
    by now rewrite G2.
  now rewrite dict_set_getitem.
Qed.

Lemma et_meta_set_feature_value T e f v f' :
  et_meta (set_feature_value T e f v) f' = et_meta T f'.
Proof. now rewrite set_feature_value_eq. Qed.

Lemma et_value_set_feature_value T e f v e' f' :
  et_value (set_feature_value T e f v) e' f' =
  if String.eqb e e' && String.eqb f f' then Some v else et_value T e' f'.
Proof.
  rewrite set_feature_value_eq. unfold et_value. simpl.
  rewrite dict_get_set. destruct (String.eqb e e') eqn:Ee; simpl; auto.
  apply String.eqb_eq in Ee. subst e'.
  rewrite dict_get_set. destruct (String.eqb f f') eqn:Ef; simpl; auto.
  unfold Dict.getitem. destruct (Dict.get (entities T) e); simpl; auto.
Qed.

Lemma stored_entity_type_meta T e f tok v f' :
  et_meta (stored_entity_type T e f tok v) f' =
  if String.eqb f f' then inferred_type (et_meta T f) tok else et_meta T f'.
Proof.
  unfold stored_entity_type.
  destruct (et_meta T f) as [t|] eqn:Hm.
  - rewrite (set_feature_metadata_known _ tok _ Hm).
    rewrite et_meta_set_feature_value. simpl.
    destruct (String.eqb f f') eqn:E; auto.
    apply String.eqb_eq in E. now subst.
  - destruct (inferred_type None tok) as [t|] eqn:Hi.
    + rewrite (set_feature_metadata_new _ _ _ Hm Hi).
      rewrite et_meta_set_feature_value. unfold et_meta at 1. simpl.
      rewrite dict_get_set. destruct (String.eqb f f'); auto.
    + rewrite (set_feature_metadata_rejected _ _ _ Hm Hi).
      destruct (String.eqb f f') eqn:E; auto.
      apply String.eqb_eq in E. now subst.
Qed.

Lemma stored_entity_type_value T e f tok v e' f' :
  et_value (stored_entity_type T e f tok v) e' f' =
  match inferred_type (et_meta T f) tok with
  | Some _ =>
      if String.eqb e e' && String.eqb f f' then Some v else et_value T e' f'
  | None => et_value T e' f'
  end.
Proof.
  unfold stored_entity_type.
  destruct (et_meta T f) as [t|] eqn:Hm.
  - rewrite (set_feature_metadata_known _ tok _ Hm). simpl.
    apply et_value_set_feature_value.
  - destruct (inferred_type None tok) as [t|] eqn:Hi.
    + rewrite (set_feature_metadata_new _ _ _ Hm Hi).
      rewrite et_value_set_feature_value. reflexivity.
    + now rewrite (set_feature_metadata_rejected _ _ _ Hm Hi).
Qed.

Lemma stored_entity_type_rejected T e f tok v :
  inferred_type (et_meta T f) tok = None -> stored_entity_type T e f tok v = T.
Proof.
  unfold stored_entity_type. destruct (et_meta T f) eqn:Hm; [discriminate|].
  intros Hi. now rewrite (set_feature_metadata_rejected _ _ _ Hm Hi).
Qed.

Lemma set_feature_metadata_warnings f tok T :
  snd (_set_feature_metadata f tok T) = metadata_warnings (et_meta T f) tok.
Proof.
  destruct (et_meta T f) as [t|] eqn:Hm.
  - now rewrite (set_feature_metadata_known _ tok _ Hm).
  - destruct (inferred_type None tok) as [t|] eqn:Hi.
    + rewrite (set_feature_metadata_new _ _ _ Hm Hi). simpl.
      simpl in Hi. destruct (ValueType_getitem (upper tok)); [|discriminate].
      now destruct (is_array_type v).
    + now rewrite (set_feature_metadata_rejected _ _ _ Hm Hi).
Qed.

(** ** One line of the flat file *)

Section ImporterFacts.
Variable uuid4 : nat -> string.

Lemma target_entity_type_meta m k et f :
  et_meta (target_entity_type m k et) f = metadata_of m k et f.
Proof.
  unfold target_entity_type, metadata_of, find_entity_type, Dict.getitem.
  destruct (Dict.get m k) as [FS|]; simpl.
  - destruct (Dict.get (entity_types FS) et); reflexivity.
  - reflexivity.
Qed.

Lemma target_entity_type_value m k et e f :
  et_value (target_entity_type m k et) e f = value_of m k et e f.
Proof.
  unfold target_entity_type, value_of, find_entity_type, Dict.getitem.
  destruct (Dict.get m k) as [FS|]; simpl.
  - destruct (Dict.get (entity_types FS) et); reflexivity.
  - reflexivity.
Qed.

Lemma map_featurestore_eq st fs :
  _map_featurestore uuid4 st fs =
  let k := mapped_id uuid4 st fs in
  let present := Dict.contains (featurestore_id_map st) fs in
  let r := Dict.getitem Featurestore_default (featurestores st) k in
  (k, fst r,
   {| featurestores := snd r;
      featurestore_id_map :=
        if present then featurestore_id_map st
        else Dict.set (featurestore_id_map st) fs k;
      uuid_calls := if present then uuid_calls st else S (uuid_calls st);
      warnings := warnings st |}).
Proof.
  unfold _map_featurestore, mapped_id, Dict.contains.
  destruct (Dict.get (featurestore_id_map st) fs) as [i|] eqn:G; simpl.
  - rewrite G.
    now destruct (Dict.getitem Featurestore_default (featurestores st) i).
  - rewrite dict_get_set_same.
    match goal with
    | |- context [Dict.getitem ?a ?b ?c] => now destruct (Dict.getitem a b c)
    end.
Qed.

Lemma store_values_eq st fs et e f tok v :
  _store_values uuid4 st fs et e f tok v =
  let k := mapped_id uuid4 st fs in
  let present := Dict.contains (featurestore_id_map st) fs in
  let FS0 := fst (Dict.getitem Featurestore_default (featurestores st) k) in
  let T0 := target_entity_type (featurestores st) k et in
  {| featurestores :=
       Dict.set (featurestores st) k
         {| entity_types :=
              Dict.set (entity_types FS0) et (stored_entity_type T0 e f tok v) |};
     featurestore_id_map :=
       if present then featurestore_id_map st
       else Dict.set (featurestore_id_map st) fs k;
     uuid_calls := if present then uuid_calls st else S (uuid_calls st);
     warnings := warnings st ++ metadata_warnings (et_meta T0 f) tok |}.
Proof.
  unfold _store_values. rewrite map_featurestore_eq. cbv zeta.
  set (k := mapped_id uuid4 st fs).
  unfold target_entity_type.
  set (FS0 := fst (Dict.getitem Featurestore_default (featurestores st) k)).
  destruct (Dict.getitem EntityType_default (entity_types FS0) et)
    as [T ets] eqn:G2. simpl fst.
  pose proof (set_feature_metadata_warnings f tok T) as Hw.
  unfold stored_entity_type.
  destruct (_set_feature_metadata f tok T) as [[ok T1] logged]. simpl in Hw.
  subst logged. cbn [featurestores featurestore_id_map uuid_calls warnings].
  rewrite dict_set_getitem. f_equal. f_equal. f_equal.
  replace ets with (snd (Dict.getitem EntityType_default (entity_types FS0) et))
    by now rewrite G2.
  now rewrite dict_set_getitem.
Qed.

Lemma find_entity_type_set (m : Model) k et T k' et' :
  find_entity_type
    (Dict.set m k
       {| entity_types :=
            Dict.set (entity_types (fst (Dict.getitem Featurestore_default m k)))
              et T |}) k' et' =
  if String.eqb k k' && String.eqb et et' then Some T
  else find_entity_type m k' et'.
Proof.
  unfold find_entity_type. rewrite dict_get_set.
  destruct (String.eqb k k') eqn:Ek; simpl; auto.
  apply String.eqb_eq in Ek. subst k'.
  rewrite dict_get_set. destruct (String.eqb et et'); auto.
  unfold Dict.getitem. destruct (Dict.get m k); reflexivity.
Qed.

Lemma metadata_of_store_values st fs et e f tok v k' et' f' :
  metadata_of (featurestores (_store_values uuid4 st fs et e f tok v)) k' et' f' =
  if String.eqb (mapped_id uuid4 st fs) k' && String.eqb et et' && String.eqb f f'
  then inferred_type
         (metadata_of (featurestores st) (mapped_id uuid4 st fs) et f) tok
  else metadata_of (featurestores st) k' et' f'.
Proof.
  rewrite store_values_eq. cbn [featurestores]. cbv zeta.
  unfold metadata_of at 1. rewrite find_entity_type_set.
  destruct (String.eqb (mapped_id uuid4 st fs) k') eqn:Ek; simpl; auto.
  destruct (String.eqb et et') eqn:Eet; simpl; auto.
  apply String.eqb_eq in Ek, Eet. subst k' et'.
  rewrite stored_entity_type_meta, !target_entity_type_meta.
  reflexivity.
Qed.

Lemma value_of_store_values st fs et e f tok v k' et' e' f' :
  value_of (featurestores (_store_values uuid4 st fs et e f tok v)) k' et' e' f' =
  match inferred_type
          (metadata_of (featurestores st) (mapped_id uuid4 st fs) et f) tok with
  | Some _ =>
      if String.eqb (mapped_id uuid4 st fs) k' && String.eqb et et'
         && String.eqb e e' && String.eqb f f'
      then Some v
      else value_of (featurestores st) k' et' e' f'
  | None => value_of (featurestores st) k' et' e' f'
  end.
Proof.
  rewrite store_values_eq. cbn [featurestores]. cbv zeta.
  unfold value_of at 1. rewrite find_entity_type_set.
  destruct (String.eqb (mapped_id uuid4 st fs) k') eqn:Ek; simpl.
  - destruct (String.eqb et et') eqn:Eet; simpl.
    + apply String.eqb_eq in Ek, Eet. subst k' et'.
      rewrite stored_entity_type_value, target_entity_type_meta,
        target_entity_type_value.
      reflexivity.
    + now destruct (inferred_type _ tok).
  - now destruct (inferred_type _ tok).
Qed.

Lemma id_map_store_values st fs et e f tok v fs' :
  Dict.get (featurestore_id_map (_store_values uuid4 st fs et e f tok v)) fs' =
  if String.eqb fs fs' then Some (mapped_id uuid4 st fs)
  else Dict.get (featurestore_id_map st) fs'.
Proof.
  rewrite store_values_eq. cbn [featurestore_id_map]. cbv zeta.
  unfold Dict.contains, mapped_id.
  destruct (Dict.get (featurestore_id_map st) fs) as [i|] eqn:G.
  - destruct (String.eqb fs fs') eqn:E; auto.
    apply String.eqb_eq in E. now subst.
  - apply dict_get_set.
Qed.

Lemma parse_values_wellformed (row : Row) :
  length row = 12 ->
  _parse_values row =
  (true, nth 1 row "", nth 3 row "", nth 5 row "", nth 7 row "",
   nth 9 row "", nth 11 row "").
Proof. intros H. unfold _parse_values. now rewrite H. Qed.

Lemma parse_values_malformed (row : Row) :
  length row <> 12 -> _parse_values row = (false, "", "", "", "", "", "").
Proof.
  intros H. unfold _parse_values.
  destruct (Nat.eqb (length row) 12) eqn:E; auto.
  apply Nat.eqb_eq in E. contradiction.
Qed.

Lemma parse_row_wellformed st (row : Row) :
  length row = 12 ->
  parse_row uuid4 st row =
  _store_values uuid4 st (nth 1 row "") (nth 3 row "") (nth 5 row "")
    (nth 7 row "") (nth 9 row "") (nth 11 row "").
Proof. intros H. unfold parse_row. now rewrite parse_values_wellformed. Qed.

Lemma parse_row_malformed st (row : Row) :
  length row <> 12 ->
  parse_row uuid4 st row =
  {| featurestores := featurestores st;
     featurestore_id_map := featurestore_id_map st;
     uuid_calls := uuid_calls st;
     warnings := warnings st ++ ["Failed to parse line: " +++ join_slash row] |}.
Proof. intros H. unfold parse_row. now rewrite parse_values_malformed. Qed.

Lemma parse_rows_app st rows1 rows2 :
  parse_rows uuid4 st (rows1 ++ rows2) =
  parse_rows uuid4 (parse_rows uuid4 st rows1) rows2.
Proof. unfold parse_rows. apply fold_left_app. Qed.


(** *** What later lines cannot undo *)

Lemma id_map_parse_row st row fs k :
  Dict.get (featurestore_id_map st) fs = Some k ->
  Dict.get (featurestore_id_map (parse_row uuid4 st row)) fs = Some k.
Proof.
  intros H. destruct (Nat.eq_dec (length row) 12) as [L|L].
  - rewrite (parse_row_wellformed _ _ L), id_map_store_values.
    destruct (String.eqb (nth 1 row "") fs) eqn:E; auto.
    apply String.eqb_eq in E. unfold mapped_id. now rewrite E, H.
  - now rewrite (parse_row_malformed _ _ L).
Qed.

Lemma id_map_parse_rows rows st fs k :
  Dict.get (featurestore_id_map st) fs = Some k ->
  Dict.get (featurestore_id_map (parse_rows uuid4 st rows)) fs = Some k.
Proof.
  revert st. induction rows as [|row rows IH]; intros st H; simpl; auto.
  apply IH. now apply id_map_parse_row.
Qed.

Lemma metadata_of_parse_row st row k et f t :
  metadata_of (featurestores st) k et f = Some t ->
  metadata_of (featurestores (parse_row uuid4 st row)) k et f = Some t.
Proof.
  intros H. destruct (Nat.eq_dec (length row) 12) as [L|L].
  - rewrite (parse_row_wellformed _ _ L), metadata_of_store_values.
    destruct (String.eqb (mapped_id uuid4 st (nth 1 row "")) k) eqn:Ek; auto.
    destruct (String.eqb (nth 3 row "") et) eqn:Eet; auto.
    destruct (String.eqb (nth 7 row "") f) eqn:Ef; auto.
    apply String.eqb_eq in Ek, Eet, Ef. simpl. rewrite Ek, Eet, Ef, H.
    reflexivity.
  - now rewrite (parse_row_malformed _ _ L).
Qed.

Lemma metadata_of_parse_rows rows st k et f t :
  metadata_of (featurestores st) k et f = Some t ->
  metadata_of (featurestores (parse_rows uuid4 st rows)) k et f = Some t.
Proof.
  revert st. induction rows as [|row rows IH]; intros st H; simpl; auto.
  apply IH. now apply metadata_of_parse_row.
Qed.

(** The parser's data does not depend on the warnings logged so far, and
    the warnings only grow. *)
Lemma parse_row_with_warnings st ws row :
  exists logged,
    parse_row uuid4 st row =
      with_warnings (parse_row uuid4 st row) (warnings st ++ logged) /\
    parse_row uuid4 (with_warnings st ws) row =
      with_warnings (parse_row uuid4 st row) (ws ++ logged).
Proof.
  destruct (Nat.eq_dec (length row) 12) as [L|L].
  - rewrite !(parse_row_wellformed _ _ L), !store_values_eq. cbv zeta.
    eexists. split; reflexivity.
  - rewrite !(parse_row_malformed _ _ L). eexists. split; reflexivity.
Qed.

Lemma parse_rows_with_warnings rows st ws :
  exists logged,
    parse_rows uuid4 st rows =
      with_warnings (parse_rows uuid4 st rows) (warnings st ++ logged) /\
    parse_rows uuid4 (with_warnings st ws) rows =
      with_warnings (parse_rows uuid4 st rows) (ws ++ logged).
Proof.
  revert st ws. induction rows as [|row rows IH]; intros st ws.
  - exists []. simpl. rewrite !app_nil_r. split; [now destruct st | reflexivity].
  - simpl. destruct (parse_row_with_warnings st ws row) as [l1 [H1 H2]].
    rewrite H2.
    destruct (IH (parse_row uuid4 st row) (ws ++ l1)) as [l2 [H3 H4]].
    exists (l1 ++ l2). rewrite H4. split.
    + rewrite H3 at 1. rewrite H1 at 2. simpl. now rewrite app_assoc.
    + now rewrite app_assoc.
Qed.

End ImporterFacts.

(** ** The importer's line parser *)

(** C10: a row of exactly twelve tokens is accepted and only the tokens at
    positions 1, 3, 5, 7, 9 and 11 are read: replacing the tokens at the even
    positions, where the format puts its fixed labels, by any strings changes
    neither what [_parse_values] returns nor the state the parser reaches. *)
Theorem C10_labels_not_validated :
  forall (uuid4 : nat -> string) (st : ImportState)
         (l0 l2 l4 l6 l8 l10 m0 m2 m4 m6 m8 m10 : string)
         (featurestore_id entity_type_id entity_id feature_id
          feature_data_type feature_value : string),
    let row := [l0; featurestore_id; l2; entity_type_id; l4; entity_id;
                l6; feature_id; l8; feature_data_type; l10; feature_value] in
    let row' := [m0; featurestore_id; m2; entity_type_id; m4; entity_id;
                 m6; feature_id; m8; feature_data_type; m10; feature_value] in
    _parse_values row =
      (true, featurestore_id, entity_type_id, entity_id, feature_id,
       feature_data_type, feature_value) /\
    _parse_values row' = _parse_values row /\
    parse_row uuid4 st row' = parse_row uuid4 st row.
Proof.
  intros. repeat split.
Qed.

(** C4: a row whose token count is not twelve is skipped: the file with
    the row and the file without it lead to the same featurestores, the same
    identifier map and the same number of UUIDs drawn, and the row adds
    exactly one warning, logged where the row stands; the rows after it are
    parsed as if it were absent. *)
Theorem C4_malformed_row_skipped :
  forall (uuid4 : nat -> string) (st : ImportState)
         (before after : list Row) (row : Row),
    length row <> 12 ->
    let reached := parse_rows uuid4 st before in
    let with_row := parse_rows uuid4 st (before ++ row :: after) in
    let without := parse_rows uuid4 st (before ++ after) in
    parse_row uuid4 reached row =
      with_warnings reached
        (warnings reached ++ ["Failed to parse line: " +++ join_slash row]) /\
    featurestores with_row = featurestores without /\
    featurestore_id_map with_row = featurestore_id_map without /\
    uuid_calls with_row = uuid_calls without /\
    exists logged_after,
      warnings with_row =
        warnings reached ++ ["Failed to parse line: " +++ join_slash row]
          ++ logged_after /\
      warnings without = warnings reached ++ logged_after.
Proof.
  intros uuid4 st before after row L reached with_row without.
  assert (Hrow : parse_row uuid4 reached row =
                 with_warnings reached
                   (warnings reached ++ ["Failed to parse line: " +++ join_slash row]))
    by (rewrite parse_row_malformed by exact L; reflexivity).
  split; [exact Hrow|].
  subst with_row without. rewrite !parse_rows_app. fold reached.
  simpl. rewrite Hrow.
  destruct (parse_rows_with_warnings uuid4 after reached
              (warnings reached ++ ["Failed to parse line: " +++ join_slash row]))
    as [logged [H1 H2]].
  rewrite H2. simpl. repeat split.
  exists logged. split.
  - now rewrite <- app_assoc.
  - rewrite H1 at 1. reflexivity.
Qed.

(** C5: a twelve-token line for a feature with no recorded metadata whose
    data-type token is ASCII text and, case-normalized, names an array type,
    or names no type at all, records nothing: all metadata and all values of
    the model are unchanged, the entity type addressed by the line is as it
    was (a new, empty one if it did not exist), and one warning is logged.
    The token is taken within ASCII, where [upper] is [str.upper]. *)
Theorem C5_array_or_unknown_type_rejected :
  forall (uuid4 : nat -> string) (st : ImportState) (row : Row),
    length row = 12 ->
    let featurestore_id := nth 1 row "" in
    let entity_type_id := nth 3 row "" in
    let feature_id := nth 7 row "" in
    let feature_data_type := nth 9 row "" in
    let k := mapped_id uuid4 st featurestore_id in
    let st' := parse_row uuid4 st row in
    is_ascii feature_data_type = true ->
    metadata_of (featurestores st) k entity_type_id feature_id = None ->
    In (upper feature_data_type)
       ["BOOL_ARRAY"; "DOUBLE_ARRAY"; "INT64_ARRAY"; "STRING_ARRAY"] \/
    ValueType_getitem (upper feature_data_type) = None ->
    metadata_of (featurestores st') k entity_type_id feature_id = None /\
    (forall k' et' f',
        metadata_of (featurestores st') k' et' f' =
        metadata_of (featurestores st) k' et' f') /\
    (forall k' et' e' f',
        value_of (featurestores st') k' et' e' f' =
        value_of (featurestores st) k' et' e' f') /\
    find_entity_type (featurestores st') k entity_type_id =
      Some (target_entity_type (featurestores st) k entity_type_id) /\
    warnings st' =
      warnings st ++
      [match ValueType_getitem (upper feature_data_type) with
       | Some _ => "Uploading array value types not currently supported."
       | None => "Unknown datatype: " +++ upper feature_data_type
       end].
Proof.
  intros uuid4 st row L fs et f tok k st' _ Hnone Htok.
  assert (Hinf : inferred_type None tok = None).
  { unfold inferred_type. destruct Htok as [Hin | Hun].
    - simpl in Hin.
      destruct Hin as [H|[H|[H|[H|[]]]]]; rewrite <- H; reflexivity.
    - now rewrite Hun. }
  assert (Hmeta : forall k' et' f',
             metadata_of (featurestores st') k' et' f' =
             metadata_of (featurestores st) k' et' f').
  { intros k' et' f'. subst st'.
    rewrite parse_row_wellformed by exact L.
    rewrite metadata_of_store_values. fold fs et f tok k.
    destruct (String.eqb k k' && String.eqb et et' && String.eqb f f') eqn:E; auto.
    apply andb_true_iff in E. destruct E as [E Ef].
    apply andb_true_iff in E. destruct E as [Ek Eet].
    apply String.eqb_eq in Ek, Eet, Ef. subst k' et' f'.
    now rewrite Hnone, Hinf. }
  split; [now rewrite Hmeta|].
  split; [exact Hmeta|].
  split.
  { intros k' et' e' f'. subst st'.
    rewrite parse_row_wellformed by exact L.
    rewrite value_of_store_values. fold fs et f tok k.
    now rewrite Hnone, Hinf. }
  subst st'. rewrite parse_row_wellformed by exact L.
  rewrite store_values_eq. cbv zeta. cbn [featurestores warnings].
  fold fs et f tok k. split.
  - rewrite find_entity_type_set, !String.eqb_refl. simpl.
    rewrite stored_entity_type_rejected; auto.
    now rewrite target_entity_type_meta, Hnone.
  - rewrite target_entity_type_meta, Hnone. f_equal.
    unfold metadata_warnings. unfold inferred_type in Hinf.
    destruct (ValueType_getitem (upper tok)) as [t|]; auto.
    destruct (is_array_type t); [reflexivity|discriminate].
Qed.

(** C6: a twelve-token line whose data-type token is empty succeeds when
    the feature already has recorded metadata (the value is stored, no
    metadata changes, nothing is logged) and is dropped when it has none (no
    metadata and no value are recorded, and one warning is logged). *)
Theorem C6_empty_data_type_token :
  forall (uuid4 : nat -> string) (st : ImportState) (row : Row),
    length row = 12 ->
    nth 9 row "" = "" ->
    let featurestore_id := nth 1 row "" in
    let entity_type_id := nth 3 row "" in
    let entity_id := nth 5 row "" in
    let feature_id := nth 7 row "" in
    let feature_value := nth 11 row "" in
    let k := mapped_id uuid4 st featurestore_id in
    let st' := parse_row uuid4 st row in
    (forall k' et' f',
        metadata_of (featurestores st') k' et' f' =
        metadata_of (featurestores st) k' et' f') /\
    match metadata_of (featurestores st) k entity_type_id feature_id with
    | Some _ =>
        value_of (featurestores st') k entity_type_id entity_id feature_id =
          Some feature_value /\
        warnings st' = warnings st
    | None =>
        (forall k' et' e' f',
            value_of (featurestores st') k' et' e' f' =
            value_of (featurestores st) k' et' e' f') /\
        warnings st' = warnings st ++ ["Unknown datatype: "]
    end.
Proof.
  intros uuid4 st row L Hempty fs et e f v k st'.
  subst st'. rewrite parse_row_wellformed by exact L.
  rewrite Hempty. fold fs et e f v.
  split.
  - intros k' et' f'. rewrite metadata_of_store_values. fold k.
    destruct (String.eqb k k' && String.eqb et et' && String.eqb f f') eqn:E; auto.
    apply andb_true_iff in E. destruct E as [E Ef].
    apply andb_true_iff in E. destruct E as [Ek Eet].
    apply String.eqb_eq in Ek, Eet, Ef. subst k' et' f'.
    now destruct (metadata_of (featurestores st) k et f).
  - destruct (metadata_of (featurestores st) k et f) as [t|] eqn:Hm.
    + split.
      * rewrite value_of_store_values. fold k. rewrite Hm. simpl.
        now rewrite !String.eqb_refl.
      * rewrite store_values_eq. cbv zeta. cbn [warnings]. fold k.
        rewrite target_entity_type_meta, Hm. simpl. apply app_nil_r.
    + split.
      * intros k' et' e' f'. rewrite value_of_store_values. fold k.
        now rewrite Hm.
      * rewrite store_values_eq. cbv zeta. cbn [warnings]. fold k.
        now rewrite target_entity_type_meta, Hm.
Qed.

(** C3: once a line records the value type of a feature (the
    case-normalized type of its token, the feature having had no metadata),
    that type stays: a later line for the same feature, whatever its
    data-type token and whatever lines stand in between or follow, leaves the
    metadata as it is, and the later line's value is stored for its entity. *)
Theorem C3_type_first_write_wins_value_last_write_wins :
  forall (uuid4 : nat -> string) (st : ImportState)
         (first_row : Row) (between : list Row) (later_row : Row)
         (rest : list Row) (t : ValueType),
    length first_row = 12 ->
    length later_row = 12 ->
    nth 1 later_row "" = nth 1 first_row "" ->
    nth 3 later_row "" = nth 3 first_row "" ->
    nth 7 later_row "" = nth 7 first_row "" ->
    let entity_type_id := nth 3 first_row "" in
    let feature_id := nth 7 first_row "" in
    let k := mapped_id uuid4 st (nth 1 first_row "") in
    metadata_of (featurestores st) k entity_type_id feature_id = None ->
    ValueType_getitem (upper (nth 9 first_row "")) = Some t ->
    is_array_type t = false ->
    let st1 := parse_row uuid4 st first_row in
    let st2 := parse_rows uuid4 st1 between in
    let st3 := parse_row uuid4 st2 later_row in
    let st4 := parse_rows uuid4 st3 rest in
    metadata_of (featurestores st1) k entity_type_id feature_id = Some t /\
    value_of (featurestores st1) k entity_type_id (nth 5 first_row "") feature_id
      = Some (nth 11 first_row "") /\
    metadata_of (featurestores st2) k entity_type_id feature_id = Some t /\
    metadata_of (featurestores st3) k entity_type_id feature_id = Some t /\
    value_of (featurestores st3) k entity_type_id (nth 5 later_row "") feature_id
      = Some (nth 11 later_row "") /\
    metadata_of (featurestores st4) k entity_type_id feature_id = Some t.
Proof.
  intros uuid4 st r1 between r2 rest t L1 L2 Efs Eet Ef et f k Hnone Htok Harr
         st1 st2 st3 st4.
  assert (Hinf : inferred_type None (nth 9 r1 "") = Some t).
  { unfold inferred_type. now rewrite Htok, Harr. }
  assert (M1 : metadata_of (featurestores st1) k et f = Some t).
  { subst st1. rewrite parse_row_wellformed by exact L1.
    rewrite metadata_of_store_values. fold k et f.
    now rewrite !String.eqb_refl, Hnone. }
  assert (M2 : metadata_of (featurestores st2) k et f = Some t)
    by now apply metadata_of_parse_rows.
  assert (M3 : metadata_of (featurestores st3) k et f = Some t)
    by now apply metadata_of_parse_row.
  assert (K2 : mapped_id uuid4 st2 (nth 1 r1 "") = k).
  { unfold mapped_id at 1. unfold st2.
    rewrite (@id_map_parse_rows uuid4 between st1 (nth 1 r1 "") k); auto.
    unfold st1. rewrite parse_row_wellformed by exact L1.
    now rewrite id_map_store_values, String.eqb_refl. }
  repeat split; auto.
  - subst st1. rewrite parse_row_wellformed by exact L1.
    rewrite value_of_store_values. fold k et f.
    now rewrite Hnone, Hinf, !String.eqb_refl.
  - subst st3. rewrite parse_row_wellformed by exact L2.
    rewrite value_of_store_values. rewrite Efs, Eet, Ef, K2. fold et f.
    now rewrite M2, !String.eqb_refl.
  - now apply metadata_of_parse_rows.
Qed.

(** ** Identifier remapping *)





(** ** A run on a file without well-formed lines *)

Lemma parse_rows_all_malformed uuid4 rows st :
  Forall (fun row : Row => length row <> 12) rows ->
  parse_rows uuid4 st rows =
  with_warnings st
    (warnings st ++
     map (fun row => "Failed to parse line: " +++ join_slash row) rows).
Proof.
  intros H. revert st. induction H as [|row rows L _ IH]; intros st; simpl.
  - rewrite app_nil_r. now destruct st.
  - rewrite parse_row_malformed by exact L. rewrite IH.
    unfold with_warnings. simpl. now rewrite <- app_assoc.
Qed.

(** C7: when the file is empty or every row of it has a token count other
    than twelve, [execute] returns normally, makes no call on any external
    service (the trace is unchanged: no client is constructed, nothing is
    created or uploaded), draws no UUID, and logs one warning per row. *)
Theorem C7_no_remote_calls_without_wellformed_lines :
  forall (Exn : Type) (uuid4 : nat -> string) (region gcs_path : string)
         (raises : Trace Exn -> Call -> option Exn)
         (rows : list Row) (w : World Exn),
    Forall (fun row : Row => length row <> 12) rows ->
    featurestores (_parse_schema_and_data uuid4 (uuids w) rows) = Dict.empty /\
    execute uuid4 region gcs_path raises rows w =
      (Returned tt, w,
       map (fun row => "Failed to parse line: " +++ join_slash row) rows).
Proof.
  intros Exn uuid4 region gcs_path raises rows w H.
  unfold execute, _parse_schema_and_data.
  rewrite parse_rows_all_malformed by exact H. simpl.
  split; [reflexivity|]. now destruct w.
Qed.

(** ** Guaranteed cleanup of staging objects *)

Section CleanupFacts.
Variable Exn : Type.
Variable uuid4 : nat -> string.
Variable gcs_path : string.
Variable raises : Trace Exn -> Call -> option Exn.
Variable downloaded_rows : Trace Exn -> Blob -> list Row.

Lemma quiet_app (t1 t2 : Trace Exn) : quiet t1 -> quiet t2 -> quiet (t1 ++ t2).
Proof. unfold quiet. intros. apply Forall_app. now split. Qed.

Lemma block_ret A P (a : A) : block P (ret (Exn:=Exn) a).
Proof.
  intros w. exists []. simpl. rewrite app_nil_r.
  repeat split; constructor. constructor.
Qed.

Lemma block_call (P : Call -> Prop) c : P c -> block P (call raises c).
Proof.
  intros Hc w. exists [(c, raises (trace w) c)]. unfold call. simpl.
  repeat split.
  - constructor; auto.
  - destruct (raises (trace w) c) as [x|].
    + apply (block_raises unit (tr:=[])). constructor.
    + constructor. repeat constructor.
Qed.

Lemma block_draw_suffix P : block P (draw_suffix (Exn:=Exn) uuid4).
Proof.
  intros w. exists []. unfold draw_suffix. simpl. rewrite app_nil_r.
  repeat split; constructor. constructor.
Qed.

Lemma block_bind A B P (m : M Exn A) (k : A -> M Exn B) :
  block P m -> (forall a, block P (k a)) -> block P (bind m k).
Proof.
  intros Hm Hk w. unfold bind.
  destruct (Hm w) as [tr1 [E1 [F1 O1]]].
  destruct (m w) as [[a|x] w1]; simpl in *.
  - destruct (Hk a w1) as [tr2 [E2 [F2 O2]]].
    exists (tr1 ++ tr2). rewrite E2, E1, app_assoc. repeat split.
    + apply Forall_app. now split.
    + inversion O1 as [? ? Q1|]; subst.
      inversion O2 as [? ? Q2|tr' c y Q2]; subst.
      * constructor. now apply quiet_app.
      * rewrite app_assoc. constructor. now apply quiet_app.
  - exists tr1. repeat split; auto.
    inversion O1; subst. now constructor.
Qed.

(** The pattern shared by the importer and the exporter: draw a suffix, make
    the blob object, run a body under [try], delete the blob in [finally]. *)
Lemma bracket_one_segment X A (pathf : string -> string) (g : string -> X)
    (body : X * Blob -> M Exn A) :
  (forall fb, block body_call (body fb)) ->
  one_segment
    (bind (bind (draw_suffix uuid4)
             (fun s => bind (new_blob raises (pathf s))
                         (fun blob => ret (g s, blob))))
       (fun fb => try_finally (body fb) (call raises (blob_delete (snd fb))))).
Proof.
  intros Hbody w.
  unfold bind, draw_suffix, new_blob, bind, call, ret, try_finally. simpl.
  set (b := {| blob_serial := length (trace w);
               blob_path := pathf (suffix uuid4 (uuids w)) |}).
  destruct (raises (trace w) (storage_blob b)) as [x|] eqn:Rb; simpl.
  - eexists. split; [reflexivity|]. constructor.
  - set (w2 := {| trace := trace w ++ [(storage_blob b, None)];
                  uuids := S (uuids w) |}).
    destruct (Hbody (g (suffix uuid4 (uuids w)), b) w2) as [tr [E [F O]]].
    destruct (body (g (suffix uuid4 (uuids w)), b) w2) as [rb w3].
    simpl in *.
    exists ((storage_blob b, None) :: tr
              ++ [(blob_delete b, raises (trace w3) (blob_delete b))]).
    split.
    + destruct (raises (trace w3) (blob_delete b)); simpl; rewrite E;
        rewrite <- !app_assoc; reflexivity.
    + pose proof (segment_blob (length (trace w))
                    (pathf (suffix uuid4 (uuids w)))
                    (raises (trace w3) (blob_delete b)) F O) as S.
      fold b in S.
      destruct (raises (trace w3) (blob_delete b)); exact S.
Qed.

Lemma segment_nonempty A n seg (r : outcome Exn A) :
  segment n seg r -> 1 <= length seg.
Proof. intros H. inversion H; simpl; lia. Qed.

Lemma segment_forget A n seg (r : outcome Exn A) :
  segment n seg r -> segment n seg (forget r).
Proof.
  intros H. inversion H as [path x|path body rb d F O]; subst; simpl.
  - constructor.
  - assert (O' : block_outcome body (forget rb)).
    { inversion O; subst; simpl; now constructor. }
    pose proof (segment_blob n path d F O') as S.
    destruct d; simpl in *; exact S.
Qed.

Lemma segment_segments n seg (r : outcome Exn unit) :
  segment n seg r -> segments n seg r.
Proof.
  intros H. destruct r as [[]|x].
  - rewrite <- (app_nil_r seg). apply segments_cons; auto. constructor.
  - now constructor.
Qed.

Lemma segments_app n t1 t2 (r : outcome Exn unit) :
  segments n t1 (Returned tt) ->
  segments (n + length t1) t2 r ->
  segments n (t1 ++ t2) r.
Proof.
  intros H. remember (Returned tt : outcome Exn unit) as r1 eqn:Er.
  revert Er t2 r. induction H as [n|n seg x S|n seg rest r1 S H IH];
    intros Er t2 r H2.
  - now rewrite Nat.add_0_r in H2.
  - discriminate.
  - rewrite <- app_assoc. apply segments_cons; auto.
    apply IH; auto. rewrite length_app, Nat.add_assoc in H2. exact H2.
Qed.

Lemma one_segment_many (m : M Exn unit) : one_segment m -> many_segments m.
Proof.
  intros H w. destruct (H w) as [seg [E S]]. exists seg. split; auto.
  now apply segment_segments.
Qed.

Lemma for_each_many_segments A (f : A -> M Exn unit) l :
  (forall a, many_segments (f a)) -> many_segments (for_each l f).
Proof.
  intros Hf. induction l as [|a l IH]; intros w; simpl.
  - exists []. unfold ret. simpl. rewrite app_nil_r. split; [auto|constructor].
  - unfold bind. destruct (Hf a w) as [t1 [E1 S1]].
    destruct (f a w) as [[[]|x] w1]; simpl in *.
    + destruct (IH w1) as [t2 [E2 S2]]. exists (t1 ++ t2).
      rewrite E2, E1, app_assoc. split; auto.
      apply segments_app; auto.
      rewrite E1, length_app in S2. exact S2.
    + exists t1. split; auto.
Qed.


(** *** From the segment structure to the guarantee *)

Lemma Blob_eqb_refl b : Blob_eqb b b = true.
Proof. unfold Blob_eqb. now rewrite Nat.eqb_refl, String.eqb_refl. Qed.

Lemma Blob_eqb_serial a b : Blob_eqb a b = true -> blob_serial a = blob_serial b.
Proof.
  unfold Blob_eqb. intros H. apply andb_true_iff in H.
  now apply Nat.eqb_eq.
Qed.

Lemma deletions_app b (t1 t2 : Trace Exn) :
  deletions b (t1 ++ t2) = deletions b t1 + deletions b t2.
Proof. unfold deletions. now rewrite filter_app, length_app. Qed.

Lemma deletions_body b (body : Trace Exn) :
  Forall (fun ce => body_call (fst ce)) body -> deletions b body = 0.
Proof.
  unfold deletions. induction 1 as [|[c o] body [Hd _] _ IH]; simpl; auto.
  simpl in Hd. destruct c; simpl in *; try discriminate; auto.
Qed.

Lemma storage_blob_not_in_body b o (body : Trace Exn) :
  Forall (fun ce => body_call (fst ce)) body -> ~ In (storage_blob b, o) body.
Proof.
  intros F H. rewrite Forall_forall in F. apply F in H.
  destruct H as [_ H]. discriminate.
Qed.

Lemma segment_deletions_other A n seg (r : outcome Exn A) b :
  segment n seg r -> blob_serial b <> n -> deletions b seg = 0.
Proof.
  intros S Hne. inversion S as [path x|path body rb d F O]; subst.
  - reflexivity.
  - change (deletions b ([(storage_blob {| blob_serial := n; blob_path := path |}, None)]
                           ++ body ++ [(blob_delete {| blob_serial := n; blob_path := path |}, d)]) = 0).
    rewrite !deletions_app, (deletions_body b F). unfold deletions. simpl.
    destruct (Blob_eqb b {| blob_serial := n; blob_path := path |}) eqn:E; auto.
    apply Blob_eqb_serial in E. simpl in E. contradiction.
Qed.

Lemma segment_created A n seg (r : outcome Exn A) b o :
  segment n seg r -> In (storage_blob b, o) seg -> blob_serial b = n.
Proof.
  intros S Hin. inversion S as [path x|path body rb d F O]; subst.
  - destruct Hin as [H|[]]. now injection H as <- _.
  - destruct Hin as [H|Hin]; [now injection H as <- _|].
    apply in_app_or in Hin. destruct Hin as [Hin|[H|[]]].
    + now apply storage_blob_not_in_body in Hin.
    + discriminate.
Qed.

Lemma segment_deleted_once A n seg (r : outcome Exn A) b :
  segment n seg r -> In (storage_blob b, None) seg -> deletions b seg = 1.
Proof.
  intros S Hin. inversion S as [path x|path body rb d F O]; subst.
  - destruct Hin as [H|[]]. discriminate.
  - assert (b = {| blob_serial := n; blob_path := path |}) as ->.
    { destruct Hin as [H|Hin]; [now injection H|].
      apply in_app_or in Hin. destruct Hin as [Hin|[H|[]]].
      - now apply storage_blob_not_in_body in Hin.
      - discriminate. }
    change (deletions {| blob_serial := n; blob_path := path |}
              ([(storage_blob {| blob_serial := n; blob_path := path |}, None)]
                 ++ body ++ [(blob_delete {| blob_serial := n; blob_path := path |}, d)]) = 1).
    rewrite !deletions_app, (deletions_body _ F). unfold deletions. simpl.
    now rewrite Blob_eqb_refl.
Qed.

Lemma segments_deletions_earlier n (tr : Trace Exn) r b :
  segments n tr r -> blob_serial b < n -> deletions b tr = 0.
Proof.
  induction 1 as [n|n seg x S|n seg rest r S H IH]; intros Hlt.
  - reflexivity.
  - apply (@segment_deletions_other _ _ _ _ b S). lia.
  - rewrite deletions_app, (@segment_deletions_other _ _ _ _ b S) by lia.
    rewrite IH; lia.
Qed.

Lemma segments_created_later n (tr : Trace Exn) r b o :
  segments n tr r -> In (storage_blob b, o) tr -> n <= blob_serial b.
Proof.
  induction 1 as [n|n seg x S|n seg rest r S H IH]; intros Hin.
  - destruct Hin.
  - rewrite (@segment_created _ _ _ _ _ _ S Hin). lia.
  - apply in_app_or in Hin. destruct Hin as [Hin|Hin].
    + rewrite (@segment_created _ _ _ _ _ _ S Hin). lia.
    + apply IH in Hin. lia.
Qed.

Lemma segments_deleted_once n (tr : Trace Exn) r b :
  segments n tr r -> In (storage_blob b, None) tr -> deletions b tr = 1.
Proof.
  induction 1 as [n|n seg x S|n seg rest r S H IH]; intros Hin.
  - destruct Hin.
  - now apply (@segment_deleted_once _ _ _ _ _ S).
  - pose proof (@segment_nonempty _ _ _ _ S) as Hlen.
    rewrite deletions_app. apply in_app_or in Hin. destruct Hin as [Hin|Hin].
    + rewrite (@segment_deleted_once _ _ _ _ _ S Hin).
      rewrite (@segments_deletions_earlier _ _ _ b H); auto.
      rewrite (@segment_created _ _ _ _ _ _ S Hin). lia.
    + pose proof (@segments_created_later _ _ _ _ _ H Hin) as Hge.
      rewrite (@segment_deletions_other _ _ _ _ b S) by lia. now rewrite IH.
Qed.

Lemma segment_quiet n seg :
  segment n seg (Returned tt : outcome Exn unit) -> quiet seg.
Proof.
  intros S. inversion S as [|path body rb d F O Hs Hr]; subst.
  destruct d; [discriminate|]. subst rb.
  inversion O; subst. constructor; auto.
  apply quiet_app; auto. repeat constructor.
Qed.

Lemma segments_quiet n (tr : Trace Exn) r : segments n tr r -> r = Returned tt -> quiet tr.
Proof.
  induction 1 as [n|n seg x S|n seg rest r S H IH]; intros Er.
  - constructor.
  - discriminate.
  - apply quiet_app; auto. now apply segment_quiet in S.
Qed.

(** Where a raising entry can stand in a list cut in two. *)
Lemma raising_entry_after_quiet (q rest pre post : Trace Exn) c x :
  quiet q ->
  q ++ rest = pre ++ (c, Some x) :: post ->
  exists pre', pre = q ++ pre' /\ rest = pre' ++ (c, Some x) :: post.
Proof.
  intros Q. revert pre. induction Q as [|[c0 o0] q H0 Q IH]; intros pre E.
  - now exists pre.
  - simpl in H0. subst o0. destruct pre as [|e pre]; simpl in E.
    + discriminate.
    + injection E as <- E. destruct (IH _ E) as [pre' [-> ->]].
      now exists pre'.
Qed.

Lemma segment_propagates A n seg (r : outcome Exn A) pre c x post :
  segment n seg r ->
  seg = pre ++ (c, Some x) :: post ->
  body_call c ->
  exists b d,
    post = [(blob_delete b, d)] /\
    In (storage_blob b, None) pre /\
    forget r = Raised (match d with Some y => y | None => x end).
Proof.
  intros S E [Hd Hb].
  inversion S as [path y Hs Hr|path body rb d F O Hs Hr]; clear S.
  - rewrite E in Hs. destruct pre as [|e pre]; simpl in Hs.
    + injection Hs as Hs _. subst c. discriminate.
    + injection Hs as _ Hs. now destruct pre.
  - rewrite E in Hs. clear E Hr.
    set (b := {| blob_serial := n; blob_path := path |}) in *.
    inversion O as [tr a Q Ht Hrb|tr c' x' Q Ht Hrb]; clear O.
    + exfalso. subst tr.
      assert (Q' : quiet ((storage_blob b, None) :: body)) by (constructor; auto).
      change ((storage_blob b, None) :: body ++ [(blob_delete b, d)])
        with (((storage_blob b, None) :: body) ++ [(blob_delete b, d)]) in Hs.
      destruct (@raising_entry_after_quiet _ _ _ _ _ _ Q' Hs) as [pre' [_ E']].
      destruct pre' as [|e pre']; simpl in E'.
      * injection E' as E' _. subst c. discriminate.
      * injection E' as _ E'. now destruct pre'.
    + subst body.
      assert (Q' : quiet ((storage_blob b, None) :: tr)) by (constructor; auto).
      rewrite <- app_assoc in Hs.
      change ((storage_blob b, None) :: tr ++ [(c', Some x')] ++ [(blob_delete b, d)])
        with (((storage_blob b, None) :: tr)
                ++ [(c', Some x'); (blob_delete b, d)]) in Hs.
      destruct (@raising_entry_after_quiet _ _ _ _ _ _ Q' Hs) as [pre' [Hpre E']].
      destruct pre' as [|e pre']; simpl in E'.
      * injection E' as _ Hx Hpost. subst pre x' post.
        exists b, d. repeat split.
        -- rewrite app_nil_r. now left.
        -- now destruct d.
      * injection E' as _ E'. destruct pre' as [|e' pre']; simpl in E'.
        -- injection E' as E' _. subst c. discriminate.
        -- injection E' as _ E'. now destruct pre'.
Qed.

Lemma segments_propagates n (tr : Trace Exn) r pre c x post :
  segments n tr r ->
  tr = pre ++ (c, Some x) :: post ->
  body_call c ->
  exists b d,
    post = [(blob_delete b, d)] /\
    In (storage_blob b, None) pre /\
    r = Raised (match d with Some y => y | None => x end).
Proof.
  intros H. revert pre.
  induction H as [n|n seg y S|n seg rest r S H IH]; intros pre E Hc.
  - now destruct pre.
  - apply (@segment_propagates _ _ _ _ _ _ _ _ S E Hc).
  - pose proof (segment_quiet S) as Q.
    destruct (@raising_entry_after_quiet _ _ _ _ _ _ Q E) as [pre' [-> E']].
    destruct (IH _ E' Hc) as [b [d [Hp [Hin Hr]]]].
    exists b, d. repeat split; auto. apply in_or_app. now right.
Qed.

Lemma segments_cleanup_guarantee n (tr : Trace Exn) r :
  segments n tr r -> cleanup_guarantee tr r.
Proof.
  intros H. repeat split.
  - intros b. now apply (@segments_deleted_once _ _ _ _ H).
  - now apply (@segments_quiet _ _ _ H).
  - intros pre c x post. now apply (@segments_propagates _ _ _ _ _ _ _ H).
Qed.


(** *** The importer's upload step and the exporter's export step *)

Lemma upload_data_file_block entity_type blob :
  block body_call (_upload_data_file uuid4 raises entity_type blob).
Proof.
  unfold _upload_data_file, _write_header.
  apply block_bind.
  - apply block_bind; [apply block_draw_suffix|]. intros s. apply block_ret.
  - intros hc. apply block_bind.
    + apply block_call. now split.
    + intros _. apply block_ret.
Qed.

Lemma upload_entity_type_one_segment featurestore_id item :
  one_segment (upload_entity_type uuid4 gcs_path raises featurestore_id item).
Proof.
  destruct item as [entity_type_id entity_type].
  unfold upload_entity_type, _create_blob_object.
  apply (bracket_one_segment
           (fun s => path_join gcs_path (entity_type_id +++ "_" +++ s +++ ".csv"))
           (fun s => path_join gcs_path (entity_type_id +++ "_" +++ s +++ ".csv"))
           (fun fb =>
              bind (_upload_data_file uuid4 raises entity_type (snd fb))
                (fun entity_id_column_id =>
                   _run_data_ingestion_job raises featurestore_id entity_type_id
                     entity_type (fst fb) entity_id_column_id))).
  intros fb. apply block_bind.
  - apply upload_data_file_block.
  - intros col. unfold _run_data_ingestion_job. apply block_call. now split.
Qed.

Lemma upload_data_many_segments featurestores :
  many_segments (_upload_data uuid4 gcs_path raises featurestores).
Proof.
  unfold _upload_data. apply for_each_many_segments.
  intros [featurestore_id featurestore]. apply for_each_many_segments.
  intros item. apply one_segment_many. apply upload_entity_type_one_segment.
Qed.

Lemma export_entity_and_features_block entity_type_name unique_folder_path blob :
  block body_call
    (_export_entity_and_features raises downloaded_rows entity_type_name
       unique_folder_path blob).
Proof.
  unfold _export_entity_and_features. apply block_bind.
  - apply block_call. now split.
  - intros _ w.
    assert (B : block body_call
                  (bind (call raises (download_as_bytes blob))
                     (fun _ => ret (Exn:=Exn) (downloaded_rows (trace w) blob)))).
    { apply block_bind; [apply block_call; now split|]. intros _. apply block_ret. }
    apply (B w).
Qed.

Lemma export_entity_type_entity_data_one_segment
    entity_type_id entity_type_data entity_type_name :
  one_segment
    (_export_entity_type_entity_data uuid4 gcs_path raises downloaded_rows
       entity_type_id entity_type_data entity_type_name).
Proof.
  unfold _export_entity_type_entity_data, _locate_folder_and_blob.
  apply (bracket_one_segment
           (fun s => path_join (path_join gcs_path (entity_type_id +++ "_" +++ s))
                       "000000000000.csv")
           (fun s => path_join gcs_path (entity_type_id +++ "_" +++ s))
           (fun fb =>
              bind (_export_entity_and_features raises downloaded_rows
                      entity_type_name (fst fb) (snd fb))
                (fun csv_rows =>
                   bind (call raises (csv_reader_exhausted (snd fb)))
                     (fun _ => ret (_process_entities_and_features entity_type_id
                                      entity_type_data csv_rows))))).
  intros fb. apply block_bind.
  - apply export_entity_and_features_block.
  - intros csv_rows. apply block_bind.
    + apply block_call. now split.
    + intros _. apply block_ret.
Qed.

Lemma upload_data_cleanup_guarantee (featurestores : Model) (w : World Exn) :
  exists tr,
    trace (snd (_upload_data uuid4 gcs_path raises featurestores w)) = trace w ++ tr /\
    cleanup_guarantee tr (fst (_upload_data uuid4 gcs_path raises featurestores w)).
Proof.
  destruct (upload_data_many_segments featurestores w) as [tr [E S]].
  exists tr. split; [exact E|].
  now apply (@segments_cleanup_guarantee _ _ _ S).
Qed.

Lemma export_entity_type_entity_data_cleanup_guarantee
    (entity_type_id entity_type_name : string) (entity_type_data : EntityType)
    (w : World Exn) :
  exists tr,
    trace (snd (_export_entity_type_entity_data uuid4 gcs_path raises
                  downloaded_rows entity_type_id entity_type_data
                  entity_type_name w)) = trace w ++ tr /\
    cleanup_guarantee tr
      (forget (fst (_export_entity_type_entity_data uuid4 gcs_path raises
                      downloaded_rows entity_type_id entity_type_data
                      entity_type_name w))).
Proof.
  destruct (export_entity_type_entity_data_one_segment
              entity_type_id entity_type_data entity_type_name w)
    as [tr [E S]].
  exists tr. split; [exact E|].
  apply (@segments_cleanup_guarantee (length (trace w))).
  apply segment_segments. now apply segment_forget.
Qed.

End CleanupFacts.

(** ** The exporter's flat-file encoding *)

Lemma type_in_getitem md f f' :
  type_in (snd (Dict.getitem FeatureMetadata_default md f)) f' = type_in md f'.
Proof.
  unfold Dict.getitem, type_in.
  destruct (Dict.get md f) eqn:G; simpl; auto.
  rewrite dict_get_set. destruct (String.eqb f f') eqn:E; auto.
  apply String.eqb_eq in E. subst f'. now rewrite G.
Qed.

Lemma type_in_getitem_fst md f :
  data_type (fst (Dict.getitem FeatureMetadata_default md f)) = type_in md f.
Proof.
  unfold Dict.getitem, type_in. now destruct (Dict.get md f).
Qed.

Lemma write_features_spec fs et e feats rows md :
  exists md',
    fold_left (write_feature fs et e) feats (rows, md) =
      (rows ++ map (fun kv => line_data fs et e (fst kv)
                                (ValueType_name (type_in md (fst kv)))
                                (value (snd kv))) feats,
       md') /\
    forall f, type_in md' f = type_in md f.
Proof.
  revert rows md. induction feats as [|[f F] feats IH]; intros rows md; simpl.
  - exists md. now rewrite app_nil_r.
  - destruct (Dict.getitem FeatureMetadata_default md f) as [meta md1] eqn:G.
    assert (H1 : forall f', type_in md1 f' = type_in md f').
    { intros f'. replace md1 with (snd (Dict.getitem FeatureMetadata_default md f))
        by now rewrite G. apply type_in_getitem. }
    assert (H2 : data_type meta = type_in md f).
    { replace meta with (fst (Dict.getitem FeatureMetadata_default md f))
        by now rewrite G. apply type_in_getitem_fst. }
    destruct (IH (rows ++ [line_data fs et e f (ValueType_name (data_type meta))
                             (value F)]) md1) as [md' [E H]].
    exists md'. rewrite E, H2, <- app_assoc. simpl. split.
    + f_equal. f_equal. f_equal. apply map_ext. intros kv. now rewrite H1.
    + intros f'. now rewrite H, H1.
Qed.

Lemma write_entities_spec fs et ents rows md :
  exists md',
    fold_left (write_entity fs et) ents (rows, md) =
      (rows ++ flat_map (fun kv =>
                 map (fun kv' => line_data fs et (fst kv) (fst kv')
                                   (ValueType_name (type_in md (fst kv')))
                                   (value (snd kv')))
                   (features (snd kv))) ents,
       md') /\
    forall f, type_in md' f = type_in md f.
Proof.
  revert rows md. induction ents as [|[e E] ents IH]; intros rows md; simpl.
  - exists md. now rewrite app_nil_r.
  - unfold write_entity at 2. simpl.
    destruct (write_features_spec fs et e (features E) rows md) as [md1 [E1 H1]].
    rewrite E1.
    destruct (IH (rows ++ map (fun kv => line_data fs et e (fst kv)
                                  (ValueType_name (type_in md (fst kv)))
                                  (value (snd kv))) (features E)) md1)
      as [md' [E2 H2]].
    exists md'. rewrite E2, <- app_assoc. split.
    + f_equal. f_equal. f_equal. apply flat_map_ext. intros kv.
      apply map_ext. intros kv'. now rewrite H1.
    + intros f. now rewrite H2, H1.
Qed.

Lemma write_entity_type_rows fs et T :
  fst (write_entity_type fs (et, T)) =
  flat_map (fun kv =>
    map (fun kv' => line_data fs et (fst kv) (fst kv')
                      (ValueType_name (type_of T (fst kv'))) (value (snd kv')))
      (features (snd kv))) (entities T).
Proof.
  unfold write_entity_type. simpl.
  destruct (write_entities_spec fs et (entities T) [] (features_metadata T))
    as [md' [E _]].
  rewrite E. reflexivity.
Qed.

Lemma concat_map_fst_map A B C (g : A -> list B * C) (l : list A) :
  concat (map fst (map g l)) = flat_map (fun a => fst (g a)) l.
Proof. rewrite map_map. symmetry. apply flat_map_concat_map. Qed.

Lemma map_flat_map A B C (g : B -> C) (h : A -> list B) (l : list A) :
  map g (flat_map h l) = flat_map (fun a => map g (h a)) l.
Proof.
  induction l as [|a l IH]; simpl; auto. now rewrite map_app, IH.
Qed.

Lemma written_rows_encode m :
  written_rows m = map encode_combination (combinations m).
Proof.
  unfold written_rows, _write_to_file, combinations. simpl.
  rewrite concat_map_fst_map, map_flat_map.
  apply flat_map_ext. intros [fs FS].
  unfold write_featurestore. simpl.
  rewrite concat_map_fst_map, map_flat_map.
  apply flat_map_ext. intros [et T].
  rewrite write_entity_type_rows, map_flat_map.
  apply flat_map_ext. intros [e E]. simpl.
  rewrite map_map. apply map_ext. now intros [f F].
Qed.

(** *** The combinations of a well-formed model *)

Lemma in_combinations m fs et e f t v :
  In (fs, et, e, f, t, v) (combinations m) <->
  exists FS T E F,
    In (fs, FS) m /\ In (et, T) (entity_types FS) /\ In (e, E) (entities T) /\
    In (f, F) (features E) /\ t = type_of T f /\ v = value F.
Proof.
  unfold combinations. rewrite in_flat_map. split.
  - intros [[fs' FS] [H1 H]]. apply in_flat_map in H.
    destruct H as [[et' T] [H2 H]]. apply in_flat_map in H.
    destruct H as [[e' E] [H3 H]]. apply in_map_iff in H.
    destruct H as [[f' F] [H H4]]. injection H as <- <- <- <- <- <-.
    exists FS, T, E, F. auto 10.
  - intros [FS [T [E [F [H1 [H2 [H3 [H4 [-> ->]]]]]]]]].
    exists (fs, FS). split; auto. apply in_flat_map.
    exists (et, T). split; auto. apply in_flat_map.
    exists (e, E). split; auto. apply in_map_iff.
    exists (f, F). auto.
Qed.

Lemma wf_model_lookup m fs et T :
  wf_model m -> find_entity_type m fs et = Some T ->
  exists FS, In (fs, FS) m /\ In (et, T) (entity_types FS) /\ wf_entity_type T.
Proof.
  intros [_ Hall] H. unfold find_entity_type in H.
  destruct (Dict.get m fs) as [FS|] eqn:G; [|discriminate].
  apply dict_get_In in G. apply dict_get_In in H.
  exists FS. split; [exact G|]. split; [exact H|].
  rewrite Forall_forall in Hall. destruct (Hall _ G) as [_ HFS].
  rewrite Forall_forall in HFS. apply (HFS _ H).
Qed.

Lemma wf_model_find m fs FS et T :
  wf_model m -> In (fs, FS) m -> In (et, T) (entity_types FS) ->
  find_entity_type m fs et = Some T /\ wf_entity_type T.
Proof.
  intros [Hwf Hall] H1 H2. rewrite Forall_forall in Hall.
  destruct (Hall _ H1) as [HwfFS HFS]. simpl in *.
  unfold find_entity_type. rewrite (@dict_In_get _ _ _ _ Hwf H1).
  rewrite (@dict_In_get _ _ _ _ HwfFS H2). split; auto.
  rewrite Forall_forall in HFS. apply (HFS _ H2).
Qed.

Lemma combinations_type m fs et e f t v :
  wf_model m -> In (fs, et, e, f, t, v) (combinations m) ->
  t = model_type m fs et f.
Proof.
  intros Hwf H. apply in_combinations in H.
  destruct H as [FS [T [E [F [H1 [H2 [_ [_ [-> _]]]]]]]]].
  unfold model_type. now rewrite (proj1 (@wf_model_find _ _ _ _ _ Hwf H1 H2)).
Qed.

Lemma combinations_value_of m fs et e f v :
  wf_model m ->
  (value_of m fs et e f = Some v <->
   exists t, In (fs, et, e, f, t, v) (combinations m)).
Proof.
  intros Hwf. split.
  - intros H. unfold value_of in H.
    destruct (find_entity_type m fs et) as [T|] eqn:G; [|discriminate].
    destruct (@wf_model_lookup _ _ _ _ Hwf G) as [FS [H1 [H2 _]]].
    unfold et_value in H.
    destruct (Dict.get (entities T) e) as [E|] eqn:G3; [|discriminate].
    destruct (Dict.get (features E) f) as [F|] eqn:G4; [|discriminate].
    simpl in H. injection H as <-.
    exists (type_of T f). apply in_combinations.
    exists FS, T, E, F. repeat split; auto using dict_get_In.
  - intros [t H]. apply in_combinations in H.
    destruct H as [FS [T [E [F [H1 [H2 [H3 [H4 [_ ->]]]]]]]]].
    destruct (@wf_model_find _ _ _ _ _ Hwf H1 H2) as [G [_ [HwfE HallE]]].
    unfold value_of, et_value. rewrite G, (@dict_In_get _ _ _ _ HwfE H3).
    rewrite Forall_forall in HallE. specialize (HallE _ H3).
    unfold wf_entity in HallE. simpl in HallE.
    now rewrite (@dict_In_get _ _ _ _ HallE H4).
Qed.

Lemma NoDup_flat_map_keyed (V X K : Type) (d : Dict.t V)
    (g : string * V -> list X) (key : X -> K) (part : K -> string) :
  Dict.wf d ->
  (forall kv, In kv d -> NoDup (map key (g kv))) ->
  (forall kv x, In x (g kv) -> part (key x) = fst kv) ->
  NoDup (map key (flat_map g d)).
Proof.
  unfold Dict.wf, Dict.keys. intros Hwf Hin Hpart.
  induction d as [|kv d IH]; simpl; [constructor|].
  inversion Hwf as [|? ? Hnot Hwf']; subst.
  rewrite map_app. apply NoDup_app.
  - apply Hin. now left.
  - apply IH; auto. intros kv' H. apply Hin. now right.
  - intros k H1 H2. apply Hnot.
    apply in_map_iff in H1. destruct H1 as [x1 [<- H1]].
    apply in_map_iff in H2. destruct H2 as [x2 [E H2]].
    apply in_flat_map in H2. destruct H2 as [kv' [H3 H2]].
    rewrite <- (Hpart _ _ H1), <- E, (Hpart _ _ H2).
    now apply in_map.
Qed.

Lemma combinations_NoDup m :
  wf_model m -> NoDup (map combination_key (combinations m)).
Proof.
  intros [Hwf Hall]. rewrite Forall_forall in Hall. unfold combinations.
  apply (NoDup_flat_map_keyed _ _ (fun k => fst (fst (fst k))) Hwf).
  - intros [fs FS] HFS. destruct (Hall _ HFS) as [HwfFS HallFS]. simpl in *.
    rewrite Forall_forall in HallFS.
    apply (NoDup_flat_map_keyed _ _ (fun k => snd (fst (fst k))) HwfFS).
    + intros [et T] HT. destruct (HallFS _ HT) as [_ [HwfT HallT]]. simpl in *.
      rewrite Forall_forall in HallT.
      apply (NoDup_flat_map_keyed _ _ (fun k => snd (fst k)) HwfT).
      * intros [e E] HE. specialize (HallT _ HE). unfold wf_entity in HallT.
        simpl in *. rewrite map_map.
        assert (Hm : map (fun x : string * Feature =>
                            combination_key
                              (let '(f, F) := x in
                               (fs, et, e, f, type_of T f, value F)))
                       (features E)
                     = map (fun f => (fs, et, e, f)) (Dict.keys (features E))).
        { unfold Dict.keys. rewrite map_map. apply map_ext. now intros [f F]. }
        rewrite Hm. clear Hm. unfold Dict.wf in HallT.
        induction HallT as [|f l Hnot _ IH]; simpl; constructor; auto.
        intros H. apply in_map_iff in H. destruct H as [f' [[= ->] H]].
        contradiction.
      * intros [e E] x H. apply in_map_iff in H.
        destruct H as [[f F] [<- _]]. reflexivity.
    + intros [et T] x H. apply in_flat_map in H.
      destruct H as [[e E] [_ H]]. apply in_map_iff in H.
      destruct H as [[f F] [<- _]]. reflexivity.
  - intros [fs FS] x H. apply in_flat_map in H.
    destruct H as [[et T] [_ H]]. apply in_flat_map in H.
    destruct H as [[e E] [_ H]]. apply in_map_iff in H.
    destruct H as [[f F] [<- _]]. reflexivity.
Qed.

(** C9: [_write_to_file] hands to the csv writer one row per
    (featurestore, entity type, entity, feature) combination of the model, in
    the model's iteration order; each row has twelve tokens, the fixed labels
    at the even positions and the identifiers, the upper-case name of the
    feature's type and the value at the odd positions.  In a model whose
    dictionaries have unique keys no combination is written twice, and a
    combination has a value exactly when its row is in the file.  The sample
    model gives the line of the format's example. *)
Theorem C9_flat_file_encoding :
  forall m : Model,
    written_rows m = map encode_combination (combinations m) /\
    (forall row, In row (written_rows m) ->
       exists fs et e f t v,
         In (fs, et, e, f, t, v) (combinations m) /\
         row = ["featurestores"; fs; "entityTypes"; et; "entities"; e;
                "features"; f; "featureDataTypes"; ValueType_name t;
                "featureValues"; v] /\
         length row = 12 /\
         upper (ValueType_name t) = ValueType_name t) /\
    (wf_model m ->
       NoDup (map combination_key (combinations m)) /\
       forall fs et e f v,
         value_of m fs et e f = Some v <->
         In (line_data fs et e f (ValueType_name (model_type m fs et f)) v)
            (written_rows m)) /\
    written_rows pets_model =
      [["featurestores"; "fs1"; "entityTypes"; "pets"; "entities"; "rex";
        "features"; "age"; "featureDataTypes"; "INT64"; "featureValues"; "4"]] /\
    map join_slash (written_rows pets_model) =
      ["featurestores/fs1/entityTypes/pets/entities/rex/features/age/featureDataTypes/INT64/featureValues/4"].
Proof.
  intros m. split; [apply written_rows_encode|]. split; [|split].
  - intros row H. rewrite written_rows_encode in H. apply in_map_iff in H.
    destruct H as [[[[[[fs et] e] f] t] v] [<- H]].
    exists fs, et, e, f, t, v. repeat split; auto.
    apply ValueType_name_upper.
  - intros Hwf. split; [now apply combinations_NoDup|].
    intros fs et e f v. rewrite written_rows_encode, in_map_iff.
    rewrite (@combinations_value_of _ _ _ _ _ _ Hwf). split.
    + intros [t H]. exists (fs, et, e, f, t, v). split; auto.
      simpl. now rewrite (@combinations_type _ _ _ _ _ _ _ Hwf H).
    + intros [[[[[[fs' et'] e'] f'] t] v'] [E H]].
      simpl in E. unfold line_data in E.
      injection E as -> -> -> -> _ ->. now exists t.
  - split; reflexivity.
Qed.

(** ** Round trip through the flat file *)

Lemma string_length_append (a b : string) :
  String.length (a +++ b) = String.length a + String.length b.
Proof. induction a as [|c a IH]; simpl; auto. Qed.

Lemma substring_prefix_length n s :
  n <= String.length s -> String.length (substring 0 n s) = n.
Proof.
  revert s. induction n as [|n IH]; intros s H.
  - now destruct s.
  - destruct s as [|c s]; simpl in *; [lia|]. rewrite IH; lia.
Qed.

Lemma append_same_suffix_length (a b x y : string) :
  a +++ x = b +++ y -> String.length x = String.length y -> a = b.
Proof.
  revert b. induction a as [|c a IH]; intros b E L.
  - destruct b as [|c' b]; auto. simpl in E.
    apply (f_equal String.length) in E. simpl in E.
    rewrite string_length_append in E. lia.
  - destruct b as [|c' b]; simpl in E.
    + apply (f_equal String.length) in E. simpl in E.
      rewrite string_length_append in E. lia.
    + injection E as -> E. f_equal. now apply IH.
Qed.

Lemma remapped_id_injective uuid4 fs1 fs2 i j :
  (forall n, 5 <= String.length (uuid4 n)) ->
  fs1 +++ "_" +++ suffix uuid4 i = fs2 +++ "_" +++ suffix uuid4 j ->
  fs1 = fs2.
Proof.
  intros Hlen E. apply (append_same_suffix_length _ _ _ _ E).
  simpl. unfold suffix. now rewrite !substring_prefix_length.
Qed.

(** *** The value expected after a list of lines *)

Lemma expected_snoc done fs' et' e' f' t v fs et e f :
  expected (done ++ [(fs', et', e', f', t, v)]) fs et e f =
  if key_matches fs et e f (fs', et', e', f', t, v)
  then (if is_array_type t then None else Some v)
  else expected done fs et e f.
Proof.
  unfold expected. rewrite rev_app_distr. simpl.
  now destruct (String.eqb fs' fs && String.eqb et' et && String.eqb e' e
                && String.eqb f' f).
Qed.

Lemma key_matches_true fs et e f c :
  key_matches fs et e f c = true <-> combination_key c = (fs, et, e, f).
Proof.
  destruct c as [[[[[fs' et'] e'] f'] t] v]. simpl.
  rewrite !andb_true_iff, !String.eqb_eq. split.
  - now intros [[[-> ->] ->] ->].
  - now intros [= -> -> -> ->].
Qed.

Lemma expected_Some_in done fs et e f v :
  expected done fs et e f = Some v ->
  exists t, In (fs, et, e, f, t, v) done /\ is_array_type t = false.
Proof.
  unfold expected.
  destruct (find (key_matches fs et e f) (rev done))
    as [[[[[[fs' et'] e'] f'] t] v']|] eqn:F; [|discriminate].
  apply find_some in F. destruct F as [Hin Hk].
  apply key_matches_true in Hk. injection Hk as -> -> -> ->.
  destruct (is_array_type t) eqn:A; [discriminate|]. intros [= ->].
  exists t. split; auto. now apply in_rev.
Qed.

Lemma expected_of_NoDup done fs et e f t v :
  NoDup (map combination_key done) ->
  In (fs, et, e, f, t, v) done ->
  expected done fs et e f = if is_array_type t then None else Some v.
Proof.
  intros Hnd Hin. unfold expected.
  destruct (find (key_matches fs et e f) (rev done)) as [c|] eqn:F.
  - apply find_some in F. destruct F as [Hin' Hk].
    apply in_rev in Hin'. apply key_matches_true in Hk.
    assert (c = (fs, et, e, f, t, v)) as ->; [|reflexivity].
    clear - Hnd Hin Hin' Hk.
    induction done as [|c0 done IH]; [destruct Hin|].
    simpl in Hnd. inversion Hnd as [|? ? Hnot Hnd']; subst.
    destruct Hin as [->|Hin], Hin' as [->|Hin']; auto.
    + exfalso. apply Hnot. simpl. rewrite <- Hk. now apply in_map.
    + exfalso. apply Hnot. rewrite Hk.
      change (fs, et, e, f) with (combination_key (fs, et, e, f, t, v)).
      now apply in_map.
  - apply in_rev in Hin. apply (find_none _ _ F) in Hin.
    simpl in Hin. rewrite !String.eqb_refl in Hin. discriminate.
Qed.

(** *** The importer's state along an encoded file *)

Ltac eqb_case a b :=
  let E := fresh "E" in
  destruct (String.eqb a b) eqn:E;
  [apply String.eqb_eq in E | apply String.eqb_neq in E].

Section RoundTripStep.
Variable uuid4 : nat -> string.
Variable ty : string -> string -> string -> ValueType.
Hypothesis uuid_length : forall n, 5 <= String.length (uuid4 n).

Variable st : ImportState.
Variable done : list (string * string * string * string * ValueType * string).
Variables fs et e f v : string.
Hypothesis done_typed : typed_by ty done.
Hypothesis Inv : import_invariant uuid4 ty st done.

Let t := ty fs et f.
Let k := mapped_id uuid4 st fs.
Let st' := _store_values uuid4 st fs et e f (ValueType_name t) v.

Lemma step_k_form : exists i, k = fs +++ "_" +++ suffix uuid4 i.
Proof.
  destruct Inv as [J1 _]. unfold k, mapped_id.
  destruct (Dict.get (featurestore_id_map st) fs) eqn:G; eauto.
Qed.

Lemma step_k_preimage fs0 :
  Dict.get (featurestore_id_map st) fs0 = Some k -> fs0 = fs.
Proof.
  intros G. destruct Inv as [J1 _]. destruct (J1 _ _ G) as [i Ei].
  destruct step_k_form as [j Ej]. rewrite Ei in Ej.
  now apply (remapped_id_injective uuid4 _ _ _ _ uuid_length Ej).
Qed.

Lemma step_k_known k0 :
  Dict.get (featurestore_id_map st) fs = Some k0 -> k0 = k.
Proof. intros G. unfold k, mapped_id. now rewrite G. Qed.

Lemma step_id_map fs2 :
  Dict.get (featurestore_id_map st') fs2 =
  if String.eqb fs fs2 then Some k else Dict.get (featurestore_id_map st) fs2.
Proof. apply id_map_store_values. Qed.

Lemma step_id_map_mono fs0 k0 :
  Dict.get (featurestore_id_map st) fs0 = Some k0 ->
  Dict.get (featurestore_id_map st') fs0 = Some k0.
Proof.
  intros G. rewrite step_id_map. eqb_case fs fs0; auto.
  subst fs0. now rewrite (step_k_known G).
Qed.

Lemma step_id_map_cases fs2 k2 :
  Dict.get (featurestore_id_map st') fs2 = Some k2 ->
  (fs2 = fs /\ k2 = k) \/
  (fs2 <> fs /\ k2 <> k /\ Dict.get (featurestore_id_map st) fs2 = Some k2).
Proof.
  rewrite step_id_map. eqb_case fs fs2.
  - intros [= <-]. now left.
  - intros G. right. repeat split; auto.
    intros ->. apply step_k_preimage in G. congruence.
Qed.

Lemma step_old_values et2 e2 f2 :
  value_of (featurestores st) k et2 e2 f2 = expected done fs et2 e2 f2.
Proof.
  destruct Inv as [_ [_ [J3 [J4 J5]]]].
  destruct (Dict.get (featurestore_id_map st) fs) as [k0|] eqn:G.
  - rewrite <- (step_k_known G). now apply J3.
  - destruct (value_of (featurestores st) k et2 e2 f2) as [v0|] eqn:V.
    + destruct (J4 _ _ _ _ _ V) as [fs0 G0].
      rewrite (step_k_preimage _ G0) in G0. congruence.
    + destruct (expected done fs et2 e2 f2) as [v0|] eqn:X; auto.
      apply expected_Some_in in X. destruct X as [t0 [Hin _]].
      now apply J5 in Hin.
Qed.

Lemma step_old_value_array :
  is_array_type t = true -> value_of (featurestores st) k et e f = None.
Proof.
  intros A. rewrite step_old_values.
  destruct (expected done fs et e f) as [v0|] eqn:X; auto.
  apply expected_Some_in in X. destruct X as [t0 [Hin A0]].
  apply done_typed in Hin. subst t0. unfold t in A. congruence.
Qed.

Lemma step_inferred :
  inferred_type (metadata_of (featurestores st) k et f) (ValueType_name t) =
  if is_array_type t then None else Some t.
Proof.
  destruct Inv as [_ [J2 _]].
  destruct (metadata_of (featurestores st) k et f) as [t0|] eqn:Md; simpl.
  - destruct (J2 _ _ _ _ Md) as [fs0 [G0 [Et A]]].
    rewrite (step_k_preimage _ G0) in Et. fold t in Et. subst t0. now rewrite A.
  - now rewrite ValueType_name_upper, ValueType_getitem_name.
Qed.

Lemma import_invariant_step :
  import_invariant uuid4 ty st' (done ++ [(fs, et, e, f, t, v)]).
Proof.
  pose proof Inv as [J1 [J2 [J3 [J4 J5]]]].
  split; [|split; [|split; [|split]]].
  - intros fs2 k2 G. apply step_id_map_cases in G.
    destruct G as [[-> ->]|[_ [_ G]]]; [apply step_k_form | now apply J1].
  - intros k2 et2 f2 t2. unfold st'. rewrite metadata_of_store_values.
    fold k. rewrite step_inferred.
    destruct (String.eqb k k2 && String.eqb et et2 && String.eqb f f2) eqn:M.
    + apply andb_true_iff in M. destruct M as [M Ef].
      apply andb_true_iff in M. destruct M as [Ek Eet].
      apply String.eqb_eq in Ek, Eet, Ef. subst k2 et2 f2.
      destruct (is_array_type t) eqn:A; [discriminate|]. intros [= <-].
      exists fs. repeat split; auto.
      fold st'. rewrite step_id_map. now rewrite String.eqb_refl.
    + intros Md. destruct (J2 _ _ _ _ Md) as [fs0 [G0 [Et A]]].
      exists fs0. repeat split; auto. now apply step_id_map_mono.
  - intros fs2 k2 et2 e2 f2 G. unfold st'. rewrite value_of_store_values.
    fold k. rewrite step_inferred, expected_snoc. simpl.
    apply step_id_map_cases in G. destruct G as [[-> ->]|[Hfs [Hk G]]].
    + rewrite !String.eqb_refl. simpl.
      eqb_case et et2; simpl.
      * eqb_case e e2; simpl.
        -- eqb_case f f2; simpl.
           ++ subst et2 e2 f2. destruct (is_array_type t) eqn:A; auto.
              now apply step_old_value_array.
           ++ destruct (is_array_type t); apply step_old_values.
        -- destruct (is_array_type t); apply step_old_values.
      * destruct (is_array_type t); apply step_old_values.
    + apply String.eqb_neq in Hfs, Hk.
      rewrite String.eqb_sym in Hfs. rewrite String.eqb_sym in Hk.
      rewrite Hfs, Hk. simpl.
      destruct (is_array_type t); now apply J3.
  - intros k2 et2 e2 f2 v2. unfold st'. rewrite value_of_store_values.
    fold k. rewrite step_inferred.
    assert (Hold : value_of (featurestores st) k2 et2 e2 f2 = Some v2 ->
                   exists fs0, Dict.get (featurestore_id_map st') fs0 = Some k2).
    { intros V. destruct (J4 _ _ _ _ _ V) as [fs0 G0].
      exists fs0. now apply step_id_map_mono. }
    destruct (is_array_type t); auto.
    destruct (String.eqb k k2 && String.eqb et et2 && String.eqb e e2
              && String.eqb f f2) eqn:M; auto.
    intros _. exists fs. rewrite step_id_map, String.eqb_refl.
    apply andb_true_iff in M. destruct M as [M _].
    apply andb_true_iff in M. destruct M as [M _].
    apply andb_true_iff in M. destruct M as [M _].
    apply String.eqb_eq in M. now subst.
  - intros fs2 et2 e2 f2 t2 v2 Hin. apply in_app_or in Hin.
    rewrite step_id_map. eqb_case fs fs2; [discriminate|].
    destruct Hin as [Hin|[Hin|[]]].
    + now apply J5 in Hin.
    + injection Hin as <- _ _ _ _ _. contradiction.
Qed.
End RoundTripStep.

Lemma import_invariant_initial uuid4 ty n :
  import_invariant uuid4 ty (initial_state n) [].
Proof.
  unfold import_invariant, initial_state. simpl.
  repeat split; try discriminate. intros ? ? ? ? ? ? [].
Qed.

Lemma parse_row_encode uuid4 st fs et e f t v :
  parse_row uuid4 st (encode_combination (fs, et, e, f, t, v)) =
  _store_values uuid4 st fs et e f (ValueType_name t) v.
Proof. reflexivity. Qed.

Lemma import_invariant_rows uuid4 ty cs :
  (forall n, 5 <= String.length (uuid4 n)) ->
  forall st done,
    typed_by ty (done ++ cs) ->
    import_invariant uuid4 ty st done ->
    import_invariant uuid4 ty
      (parse_rows uuid4 st (map encode_combination cs)) (done ++ cs).
Proof.
  intros Hlen. induction cs as [|c cs IH]; intros st done Hty Inv.
  - simpl. now rewrite app_nil_r.
  - destruct c as [[[[[fs et] e] f] t] v].
    assert (parse_rows uuid4 st (map encode_combination ((fs, et, e, f, t, v) :: cs))
            = parse_rows uuid4
                (_store_values uuid4 st fs et e f (ValueType_name t) v)
                (map encode_combination cs)) as -> by reflexivity.
    assert (Et : t = ty fs et f).
    { apply (Hty fs et e f t v). apply in_or_app. right. now left. }
    replace (done ++ (fs, et, e, f, t, v) :: cs)
      with ((done ++ [(fs, et, e, f, t, v)]) ++ cs)
      by (rewrite <- app_assoc; reflexivity).
    apply IH.
    + intros fs' et' e' f' t' v' H. apply (Hty fs' et' e' f' t' v').
      rewrite <- app_assoc in H. exact H.
    + rewrite Et. apply import_invariant_step; auto.
      intros fs' et' e' f' t' v' H. apply (Hty fs' et' e' f' t' v').
      apply in_or_app. now left.
Qed.

(** C1, as the code has it: decoding the file written for a model gives
    the model's content up to the renaming of featurestore identifiers and
    without the features of array type.  Every featurestore that has content
    is mapped to its identifier followed by ['_'] and a suffix, distinct
    featurestores are mapped to distinct identifiers, the value found under a
    mapped identifier is the original one unless the feature's recorded type
    is an array type, in which case there is none, and the decoded model has
    no value under any other identifier. *)
Theorem C1_round_trip_up_to_renaming :
  forall (uuid4 : nat -> string) (n : nat) (m : Model),
    wf_model m ->
    (forall i, 5 <= String.length (uuid4 i)) ->
    let st := _parse_schema_and_data uuid4 n (written_rows m) in
    (forall fs k, Dict.get (featurestore_id_map st) fs = Some k ->
                  exists i, k = fs +++ "_" +++ suffix uuid4 i) /\
    (forall fs1 fs2 k,
        Dict.get (featurestore_id_map st) fs1 = Some k ->
        Dict.get (featurestore_id_map st) fs2 = Some k -> fs1 = fs2) /\
    (forall fs et e f v,
        value_of m fs et e f = Some v ->
        exists k, Dict.get (featurestore_id_map st) fs = Some k) /\
    (forall fs k et e f,
        Dict.get (featurestore_id_map st) fs = Some k ->
        value_of (featurestores st) k et e f =
        if is_array_type (model_type m fs et f) then None
        else value_of m fs et e f) /\
    (forall k et e f v,
        value_of (featurestores st) k et e f = Some v ->
        exists fs, Dict.get (featurestore_id_map st) fs = Some k).
Proof.
  intros uuid4 n m Hwf Hlen st.
  assert (Hty : typed_by (model_type m) ([] ++ combinations m)).
  { intros fs et e f t v H. now apply (@combinations_type m fs et e f t v). }
  pose proof (import_invariant_rows (combinations m) Hlen Hty
                (import_invariant_initial uuid4 (model_type m) n)) as Inv.
  rewrite <- written_rows_encode in Inv. simpl in Inv.
  change (parse_rows uuid4 (initial_state n) (written_rows m)) with st in Inv.
  destruct Inv as [J1 [J2 [J3 [J4 J5]]]].
  split; [exact J1|]. split; [|split; [|split; [|exact J4]]].
  - intros fs1 fs2 k G1 G2.
    destruct (J1 _ _ G1) as [i Ei]. destruct (J1 _ _ G2) as [j Ej].
    rewrite Ei in Ej. now apply (remapped_id_injective uuid4 _ _ _ _ Hlen Ej).
  - intros fs et e f v V.
    apply (@combinations_value_of m fs et e f v Hwf) in V.
    destruct V as [t Hin]. apply J5 in Hin.
    destruct (Dict.get (featurestore_id_map st) fs) as [k|]; [eauto|congruence].
  - intros fs k et e f G. rewrite (J3 _ _ et e f G).
    destruct (value_of m fs et e f) as [v|] eqn:V.
    + apply (@combinations_value_of m fs et e f v Hwf) in V.
      destruct V as [t Hin].
      rewrite (@expected_of_NoDup _ _ _ _ _ _ _ (combinations_NoDup Hwf) Hin).
      now rewrite (@combinations_type m fs et e f t v Hwf Hin).
    + destruct (expected (combinations m) fs et e f) as [v|] eqn:X.
      * apply expected_Some_in in X. destruct X as [t [Hin _]].
        assert (V' : value_of m fs et e f = Some v)
          by (apply (@combinations_value_of m fs et e f v Hwf); eauto).
        congruence.
      * now destruct (is_array_type _).
Qed.

(** ** The theorems at the data of the unit tests *)

Lemma pets_model_with_array_wf : wf_model pets_model_with_array.
Proof.
  unfold wf_model, wf_featurestore, wf_entity_type, wf_entity, Dict.wf.
  simpl. repeat constructor; simpl; intuition discriminate.
Qed.

Lemma sample_uuid4_length : forall i, 5 <= String.length (sample_uuid4 i).
Proof. intros i. simpl. lia. Qed.

(** The round trip of a model as the claim C1 states it fails: after
    encoding and decoding there is no value under the original featurestore
    identifier, and the array-typed feature has no value under the new one
    either. *)
Lemma C1_round_trip_counterexample :
  value_of
    (featurestores
       (_parse_schema_and_data sample_uuid4 0 (written_rows pets_model_with_array)))
    "fs1" "pets" "rex" "age"
  <> value_of pets_model_with_array "fs1" "pets" "rex" "age" /\
  value_of
    (featurestores
       (_parse_schema_and_data sample_uuid4 0 (written_rows pets_model_with_array)))
    "fs1_d3d75" "pets" "rex" "age" = Some "4" /\
  value_of pets_model_with_array "fs1" "pets" "rex" "tags" = Some "a,b" /\
  value_of
    (featurestores
       (_parse_schema_and_data sample_uuid4 0 (written_rows pets_model_with_array)))
    "fs1_d3d75" "pets" "rex" "tags" = None.
Proof.
  repeat split; vm_compute; discriminate.
Qed.

Lemma C1_round_trip_up_to_renaming_witness :
  wf_model pets_model_with_array /\
  (forall i, 5 <= String.length (sample_uuid4 i)) /\
  forall k et e f,
    Dict.get
      (featurestore_id_map
         (_parse_schema_and_data sample_uuid4 0
            (written_rows pets_model_with_array))) "fs1" = Some k ->
    value_of
      (featurestores
         (_parse_schema_and_data sample_uuid4 0
            (written_rows pets_model_with_array))) k et e f =
    if is_array_type (model_type pets_model_with_array "fs1" et f) then None
    else value_of pets_model_with_array "fs1" et e f.
Proof.
  split; [exact pets_model_with_array_wf|].
  split; [exact sample_uuid4_length|].
  intros k et e f.
  exact (proj1 (proj2 (proj2 (proj2
           (@C1_round_trip_up_to_renaming sample_uuid4 0 pets_model_with_array
              pets_model_with_array_wf sample_uuid4_length))))
         "fs1" k et e f).
Defined.

Lemma C3_type_first_write_wins_value_last_write_wins_witness :
  metadata_of
    (featurestores
       (parse_row sample_uuid4
          (parse_rows sample_uuid4
             (parse_row sample_uuid4 (initial_state 0) height_row) [awake_row])
          retyped_row))
    "benchmark_featurestore_d3d75" "human" "height" = Some INT64 /\
  value_of
    (featurestores
       (parse_row sample_uuid4
          (parse_rows sample_uuid4
             (parse_row sample_uuid4 (initial_state 0) height_row) [awake_row])
          retyped_row))
    "benchmark_featurestore_d3d75" "human" "bob" "height" = Some "5".
Proof.
  pose proof (@C3_type_first_write_wins_value_last_write_wins sample_uuid4
                (initial_state 0) height_row [awake_row] retyped_row [] INT64
                eq_refl eq_refl eq_refl eq_refl eq_refl eq_refl eq_refl eq_refl)
    as H.
  split; [exact (proj1 (proj2 (proj2 (proj2 H))))
         | exact (proj1 (proj2 (proj2 (proj2 (proj2 H)))))].
Defined.

Lemma C4_malformed_row_skipped_witness :
  length bad_row <> 12 /\
  featurestores
    (parse_rows sample_uuid4 (initial_state 0) ([height_row] ++ bad_row :: [awake_row]))
  = featurestores
      (parse_rows sample_uuid4 (initial_state 0) ([height_row] ++ [awake_row])).
Proof.
  assert (H : length bad_row <> 12) by (simpl; lia).
  split; [exact H|].
  exact (proj1 (proj2 (@C4_malformed_row_skipped sample_uuid4 (initial_state 0)
                         [height_row] [awake_row] bad_row H))).
Defined.

Lemma C5_array_or_unknown_type_rejected_witness :
  is_ascii (nth 9 array_row "") = true /\
  metadata_of (featurestores (parse_row sample_uuid4 (initial_state 0) array_row))
    "benchmark_featurestore_d3d75" "human" "height" = None /\
  warnings (parse_row sample_uuid4 (initial_state 0) array_row) =
    ["Uploading array value types not currently supported."].
Proof.
  assert (H : In (upper (nth 9 array_row ""))
                ["BOOL_ARRAY"; "DOUBLE_ARRAY"; "INT64_ARRAY"; "STRING_ARRAY"] \/
              ValueType_getitem (upper (nth 9 array_row "")) = None)
    by (left; simpl; auto).
  pose proof (@C5_array_or_unknown_type_rejected sample_uuid4 (initial_state 0)
                array_row eq_refl eq_refl eq_refl H) as T.
  split; [reflexivity|].
  split; [exact (proj1 T) | exact (proj2 (proj2 (proj2 (proj2 T))))].
Defined.

Lemma C6_empty_data_type_token_witness :
  value_of
    (featurestores
       (parse_row sample_uuid4
          (parse_row sample_uuid4 (initial_state 0) height_row) sally_row))
    "benchmark_featurestore_d3d75" "human" "sally" "height" = Some "3" /\
  warnings (parse_row sample_uuid4 (initial_state 0) sally_row) =
    ["Unknown datatype: "].
Proof.
  split.
  - exact (proj1 (proj2 (@C6_empty_data_type_token sample_uuid4
                           (parse_row sample_uuid4 (initial_state 0) height_row)
                           sally_row eq_refl eq_refl))).
  - exact (proj2 (proj2 (@C6_empty_data_type_token sample_uuid4 (initial_state 0)
                           sally_row eq_refl eq_refl))).
Defined.

Lemma C7_no_remote_calls_without_wellformed_lines_witness :
  Forall (fun row : Row => length row <> 12) [bad_row; []] /\
  execute sample_uuid4 "region" "gs://scratch_space/some/path" ingestion_fails
    [bad_row; []] empty_world =
  (Returned tt, empty_world,
   ["Failed to parse line: bad line"; "Failed to parse line: "]).
Proof.
  assert (H : Forall (fun row : Row => length row <> 12) [bad_row; []])
    by (repeat constructor; simpl; lia).
  split; [exact H|].
  exact (proj2 (@C7_no_remote_calls_without_wellformed_lines string sample_uuid4
                  "region" "gs://scratch_space/some/path" ingestion_fails
                  [bad_row; []] empty_world H)).
Defined.



Lemma pets_model_wf : wf_model pets_model.
Proof.
  unfold wf_model, wf_featurestore, wf_entity_type, wf_entity, Dict.wf.
  simpl. repeat constructor; simpl; intuition discriminate.
Qed.

Lemma C9_flat_file_encoding_witness :
  wf_model pets_model /\
  NoDup (map combination_key (combinations pets_model)) /\
  (value_of pets_model "fs1" "pets" "rex" "age" = Some "4" <->
   In (line_data "fs1" "pets" "rex" "age"
         (ValueType_name (model_type pets_model "fs1" "pets" "age")) "4")
      (written_rows pets_model)).
Proof.
  split; [exact pets_model_wf|].
  pose proof (proj1 (proj2 (proj2 (C9_flat_file_encoding pets_model)))
                pets_model_wf) as T.
  split; [exact (proj1 T) | exact (proj2 T "fs1" "pets" "rex" "age" "4")].
Defined.

(** ** The unit tests of the repository, replayed on the embedding *)

(** [test_upload_file], [test_create_blob_object], [test_ingestion_job],
    [test_delete_blob]: a run in which every call succeeds. *)
Example execute_three_rows :
  execute sample_uuid4 "region" "gs://scratch_space/some/path"
    (fun (_ : Trace string) _ => None) [height_row; sally_row; awake_row]
    empty_world =
  (Returned tt,
   {| trace :=
        let blob := {| blob_serial := 4;
                       blob_path := "gs://scratch_space/some/path/human_d3d75.csv" |} in
        [(FeaturestoreServiceClient "region-aiplatform.googleapis.com", None);
         (create_featurestore "benchmark_featurestore_d3d75", None);
         (create_entity_type "benchmark_featurestore_d3d75" "human", None);
         (batch_create_features "benchmark_featurestore_d3d75" "human"
            [("height", INT64); ("awake", BOOL)], None);
         (storage_blob blob, None);
         (upload_from_file blob
            [["entity_id_d3d75"; "height"; "awake"];
             ["bob"; "4"; "True"]; ["sally"; "3"; ""]], None);
         (import_feature_values "benchmark_featurestore_d3d75" "human"
            "gs://scratch_space/some/path/human_d3d75.csv" "entity_id_d3d75"
            ["height"; "awake"], None);
         (blob_delete blob, None)];
      uuids := 3 |},
   []).
Proof. reflexivity. Qed.

(** [test_delete_blob_exception]: the ingestion job raises, the blob is
    deleted once and the exception comes out of the upload. *)
Example upload_when_ingestion_fails :
  _upload_data sample_uuid4 "gs://scratch_space/some/path" ingestion_fails
    (featurestores (_parse_schema_and_data sample_uuid4 0 [height_row]))
    empty_world =
  (Raised "ow",
   {| trace :=
        let blob := {| blob_serial := 0;
                       blob_path := "gs://scratch_space/some/path/human_d3d75.csv" |} in
        [(storage_blob blob, None);
         (upload_from_file blob [["entity_id_d3d75"; "height"]; ["bob"; "4"]], None);
         (import_feature_values "benchmark_featurestore_d3d75" "human"
            "gs://scratch_space/some/path/human_d3d75.csv" "entity_id_d3d75"
            ["height"], Some "ow");
         (blob_delete blob, None)];
      uuids := 2 |}).
Proof. reflexivity. Qed.

(** [test_failed_parsing], [test_bad_datatype], [test_array_not_implemented]:
    one warning each. *)
Example one_warning_each :
  warnings (_parse_schema_and_data sample_uuid4 0 [bad_row]) =
    ["Failed to parse line: bad line"] /\
  warnings (_parse_schema_and_data sample_uuid4 0
              [["featurestores"; "benchmark_featurestore"; "entityTypes"; "human";
                "entities"; "bob"; "features"; "height"; "featureDataTypes";
                "int63"; "featureValues"; "4"]]) =
    ["Unknown datatype: INT63"] /\
  warnings (_parse_schema_and_data sample_uuid4 0 [array_row]) =
    ["Uploading array value types not currently supported."].
Proof. repeat split. Qed.

(** [test_parse_download] and [test_write_to_file] of the exporter: the
    staged CSV of the test is decoded and written as the expected row. *)
Example export_and_write :
  let staged :=
    [["feature_timestamp"; "entity_type_entity-type-id"; "feature-id"];
     ["2022-08-02 21:30:40.761 UTC"; "entity-id"; "feature-value"]] in
  let data :=
    _process_entities_and_features "entity-type-id"
      {| features_metadata := [("feature-id", {| data_type := STRING |})];
         entities := [] |} staged in
  written_rows [("featurestore-id", {| entity_types := [("entity-type-id", data)] |})] =
  [["featurestores"; "featurestore-id"; "entityTypes"; "entity-type-id";
    "entities"; "entity-id"; "features"; "feature-id"; "featureDataTypes";
    "STRING"; "featureValues"; "feature-value"]].
Proof. reflexivity. Qed.

(** * Further properties of the importer's parser *)

Section ParserInvariants.
Variable uuid4 : nat -> string.

Lemma parse_rows_preserves (P : ImportState -> Prop) :
  (forall st row, P st -> P (parse_row uuid4 st row)) ->
  forall rows st, P st -> P (parse_rows uuid4 st rows).
Proof.
  intros Hstep rows. induction rows as [|row rows IH]; intros st H; simpl.
  - exact H.
  - apply IH. apply Hstep. exact H.
Qed.

Lemma inferred_type_warnings known tok :
  match inferred_type known tok with
  | Some _ => metadata_warnings known tok = []
  | None => exists w, metadata_warnings known tok = [w]
  end.
Proof.
  unfold inferred_type, metadata_warnings. destruct known as [t|]; auto.
  destruct (ValueType_getitem (upper tok)) as [t|]; [|eauto].
  destruct (is_array_type t); eauto.
Qed.

Lemma value_needs_metadata_step st row :
  (forall k et e f v, value_of (featurestores st) k et e f = Some v ->
                      metadata_of (featurestores st) k et f <> None) ->
  forall k et e f v,
    value_of (featurestores (parse_row uuid4 st row)) k et e f = Some v ->
    metadata_of (featurestores (parse_row uuid4 st row)) k et f <> None.
Proof.
  intros Inv k et e f v.
  destruct (Nat.eq_dec (length row) 12) as [L|L].
  - rewrite parse_row_wellformed by exact L.
    rewrite value_of_store_values, metadata_of_store_values.
    set (k0 := mapped_id uuid4 st (nth 1 row "")).
    destruct (inferred_type (metadata_of (featurestores st) k0 (nth 3 row "")
                               (nth 7 row "")) (nth 9 row "")) as [t|] eqn:I.
    + destruct (String.eqb k0 k && String.eqb (nth 3 row "") et) eqn:M1; simpl.
      * destruct (String.eqb (nth 5 row "") e); simpl.
        -- destruct (String.eqb (nth 7 row "") f); [discriminate|]. apply Inv.
        -- destruct (String.eqb (nth 7 row "") f); [discriminate|]. apply Inv.
      * apply Inv.
    + destruct (String.eqb k0 k && String.eqb (nth 3 row "") et
                && String.eqb (nth 7 row "") f) eqn:M; [|apply Inv].
      apply andb_true_iff in M. destruct M as [M Ef].
      apply andb_true_iff in M. destruct M as [Ek Eet].
      apply String.eqb_eq in Ek, Eet, Ef. subst k et f.
      intros V. apply Inv in V. unfold inferred_type in I.
      destruct (metadata_of (featurestores st) k0 (nth 3 row "") (nth 7 row ""));
        congruence.
  - rewrite parse_row_malformed by exact L. apply Inv.
Qed.

Lemma no_array_metadata_step st row :
  (forall k et f t, metadata_of (featurestores st) k et f = Some t ->
                    is_array_type t = false) ->
  forall k et f t,
    metadata_of (featurestores (parse_row uuid4 st row)) k et f = Some t ->
    is_array_type t = false.
Proof.
  intros Inv k et f t.
  destruct (Nat.eq_dec (length row) 12) as [L|L].
  - rewrite parse_row_wellformed by exact L. rewrite metadata_of_store_values.
    destruct (_ && _ && _); [|apply Inv].
    apply inferred_type_not_array. apply Inv.
  - rewrite parse_row_malformed by exact L. apply Inv.
Qed.
End ParserInvariants.

(** X1: after any file has been parsed, a feature of an entity holds a
    value only if the entity type has recorded metadata for that feature, and
    no recorded metadata is an array type. *)
Theorem X1_values_have_scalar_metadata :
  forall (uuid4 : nat -> string) (n : nat) (rows : list Row)
         (k et e f v : string),
    let m := featurestores (_parse_schema_and_data uuid4 n rows) in
    (value_of m k et e f = Some v ->
     exists t, metadata_of m k et f = Some t /\ is_array_type t = false) /\
    (forall t, metadata_of m k et f = Some t -> is_array_type t = false).
Proof.
  intros uuid4 n rows k et e f v m.
  assert (H2 : forall k et f t, metadata_of m k et f = Some t ->
                                is_array_type t = false).
  { unfold m, _parse_schema_and_data.
    apply (parse_rows_preserves uuid4
             (fun st => forall k et f t,
                  metadata_of (featurestores st) k et f = Some t ->
                  is_array_type t = false)).
    - intros st row. apply no_array_metadata_step.
    - discriminate. }
  split; [|apply H2].
  intros V.
  assert (H1 : metadata_of m k et f <> None).
  { revert V. unfold m, _parse_schema_and_data. revert k et e f v.
    apply (parse_rows_preserves uuid4
             (fun st => forall k et e f v,
                  value_of (featurestores st) k et e f = Some v ->
                  metadata_of (featurestores st) k et f <> None)).
    - intros st row. apply value_needs_metadata_step.
    - discriminate. }
  destruct (metadata_of m k et f) as [t|] eqn:Md; [|congruence].
  exists t. split; auto. now apply (H2 k et f).
Qed.

Lemma dict_length_set V (d : Dict.t V) k v :
  length (Dict.set d k v) =
  if Dict.contains d k then length d else S (length d).
Proof.
  unfold Dict.contains. induction d as [|[k' v'] d IH]; simpl; auto.
  destruct (String.eqb k' k); simpl; auto.
  rewrite IH. now destruct (Dict.get d k).
Qed.

Lemma dict_contains_get V (d : Dict.t V) k :
  Dict.contains d k = true <-> Dict.get d k <> None.
Proof.
  unfold Dict.contains. destruct (Dict.get d k); split; congruence.
Qed.

Section IdMapFacts.
Variable uuid4 : nat -> string.

Lemma id_map_domain_step st row fs :
  Dict.get (featurestore_id_map (parse_row uuid4 st row)) fs <> None <->
  Dict.get (featurestore_id_map st) fs <> None \/
  (length row = 12 /\ nth 1 row "" = fs).
Proof.
  destruct (Nat.eq_dec (length row) 12) as [L|L].
  - rewrite parse_row_wellformed by exact L. rewrite id_map_store_values.
    eqb_case (nth 1 row "") fs.
    + split; [auto | discriminate].
    + split; [auto | intros [H|[_ H]]; [exact H | contradiction]].
  - rewrite parse_row_malformed by exact L. simpl.
    split; [auto | intros [H|[H _]]; [exact H | contradiction]].
Qed.

Lemma id_map_domain_rows rows st fs :
  Dict.get (featurestore_id_map (parse_rows uuid4 st rows)) fs <> None <->
  Dict.get (featurestore_id_map st) fs <> None \/
  exists row, In row rows /\ length row = 12 /\ nth 1 row "" = fs.
Proof.
  revert st. induction rows as [|row rows IH]; intros st; simpl.
  - split; [auto | intros [H|[row [[] _]]]; exact H].
  - change (fold_left (parse_row uuid4) rows (parse_row uuid4 st row))
      with (parse_rows uuid4 (parse_row uuid4 st row) rows).
    rewrite IH, id_map_domain_step. split.
    + intros [[H|[L E]]|[r [Hin [L E]]]]; eauto 6.
    + intros [H|[r [[<-|Hin] [L E]]]]; eauto 6.
Qed.

Lemma uuid_count_step st row n :
  uuid_calls st = n + length (featurestore_id_map st) ->
  Dict.wf (featurestore_id_map st) ->
  uuid_calls (parse_row uuid4 st row)
    = n + length (featurestore_id_map (parse_row uuid4 st row)) /\
  Dict.wf (featurestore_id_map (parse_row uuid4 st row)).
Proof.
  intros Hc Hwf. destruct (Nat.eq_dec (length row) 12) as [L|L].
  - rewrite parse_row_wellformed by exact L. rewrite store_values_eq.
    cbv zeta. cbn [uuid_calls featurestore_id_map].
    destruct (Dict.contains (featurestore_id_map st) (nth 1 row "")) eqn:C.
    + now split.
    + rewrite dict_length_set, C. split; [lia | now apply dict_wf_set].
  - rewrite parse_row_malformed by exact L. now split.
Qed.

Lemma featurestore_keys_step st row :
  (forall k, Dict.get (featurestores st) k <> None <->
             exists fs, Dict.get (featurestore_id_map st) fs = Some k) ->
  forall k,
    Dict.get (featurestores (parse_row uuid4 st row)) k <> None <->
    exists fs, Dict.get (featurestore_id_map (parse_row uuid4 st row)) fs = Some k.
Proof.
  intros Inv k. destruct (Nat.eq_dec (length row) 12) as [L|L].
  - rewrite parse_row_wellformed by exact L.
    set (fs0 := nth 1 row "").
    assert (Hid : forall fs,
               Dict.get (featurestore_id_map
                           (_store_values uuid4 st fs0 (nth 3 row "")
                              (nth 5 row "") (nth 7 row "") (nth 9 row "")
                              (nth 11 row ""))) fs =
               if String.eqb fs0 fs then Some (mapped_id uuid4 st fs0)
               else Dict.get (featurestore_id_map st) fs)
      by (intros fs; apply id_map_store_values).
    rewrite store_values_eq. cbv zeta. cbn [featurestores].
    rewrite store_values_eq in Hid. cbv zeta in Hid.
    cbn [featurestore_id_map] in Hid.
    rewrite dict_get_set. fold fs0.
    set (k0 := mapped_id uuid4 st fs0) in *.
    eqb_case k0 k.
    + split; [|discriminate]. intros _. exists fs0.
      rewrite Hid, String.eqb_refl. now subst.
    + rewrite Inv. split.
      * intros [fs G]. exists fs. rewrite Hid. eqb_case fs0 fs; auto.
        subst fs. unfold k0, mapped_id in E. rewrite G in E. contradiction.
      * intros [fs G]. rewrite Hid in G. eqb_case fs0 fs.
        -- injection G as G. contradiction.
        -- eauto.
  - rewrite parse_row_malformed by exact L. apply Inv.
Qed.
End IdMapFacts.

(** X2: after a file has been parsed, the identifier map has one entry
    for each featurestore identifier that a twelve-token line of the file
    names, and no other; one UUID was drawn per entry; and the featurestores
    of the model are exactly those stored under the mapped identifiers. *)
Theorem X2_one_remapped_featurestore_per_identifier :
  forall (uuid4 : nat -> string) (n : nat) (rows : list Row),
    let st := _parse_schema_and_data uuid4 n rows in
    uuid_calls st = n + length (featurestore_id_map st) /\
    NoDup (Dict.keys (featurestore_id_map st)) /\
    (forall fs,
        Dict.get (featurestore_id_map st) fs <> None <->
        exists row, In row rows /\ length row = 12 /\ nth 1 row "" = fs) /\
    (forall k,
        Dict.get (featurestores st) k <> None <->
        exists fs, Dict.get (featurestore_id_map st) fs = Some k).
Proof.
  intros uuid4 n rows st.
  assert (H1 : uuid_calls st = n + length (featurestore_id_map st) /\
               Dict.wf (featurestore_id_map st)).
  { unfold st, _parse_schema_and_data.
    apply (parse_rows_preserves uuid4
             (fun s => uuid_calls s = n + length (featurestore_id_map s) /\
                       Dict.wf (featurestore_id_map s))).
    - intros s row [Hc Hwf]. now apply uuid_count_step.
    - simpl. split; [lia | constructor]. }
  split; [apply H1|]. split; [apply H1|]. split.
  - intros fs. unfold st, _parse_schema_and_data.
    rewrite id_map_domain_rows. simpl. split.
    + intros [H|H]; [congruence | exact H].
    + auto.
  - unfold st, _parse_schema_and_data.
    apply (parse_rows_preserves uuid4
             (fun s => forall k,
                  Dict.get (featurestores s) k <> None <->
                  exists fs, Dict.get (featurestore_id_map s) fs = Some k)).
    + intros s row. apply featurestore_keys_step.
    + intros k. simpl. split; [congruence | intros [fs H]; discriminate].
Qed.

(** X3: no line is dropped silently.  A row either is stored (it has
    twelve tokens, its value is the value of its entity's feature afterwards,
    the feature has recorded metadata, and nothing is logged) or changes no
    metadata and no value and logs exactly one warning.  A file therefore
    logs at most one warning per row. *)
Theorem X3_row_stored_or_reported :
  forall (uuid4 : nat -> string) (st : ImportState) (row : Row) (rows : list Row),
    let st' := parse_row uuid4 st row in
    let k := mapped_id uuid4 st (nth 1 row "") in
    ((length row = 12 /\
      warnings st' = warnings st /\
      value_of (featurestores st') k (nth 3 row "") (nth 5 row "") (nth 7 row "")
        = Some (nth 11 row "") /\
      metadata_of (featurestores st') k (nth 3 row "") (nth 7 row "") <> None)
     \/
     ((exists w, warnings st' = warnings st ++ [w]) /\
      (forall k' et f,
          metadata_of (featurestores st') k' et f =
          metadata_of (featurestores st) k' et f) /\
      (forall k' et e f,
          value_of (featurestores st') k' et e f =
          value_of (featurestores st) k' et e f))) /\
    length (warnings (parse_rows uuid4 st rows))
      <= length (warnings st) + length rows.
Proof.
  intros uuid4 st row rows st' k. split.
  - destruct (Nat.eq_dec (length row) 12) as [L|L].
    + unfold st'. rewrite parse_row_wellformed by exact L.
      pose proof (inferred_type_warnings
                    (metadata_of (featurestores st) k (nth 3 row "") (nth 7 row ""))
                    (nth 9 row "")) as W.
      destruct (inferred_type
                  (metadata_of (featurestores st) k (nth 3 row "") (nth 7 row ""))
                  (nth 9 row "")) as [t|] eqn:I.
      * left. split; [exact L|]. split; [|split].
        -- rewrite store_values_eq. cbv zeta. cbn [warnings]. fold k.
           rewrite target_entity_type_meta, W. apply app_nil_r.
        -- rewrite value_of_store_values. fold k.
           now rewrite I, !String.eqb_refl.
        -- rewrite metadata_of_store_values. fold k.
           rewrite I, !String.eqb_refl. discriminate.
      * right. split; [|split].
        -- destruct W as [w W]. exists w.
           rewrite store_values_eq. cbv zeta. cbn [warnings]. fold k.
           now rewrite target_entity_type_meta, W.
        -- intros k' et f. rewrite metadata_of_store_values. fold k.
           destruct (String.eqb k k' && String.eqb (nth 3 row "") et
                     && String.eqb (nth 7 row "") f) eqn:M; auto.
           apply andb_true_iff in M. destruct M as [M Ef].
           apply andb_true_iff in M. destruct M as [Ek Eet].
           apply String.eqb_eq in Ek, Eet, Ef. subst k' et f. rewrite I.
           unfold inferred_type in I.
           destruct (metadata_of (featurestores st) k (nth 3 row "")
                       (nth 7 row "")); [discriminate | reflexivity].
        -- intros k' et e f. rewrite value_of_store_values. fold k.
           now rewrite I.
    + right. unfold st'. rewrite parse_row_malformed by exact L. simpl.
      split; [eauto | split; reflexivity].
  - clear st' k row. revert st.
    induction rows as [|row rows IH]; intros st; simpl; [lia|].
    change (fold_left (parse_row uuid4) rows (parse_row uuid4 st row))
      with (parse_rows uuid4 (parse_row uuid4 st row) rows).
    specialize (IH (parse_row uuid4 st row)).
    assert (Hrow : length (warnings (parse_row uuid4 st row))
                   <= S (length (warnings st))).
    { destruct (Nat.eq_dec (length row) 12) as [L|L].
      - rewrite parse_row_wellformed by exact L.
        rewrite store_values_eq. cbv zeta. cbn [warnings].
        rewrite length_app.
        match goal with
        | |- context [metadata_warnings ?a ?b] =>
            pose proof (inferred_type_warnings a b) as W;
            destruct (inferred_type a b)
        end.
        + rewrite W. simpl. lia.
        + destruct W as [w W]. rewrite W. simpl. lia.
      - rewrite parse_row_malformed by exact L. simpl.
        rewrite length_app. simpl. lia. }
    lia.
Qed.

(** ** The parser keeps its dictionaries well formed *)

Lemma Forall_dict_set V (Q : V -> Prop) (d : Dict.t V) k v :
  Forall (fun kv => Q (snd kv)) d -> Q v ->
  Forall (fun kv => Q (snd kv)) (Dict.set d k v).
Proof.
  intros H Hv. induction H as [|[k' v'] d Hx H IH]; simpl.
  - repeat constructor. exact Hv.
  - destruct (String.eqb k' k); constructor; auto.
Qed.

Lemma Forall_dict_getitem V (Q : V -> Prop) (d : Dict.t V) dflt k :
  Forall (fun kv => Q (snd kv)) d -> Q dflt ->
  Q (fst (Dict.getitem dflt d k)).
Proof.
  intros H Hd. unfold Dict.getitem.
  destruct (Dict.get d k) as [v|] eqn:G; simpl; auto.
  apply dict_get_In in G. rewrite Forall_forall in H. apply (H _ G).
Qed.

Lemma wf_entity_type_default : wf_entity_type EntityType_default.
Proof. repeat split; constructor. Qed.

Lemma wf_set_feature_value T e f v :
  wf_entity_type T -> wf_entity_type (set_feature_value T e f v).
Proof.
  intros [Hmd [Hents Hall]]. rewrite set_feature_value_eq.
  split; [exact Hmd|]. split; simpl.
  - now apply dict_wf_set.
  - apply Forall_dict_set; auto. unfold wf_entity. simpl.
    apply dict_wf_set.
    apply (Forall_dict_getitem (fun E => Dict.wf (features E))); auto.
    constructor.
Qed.

Lemma wf_stored_entity_type T e f tok v :
  wf_entity_type T -> wf_entity_type (stored_entity_type T e f tok v).
Proof.
  intros Hwf. unfold stored_entity_type.
  destruct (et_meta T f) as [t|] eqn:Hm.
  - rewrite (set_feature_metadata_known _ tok _ Hm).
    now apply wf_set_feature_value.
  - destruct (inferred_type None tok) as [t|] eqn:Hi.
    + rewrite (set_feature_metadata_new _ _ _ Hm Hi).
      apply wf_set_feature_value. destruct Hwf as [Hmd [Hents Hall]].
      split; [|split]; simpl; auto. now apply dict_wf_set.
    + now rewrite (set_feature_metadata_rejected _ _ _ Hm Hi).
Qed.

Lemma wf_model_parse_row uuid4 st row :
  wf_model (featurestores st) ->
  wf_model (featurestores (parse_row uuid4 st row)).
Proof.
  intros [Hwf Hall]. destruct (Nat.eq_dec (length row) 12) as [L|L].
  - rewrite parse_row_wellformed by exact L. rewrite store_values_eq.
    cbv zeta. cbn [featurestores].
    set (k := mapped_id uuid4 st (nth 1 row "")).
    assert (HFS : wf_featurestore
                    (fst (Dict.getitem Featurestore_default (featurestores st) k))).
    { apply (Forall_dict_getitem wf_featurestore); auto.
      split; constructor. }
    split; [now apply dict_wf_set|].
    apply Forall_dict_set; auto.
    destruct HFS as [HwfFS HallFS]. split; simpl.
    + now apply dict_wf_set.
    + apply Forall_dict_set; auto. apply wf_stored_entity_type.
      unfold target_entity_type.
      apply (Forall_dict_getitem wf_entity_type); auto.
      apply wf_entity_type_default.
  - now rewrite parse_row_malformed by exact L.
Qed.

Lemma wf_model_parsed uuid4 n rows :
  wf_model (featurestores (_parse_schema_and_data uuid4 n rows)).
Proof.
  unfold _parse_schema_and_data.
  apply (parse_rows_preserves uuid4 (fun st => wf_model (featurestores st))).
  - intros st row. apply wf_model_parse_row.
  - split; constructor.
Qed.

Lemma parsed_metadata_not_array uuid4 n rows k et f t :
  metadata_of (featurestores (_parse_schema_and_data uuid4 n rows)) k et f = Some t ->
  is_array_type t = false.
Proof.
  unfold _parse_schema_and_data. revert k et f t.
  apply (parse_rows_preserves uuid4
           (fun st => forall k et f t,
                metadata_of (featurestores st) k et f = Some t ->
                is_array_type t = false)).
  - intros st row. apply no_array_metadata_step.
  - discriminate.
Qed.

Lemma parsed_value_has_metadata uuid4 n rows k et e f v :
  value_of (featurestores (_parse_schema_and_data uuid4 n rows)) k et e f = Some v ->
  metadata_of (featurestores (_parse_schema_and_data uuid4 n rows)) k et f <> None.
Proof.
  unfold _parse_schema_and_data. revert k et e f v.
  apply (parse_rows_preserves uuid4
           (fun st => forall k et e f v,
                value_of (featurestores st) k et e f = Some v ->
                metadata_of (featurestores st) k et f <> None)).
  - intros st row. apply value_needs_metadata_step.
  - discriminate.
Qed.

Lemma model_type_metadata m fs et f :
  model_type m fs et f =
  match metadata_of m fs et f with
  | Some t => t
  | None => VALUE_TYPE_UNSPECIFIED
  end.
Proof.
  unfold model_type, metadata_of, type_of, type_in, et_meta.
  destruct (find_entity_type m fs et) as [T|]; auto.
  now destruct (Dict.get (features_metadata T) f).
Qed.

Lemma scalar_rows_log_nothing uuid4 rows :
  (forall row, In row rows ->
     exists k et e f t v,
       row = line_data k et e f (ValueType_name t) v /\ is_array_type t = false) ->
  forall st, warnings (parse_rows uuid4 st rows) = warnings st.
Proof.
  induction rows as [|row rows IH]; intros H st; simpl; auto.
  change (fold_left (parse_row uuid4) rows (parse_row uuid4 st row))
    with (parse_rows uuid4 (parse_row uuid4 st row) rows).
  rewrite IH by (intros r Hr; apply H; now right).
  destruct (H row (or_introl eq_refl)) as [k [et [e [f [t [v [-> A]]]]]]].
  change (parse_row uuid4 st (line_data k et e f (ValueType_name t) v))
    with (_store_values uuid4 st k et e f (ValueType_name t) v).
  rewrite store_values_eq. cbv zeta. cbn [warnings].
  match goal with
  | |- context [metadata_warnings ?a ?b] =>
      pose proof (inferred_type_warnings a b) as W;
      assert (I : inferred_type a b <> None)
  end.
  { unfold inferred_type.
    destruct (et_meta _ f); [discriminate|].
    rewrite ValueType_name_upper, ValueType_getitem_name, A. discriminate. }
  match type of W with
  | match ?x with _ => _ end => destruct x; [|congruence]
  end.
  rewrite W. apply app_nil_r.
Qed.

(** X4: the model a parse yields is exported as lines that a parse
    accepts.  Every row written for it names a featurestore, entity type,
    entity and feature with the value the model holds, and carries the name
    of the feature's recorded type, which is not an array type; parsing the
    written file again logs no warning. *)
Theorem X4_export_of_parsed_model_reimports_cleanly :
  forall (uuid4 uuid4' : nat -> string) (n n' : nat) (rows : list Row),
    let m := featurestores (_parse_schema_and_data uuid4 n rows) in
    (forall row, In row (written_rows m) ->
       exists k et e f t v,
         row = line_data k et e f (ValueType_name t) v /\
         is_array_type t = false /\
         metadata_of m k et f = Some t /\
         value_of m k et e f = Some v) /\
    warnings (_parse_schema_and_data uuid4' n' (written_rows m)) = [].
Proof.
  intros uuid4 uuid4' n n' rows m.
  assert (Hwf : wf_model m) by apply wf_model_parsed.
  assert (H : forall row, In row (written_rows m) ->
                exists k et e f t v,
                  row = line_data k et e f (ValueType_name t) v /\
                  is_array_type t = false /\
                  metadata_of m k et f = Some t /\
                  value_of m k et e f = Some v).
  { intros row Hin. rewrite written_rows_encode in Hin.
    apply in_map_iff in Hin.
    destruct Hin as [[[[[[k et] e] f] t] v] [<- Hin]].
    assert (V : value_of m k et e f = Some v)
      by (apply (@combinations_value_of m k et e f v Hwf); eauto).
    pose proof (@combinations_type m k et e f t v Hwf Hin) as Et.
    rewrite model_type_metadata in Et.
    pose proof (parsed_value_has_metadata uuid4 n rows k et e f V) as Md.
    fold m in Md.
    destruct (metadata_of m k et f) as [t'|] eqn:G; [|congruence].
    subst t'. exists k, et, e, f, t, v. repeat split; auto.
    now apply (parsed_metadata_not_array uuid4 n rows k et f). }
  split; [exact H|].
  unfold _parse_schema_and_data. rewrite scalar_rows_log_nothing; auto.
  intros row Hin. destruct (H row Hin) as [k [et [e [f [t [v [E [A _]]]]]]]].
  exists k, et, e, f, t, v. now split.
Qed.

(** * Further properties of the exporter's decoding of the staged CSV *)

Lemma process_data_line_fold entity_type_id d header values :
  _process_data_line entity_type_id d header values =
  snd (fold_left (process_column entity_type_id) (combine header values) ("", d)).
Proof.
  reflexivity.
Qed.

Lemma process_columns_cons entity_type_id n v l eid d :
  fold_left (process_column entity_type_id) ((n, v) :: l) (eid, d) =
  fold_left (process_column entity_type_id) l
    (if String.eqb n ("entity_type_" +++ entity_type_id) then (v, d)
     else if String.eqb n "feature_timestamp" then (eid, d)
     else (eid, set_feature_value d eid n v)).
Proof. reflexivity. Qed.

Lemma process_columns_metadata entity_type_id l acc :
  features_metadata (snd (fold_left (process_column entity_type_id) l acc)) =
  features_metadata (snd acc).
Proof.
  revert acc. induction l as [|[n v] l IH]; intros [eid d]; [reflexivity|].
  rewrite process_columns_cons, IH.
  destruct (String.eqb n ("entity_type_" +++ entity_type_id)); auto.
  destruct (String.eqb n "feature_timestamp"); auto.
  cbn [snd]. now rewrite set_feature_value_eq.
Qed.

(** A value is changed only for the current entity identifier or one given
    by an entity-identifier column, and only for a column that is not
    reserved. *)
Lemma process_columns_frame entity_type_id l eid d e f :
  reserved_column entity_type_id f = true \/
  ~ In f (map fst l) \/
  (e <> eid /\
   forall v, ~ In ("entity_type_" +++ entity_type_id, v) l \/ v <> e) ->
  et_value (snd (fold_left (process_column entity_type_id) l (eid, d))) e f =
  et_value d e f.
Proof.
  revert eid d. induction l as [|[n v] l IH]; intros eid d H; [reflexivity|].
  rewrite process_columns_cons.
  destruct (String.eqb n ("entity_type_" +++ entity_type_id)) eqn:Eid.
  - apply String.eqb_eq in Eid. subst n. apply IH.
    destruct H as [H|[H|[Hne H]]]; auto.
    + right. left. intros Hin. apply H. now right.
    + right. right. split.
      * destruct (H v) as [Hn|Hn]; [|congruence].
        exfalso. apply Hn. now left.
      * intros v'. destruct (H v') as [Hn|Hn]; auto.
        left. intros Hin. apply Hn. now right.
  - destruct (String.eqb n "feature_timestamp") eqn:Ets.
    + apply IH. destruct H as [H|[H|[Hne H]]]; auto.
      * right. left. intros Hin. apply H. now right.
      * right. right. split; auto.
        intros v'. destruct (H v') as [Hn|Hn]; auto.
        left. intros Hin. apply Hn. now right.
    + rewrite IH.
      * rewrite et_value_set_feature_value.
        destruct (String.eqb eid e && String.eqb n f) eqn:M; auto.
        apply andb_true_iff in M. destruct M as [Ee Ef].
        apply String.eqb_eq in Ee, Ef. subst e f. exfalso.
        destruct H as [H|[H|[Hne _]]].
        -- unfold reserved_column in H. rewrite Eid, Ets in H. discriminate.
        -- apply H. now left.
        -- now apply Hne.
      * destruct H as [H|[H|[Hne H]]]; auto.
        -- right. left. intros Hin. apply H. now right.
        -- right. right. split; auto.
           intros v'. destruct (H v') as [Hn|Hn]; auto.
           left. intros Hin. apply Hn. now right.
Qed.

Lemma process_entities_fold entity_type_id d header data_rows :
  _process_entities_and_features entity_type_id d (header :: data_rows) =
  fold_left (fun data row => _process_data_line entity_type_id data header row)
    data_rows d.
Proof. reflexivity. Qed.

(** X5: decoding the staged CSV never changes the feature metadata of
    the entity type, never stores a value under the reserved column names
    ([feature_timestamp] and the entity-identifier column), and leaves the
    data unchanged when the CSV is empty or holds only a header. *)
Theorem X5_decoding_keeps_metadata_and_reserved_columns :
  forall (entity_type_id : string) (d : EntityType) (csv_rows : list Row),
    let d' := _process_entities_and_features entity_type_id d csv_rows in
    features_metadata d' = features_metadata d /\
    (forall e f, reserved_column entity_type_id f = true ->
                 et_value d' e f = et_value d e f) /\
    (length csv_rows <= 1 -> d' = d).
Proof.
  intros et_id d csv_rows d'. subst d'.
  destruct csv_rows as [|header data_rows]; [repeat split|].
  rewrite process_entities_fold. split; [|split].
  - revert d. induction data_rows as [|row data_rows IH]; intros d; simpl; auto.
    rewrite IH, process_data_line_fold. apply process_columns_metadata.
  - intros e f R. revert d.
    induction data_rows as [|row data_rows IH]; intros d; simpl; auto.
    rewrite IH, process_data_line_fold. apply process_columns_frame. now left.
  - simpl. intros L. destruct data_rows; [reflexivity | simpl in L; lia].
Qed.

Lemma map_fst_combine A B (a : list A) (b : list B) :
  length a = length b -> map fst (combine a b) = a.
Proof.
  revert b. induction a as [|x a IH]; intros [|y b] L; simpl in *;
    try discriminate; auto.
  f_equal. apply IH. lia.
Qed.

Lemma not_in_combine_fst A B (a : list A) (b : list B) x :
  ~ In x a -> ~ In x (map fst (combine a b)).
Proof.
  intros H Hin. apply H. apply in_map_iff in Hin.
  destruct Hin as [[x' y] [<- Hin]]. now apply in_combine_l in Hin.
Qed.

Lemma process_columns_regular entity_type_id l eid d f v :
  NoDup (map fst l) ->
  (forall c, In c (map fst l) -> reserved_column entity_type_id c = false) ->
  In (f, v) l ->
  et_value (snd (fold_left (process_column entity_type_id) l (eid, d))) eid f
    = Some v.
Proof.
  revert d. induction l as [|[n v0] l IH]; intros d Hnd Hres Hin; [destruct Hin|].
  rewrite process_columns_cons.
  assert (R : reserved_column entity_type_id n = false)
    by (apply Hres; now left).
  unfold reserved_column in R. apply orb_false_iff in R. destruct R as [R1 R2].
  rewrite R1, R2. simpl in Hnd. inversion Hnd as [|? ? Hnot Hnd']; subst.
  destruct Hin as [Hin|Hin].
  - injection Hin as -> ->.
    rewrite process_columns_frame by (right; left; exact Hnot).
    now rewrite et_value_set_feature_value, !String.eqb_refl.
  - apply IH; auto. intros c Hc. apply Hres. now right.
Qed.

(** X6: a data row whose header starts with the entity-identifier column
    followed by distinct feature columns, none of them reserved, gives the
    entity of its first field the value of every column, and changes nothing
    else. *)
Theorem X6_data_row_decoded :
  forall (entity_type_id : string) (d : EntityType) (e : string)
         (cols vals : list string),
    length cols = length vals ->
    NoDup cols ->
    (forall c, In c cols -> reserved_column entity_type_id c = false) ->
    let d' := _process_data_line entity_type_id d
                (("entity_type_" +++ entity_type_id) :: cols) (e :: vals) in
    (forall f v, In (f, v) (combine cols vals) -> et_value d' e f = Some v) /\
    (forall e' f', e' <> e \/ ~ In f' cols ->
                   et_value d' e' f' = et_value d e' f').
Proof.
  intros et_id d e cols vals L Hnd Hres d'.
  assert (Hd : d' = snd (fold_left (process_column et_id) (combine cols vals) (e, d))).
  { unfold d'. rewrite process_data_line_fold.
    change (combine (("entity_type_" +++ et_id) :: cols) (e :: vals))
      with (("entity_type_" +++ et_id, e) :: combine cols vals).
    rewrite process_columns_cons. now rewrite String.eqb_refl. }
  rewrite Hd. split.
  - intros f v Hin. apply process_columns_regular; auto;
      rewrite map_fst_combine by exact L; auto.
  - intros e' f' H. apply process_columns_frame.
    destruct H as [H|H].
    + right. right. split; auto. intros v. left. intros Hin.
      apply in_combine_l in Hin. apply Hres in Hin.
      unfold reserved_column in Hin. now rewrite String.eqb_refl in Hin.
    + right. left. now apply not_in_combine_fst.
Qed.

(** X7: the current entity identifier of a data row is the empty string
    until an entity-identifier column is met.  A CSV whose header lacks that
    column writes only to the entity with the empty identifier, and the value
    of a first column that is not reserved is stored under the empty
    identifier whatever follows, provided the column name is not repeated. *)
Theorem X7_rows_without_identifier_column :
  forall (entity_type_id : string) (d : EntityType) (header : Row)
         (data_rows : list Row),
    (~ In ("entity_type_" +++ entity_type_id) header ->
     forall e f, e <> "" ->
       et_value (_process_entities_and_features entity_type_id d
                   (header :: data_rows)) e f = et_value d e f) /\
    (forall f v rest_header rest_values,
        reserved_column entity_type_id f = false ->
        ~ In f rest_header ->
        et_value (_process_data_line entity_type_id d (f :: rest_header)
                    (v :: rest_values)) "" f = Some v).
Proof.
  intros et_id d header data_rows. split.
  - intros Hno e f He. rewrite process_entities_fold. revert d.
    induction data_rows as [|row data_rows IH]; intros d; simpl; auto.
    rewrite IH, process_data_line_fold. apply process_columns_frame.
    right. right. split; auto. intros v. left. intros Hin.
    now apply in_combine_l in Hin.
  - intros f v rest_header rest_values R Hnot.
    rewrite process_data_line_fold.
    change (combine (f :: rest_header) (v :: rest_values))
      with ((f, v) :: combine rest_header rest_values).
    rewrite process_columns_cons.
    unfold reserved_column in R. apply orb_false_iff in R. destruct R as [R1 R2].
    rewrite R1, R2.
    rewrite process_columns_frame
      by (right; left; now apply not_in_combine_fst).
    now rewrite et_value_set_feature_value, !String.eqb_refl.
Qed.

(** X6 at the header and row of a staged CSV for the entity type [human]:
    both values are stored for [bob], and no other entity gets a value. *)
Lemma X6_data_row_decoded_witness :
  length ["height"; "awake"] = length ["4"; "True"] /\
  NoDup ["height"; "awake"] /\
  et_value (_process_data_line "human" EntityType_default
              ["entity_type_human"; "height"; "awake"] ["bob"; "4"; "True"])
    "bob" "awake" = Some "True" /\
  et_value (_process_data_line "human" EntityType_default
              ["entity_type_human"; "height"; "awake"] ["bob"; "4"; "True"])
    "sally" "height" = None.
Proof.
  assert (L : length ["height"; "awake"] = length ["4"; "True"]) by reflexivity.
  assert (N : NoDup ["height"; "awake"]).
  { repeat constructor; simpl; intuition discriminate. }
  assert (R : forall c, In c ["height"; "awake"] -> reserved_column "human" c = false).
  { intros c [<-|[<-|[]]]; reflexivity. }
  destruct (@X6_data_row_decoded "human" EntityType_default "bob"
              ["height"; "awake"] ["4"; "True"] L N R) as [H1 H2].
  split; [exact L|]. split; [exact N|]. split.
  - apply H1. simpl. auto.
  - rewrite H2; [reflexivity|]. left. discriminate.
Defined.

(** X7 at a staged CSV whose header lacks the identifier column: the values
    land under the empty entity identifier, and [bob] gets none. *)
Lemma X7_rows_without_identifier_column_witness :
  et_value (_process_entities_and_features "human" EntityType_default
              [["height"]; ["4"]]) "bob" "height" = None /\
  et_value (_process_data_line "human" EntityType_default ["height"] ["4"])
    "" "height" = Some "4".
Proof.
  destruct (@X7_rows_without_identifier_column "human" EntityType_default
              ["height"] [["4"]]) as [H1 H2].
  split.
  - rewrite H1; [reflexivity| |discriminate].
    intros [E|[]]. discriminate.
  - apply H2; [reflexivity|]. intros [].
Defined.

(** * Further properties of the importer's upload *)

Section UploadFacts.
Variable Exn : Type.
Variable uuid4 : nat -> string.
Variable gcs_path : string.
Variable raises : Trace Exn -> Call -> option Exn.

Lemma yields_ret A (Q : Trace Exn -> Prop) (a : A) :
  Q [] -> yields Q (ret (Exn:=Exn) a).
Proof. intros H w. exists []. simpl. now rewrite app_nil_r. Qed.

Lemma yields_bind A B (Q : Trace Exn -> Prop) (m : M Exn A) (k : A -> M Exn B) :
  (forall t1 t2, Q t1 -> Q t2 -> Q (t1 ++ t2)) ->
  yields Q m -> (forall a, yields Q (k a)) -> yields Q (bind m k).
Proof.
  intros Happ Hm Hk w. unfold bind. destruct (Hm w) as [t1 [E1 Q1]].
  destruct (m w) as [[a|x] w1]; simpl in *.
  - destruct (Hk a w1) as [t2 [E2 Q2]]. exists (t1 ++ t2).
    rewrite E2, E1, app_assoc. split; auto.
  - exists t1. now split.
Qed.

Lemma yields_for_each A (Q : Trace Exn -> Prop) (f : A -> M Exn unit) l :
  Q [] -> (forall t1 t2, Q t1 -> Q t2 -> Q (t1 ++ t2)) ->
  (forall a, In a l -> yields Q (f a)) -> yields Q (for_each l f).
Proof.
  intros Hnil Happ. induction l as [|a l IH]; intros Hf; simpl.
  - now apply yields_ret.
  - apply yields_bind; auto.
    + apply Hf. now left.
    + intros _. apply IH. intros a' H. apply Hf. now right.
Qed.

Lemma yields_try_finally A (Q : Trace Exn -> Prop) (m : M Exn A) c :
  (forall t1 t2, Q t1 -> Q t2 -> Q (t1 ++ t2)) ->
  yields Q m -> yields Q c -> yields Q (try_finally m c).
Proof.
  intros Happ Hm Hc w. unfold try_finally. destruct (Hm w) as [t1 [E1 Q1]].
  destruct (m w) as [r w1]. simpl in *. destruct (Hc w1) as [t2 [E2 Q2]].
  exists (t1 ++ t2). destruct (c w1) as [[u|y] w2]; simpl in *;
    rewrite E2, E1, app_assoc; split; auto.
Qed.

Lemma yields_call_Forall (P : Call -> Prop) c :
  P c -> yields (Forall (fun ce : Call * option Exn => P (fst ce))) (call raises c).
Proof.
  intros H w. exists [(c, raises (trace w) c)]. unfold call. simpl.
  split; auto.
Qed.

Lemma yields_draw_suffix (Q : Trace Exn -> Prop) :
  Q [] -> yields Q (draw_suffix (Exn:=Exn) uuid4).
Proof. intros H w. exists []. simpl. now rewrite app_nil_r. Qed.

Lemma yields_new_blob (P : Call -> Prop) path :
  (forall b, P (storage_blob b)) ->
  yields (Forall (fun ce : Call * option Exn => P (fst ce))) (new_blob raises path).
Proof.
  intros H w. unfold new_blob.
  apply (@yields_bind unit Blob
           (Forall (fun ce : Call * option Exn => P (fst ce)))
           (call raises (storage_blob {| blob_serial := length (trace w);
                                         blob_path := path |}))
           (fun _ => ret {| blob_serial := length (trace w); blob_path := path |})).
  - intros t1 t2 H1 H2. apply Forall_app. now split.
  - apply yields_call_Forall. apply H.
  - intros _. apply yields_ret. constructor.
Qed.

Lemma yields_bind_value A B (Q : Trace Exn -> Prop) (R : A -> Prop)
    (m : M Exn A) (k : A -> M Exn B) :
  (forall t1 t2, Q t1 -> Q t2 -> Q (t1 ++ t2)) ->
  (forall w a, fst (m w) = Returned a -> R a) ->
  yields Q m -> (forall a, R a -> yields Q (k a)) -> yields Q (bind m k).
Proof.
  intros Happ HR Hm Hk w. unfold bind. destruct (Hm w) as [t1 [E1 Q1]].
  specialize (HR w).
  destruct (m w) as [[a|x] w1]; simpl in *.
  - destruct (Hk a (HR a eq_refl) w1) as [t2 [E2 Q2]]. exists (t1 ++ t2).
    rewrite E2, E1, app_assoc. split; auto.
  - exists t1. now split.
Qed.

Lemma write_row_cells T e E : _write_row T e E = e :: staged_cells T E.
Proof.
  unfold _write_row, staged_cells. f_equal. apply map_ext. intros f.
  unfold Dict.getitem. now destruct (Dict.get (features E) f).
Qed.

Lemma write_header_value T w hc :
  fst (_write_header uuid4 (Exn:=Exn) T w) = Returned hc ->
  exists s, hc = (("entity_id_" +++ s) :: Dict.keys (features_metadata T),
                  "entity_id_" +++ s).
Proof.
  unfold _write_header, bind, draw_suffix, ret. simpl. intros [= <-]. eauto.
Qed.

Lemma upload_entity_type_uploads_staged_csv featurestores fs FS et T :
  In (fs, FS) featurestores -> In (et, T) (entity_types FS) ->
  yields (Forall (fun ce : Call * option Exn =>
                    uploads_staged_csv featurestores (fst ce)))
    (upload_entity_type uuid4 gcs_path raises fs (et, T)).
Proof.
  intros H1 H2.
  assert (Happ : forall t1 t2 : Trace Exn,
             Forall (fun ce => uploads_staged_csv featurestores (fst ce)) t1 ->
             Forall (fun ce => uploads_staged_csv featurestores (fst ce)) t2 ->
             Forall (fun ce => uploads_staged_csv featurestores (fst ce)) (t1 ++ t2))
    by (intros; apply Forall_app; now split).
  unfold upload_entity_type, _create_blob_object.
  apply yields_bind; auto.
  - apply yields_bind; auto; [apply yields_draw_suffix; constructor|].
    intros s. apply yields_bind; auto.
    + apply yields_new_blob. now intros b.
    + intros b. apply yields_ret. constructor.
  - intros fb. apply yields_try_finally; auto.
    + apply yields_bind; auto.
      * unfold _upload_data_file.
        apply yields_bind_value
          with (R := fun hc => exists s,
                         hc = (("entity_id_" +++ s)
                                 :: Dict.keys (features_metadata T),
                               "entity_id_" +++ s)); auto.
        -- intros w hc. apply write_header_value.
        -- unfold _write_header. apply yields_bind; auto;
             [apply yields_draw_suffix; constructor|].
           intros s. apply yields_ret. constructor.
        -- intros hc [s ->]. apply yields_bind; auto.
           ++ apply yields_call_Forall. simpl.
              exists fs, FS, et, T, s. repeat split; auto.
              unfold staged_csv. f_equal. apply map_ext.
              intros kv. apply write_row_cells.
           ++ intros _. apply yields_ret. constructor.
      * intros col. apply yields_call_Forall. exact I.
    + apply yields_call_Forall. exact I.
Qed.

Lemma upload_data_uploads_staged_csv featurestores :
  yields (Forall (fun ce : Call * option Exn =>
                    uploads_staged_csv featurestores (fst ce)))
    (_upload_data uuid4 gcs_path raises featurestores).
Proof.
  unfold _upload_data.
  apply yields_for_each; [constructor | intros; apply Forall_app; now split |].
  intros [fs FS] H1.
  apply yields_for_each; [constructor | intros; apply Forall_app; now split |].
  intros [et T] H2. now apply (upload_entity_type_uploads_staged_csv _ _ FS).
Qed.

Lemma staged_csv_rectangular col T :
  Forall (fun row : Row => length row = S (length (features_metadata T)))
    (staged_csv col T) /\
  length (staged_csv col T) = S (length (entities T)).
Proof.
  unfold staged_csv, staged_cells, Dict.keys. split.
  - constructor.
    + simpl. now rewrite length_map.
    + apply Forall_forall. intros row H. apply in_map_iff in H.
      destruct H as [kv [<- _]]. simpl. now rewrite !length_map.
  - simpl. now rewrite length_map.
Qed.

(** X8: whatever the services do, every CSV the upload step sends is the
    staged CSV of an entity type of the model: a header made of the
    identifier column [entity_id_] plus suffix and the feature identifiers of
    the metadata, then one row per entity holding the entity identifier and,
    for each feature, the entity's value or the empty string.  Every row has
    as many cells as the header. *)
Theorem X8_uploaded_csv_is_rectangular :
  forall (featurestores : Model) (w : World Exn),
    let run := _upload_data uuid4 gcs_path raises featurestores w in
    exists tr,
      trace (snd run) = trace w ++ tr /\
      forall b csv_rows o,
        In (upload_from_file b csv_rows, o) tr ->
        exists fs FS et T s,
          In (fs, FS) featurestores /\ In (et, T) (entity_types FS) /\
          csv_rows = staged_csv ("entity_id_" +++ s) T /\
          Forall (fun row : Row => length row = S (length (features_metadata T)))
            csv_rows /\
          length csv_rows = S (length (entities T)).
Proof.
  intros featurestores w run.
  destruct (upload_data_uploads_staged_csv featurestores w) as [tr [E F]].
  exists tr. split; [exact E|].
  intros b csv_rows o Hin. rewrite Forall_forall in F.
  specialize (F _ Hin). simpl in F.
  destruct F as [fs [FS [et [T [s [H1 [H2 ->]]]]]]].
  exists fs, FS, et, T, s. repeat split; auto; apply staged_csv_rectangular.
Qed.
End UploadFacts.

Section IngestionFacts.
Variable Exn : Type.
Variable uuid4 : nat -> string.
Variable gcs_path : string.
Variable raises : Trace Exn -> Call -> option Exn.

Lemma ingestion_follows_upload_nil : ingestion_follows_upload (@nil (Call * option Exn)).
Proof. intros pre fs et uri col ids o post H. now destruct pre. Qed.

Lemma ingestion_follows_upload_app (t1 t2 : Trace Exn) :
  ingestion_follows_upload t1 -> ingestion_follows_upload t2 ->
  ingestion_follows_upload (t1 ++ t2).
Proof.
  intros Q1 Q2 pre fs et uri col ids o post H.
  apply app_eq_app in H. destruct H as [l [[E1 E2]|[E1 E2]]].
  - destruct l as [|y l].
    + simpl in E2. rewrite app_nil_r in E1. subst t1.
      destruct (Q2 [] fs et uri col ids o post (eq_sym E2))
        as [pre' [b [data [E _]]]].
      now destruct pre'.
    + injection E2 as <- E2. apply (Q1 pre fs et uri col ids o l E1).
  - destruct (Q2 l fs et uri col ids o post E2) as [pre' [b [data [E U]]]].
    exists (t1 ++ pre'), b, data. split; auto.
    now rewrite E1, E, app_assoc.
Qed.

Lemma upload_entity_type_ingestion featurestore_id item :
  yields (@ingestion_follows_upload Exn)
    (upload_entity_type uuid4 gcs_path raises featurestore_id item).
Proof.
  destruct item as [entity_type_id T]. intros w.
  unfold upload_entity_type, _create_blob_object, _upload_data_file,
    _write_header, _run_data_ingestion_job, try_finally, bind, new_blob,
    bind, draw_suffix, call, ret.
  cbn [trace uuids fst snd].
  set (b := {| blob_serial := length (trace w);
               blob_path := path_join gcs_path
                              (entity_type_id +++ "_" +++ suffix uuid4 (uuids w)
                                 +++ ".csv") |}).
  destruct (raises (trace w) (storage_blob b)) as [x|] eqn:R0;
    cbn [trace uuids fst snd].
  - eexists. split; [reflexivity|].
    intros pre fs et uri col ids o post H.
    destruct pre as [|e0 pre]; [discriminate|]. injection H as _ H.
    now destruct pre.
  - match goal with
    | |- context [raises ?t (upload_from_file ?bb ?rows)] =>
        set (csv := rows); destruct (raises t (upload_from_file bb csv)) as [x|] eqn:R1
    end; cbn [trace uuids fst snd].
    + match goal with
      | |- context [raises ?t (blob_delete b)] =>
          destruct (raises t (blob_delete b)) as [y|] eqn:R2
      end; cbn [trace uuids fst snd];
        (eexists; split; [rewrite <- !app_assoc; reflexivity|];
         intros pre fs et uri col ids o post H;
         repeat (destruct pre as [|? pre]; simpl in H;
                 [discriminate | injection H as _ H]);
         now destruct pre).
    + match goal with
      | |- context [raises ?t (import_feature_values ?a1 ?a2 ?a3 ?a4 ?a5)] =>
          destruct (raises t (import_feature_values a1 a2 a3 a4 a5)) as [x|] eqn:R2
      end; cbn [trace uuids fst snd];
      match goal with
      | |- context [raises ?t (blob_delete b)] =>
          destruct (raises t (blob_delete b)) as [y|] eqn:R3
      end; cbn [trace uuids fst snd];
        (eexists; split; [rewrite <- !app_assoc; reflexivity|];
         intros pre fs et uri col ids o post H;
         destruct pre as [|e0 pre]; simpl in H; [discriminate | injection H as _ H];
         destruct pre as [|e1 pre]; simpl in H; [discriminate | injection H as E1 H];
         destruct pre as [|e2 pre]; simpl in H;
         [ injection H as _ _ Huri Hcol Hids _ _; subst e1 uri col ids;
           exists [e0], b; eexists; unfold csv; split; [reflexivity|reflexivity]
         | injection H as _ H;
           destruct pre as [|e3 pre]; simpl in H;
           [discriminate | injection H as _ H; now destruct pre] ]).
Qed.

(** X9: whatever the services do, each ingestion job of the upload step
    comes right after a successful upload to the blob whose path is the job's
    source, and the uploaded CSV's header is the job's entity-identifier
    column followed by the job's feature identifiers. *)
Theorem X9_ingestion_reads_what_was_uploaded :
  forall (featurestores : Model) (w : World Exn),
    let run := _upload_data uuid4 gcs_path raises featurestores w in
    exists tr,
      trace (snd run) = trace w ++ tr /\
      forall pre fs et uri col ids o post,
        tr = pre ++ (import_feature_values fs et uri col ids, o) :: post ->
        exists pre' b data,
          pre = pre' ++ [(upload_from_file b ((col :: ids) :: data), None)] /\
          blob_path b = uri.
Proof.
  intros featurestores w run.
  assert (Y : yields (@ingestion_follows_upload Exn)
                (_upload_data uuid4 gcs_path raises featurestores)).
  { unfold _upload_data.
    apply yields_for_each;
      [apply ingestion_follows_upload_nil | apply ingestion_follows_upload_app |].
    intros [fs FS] _.
    apply yields_for_each;
      [apply ingestion_follows_upload_nil | apply ingestion_follows_upload_app |].
    intros item _. apply upload_entity_type_ingestion. }
  destruct (Y w) as [tr [E Q]]. exists tr. split; [exact E | exact Q].
Qed.
End IngestionFacts.

(** * Further properties of schema creation and of whole runs *)

Section SchemaFacts.
Variable Exn : Type.
Variable raises : Trace Exn -> Call -> option Exn.

Lemma bind_ext A B (m : M Exn A) (k k' : A -> M Exn B) w :
  (forall a w', k a w' = k' a w') -> bind m k w = bind m k' w.
Proof. intros H. unfold bind. destruct (m w) as [[a|x] w1]; auto. Qed.

Lemma for_each_ext A (f f' : A -> M Exn unit) l w :
  (forall a w', f a w' = f' a w') -> for_each l f w = for_each l f' w.
Proof.
  intros H. revert w. induction l as [|a l IH]; intros w; simpl; auto.
  unfold bind. rewrite H. destruct (f' a w) as [[u|x] w1]; auto.
Qed.

Lemma for_each_app A (f : A -> M Exn unit) l1 l2 w :
  for_each (l1 ++ l2) f w = bind (for_each l1 f) (fun _ => for_each l2 f) w.
Proof.
  revert w. induction l1 as [|a l1 IH]; intros w; simpl; auto.
  unfold bind. destruct (f a w) as [[u|x] w1]; [apply IH | reflexivity].
Qed.

Lemma for_each_flat_map A B (g : A -> list B) (f : B -> M Exn unit) l w :
  for_each (flat_map g l) f w = for_each l (fun a => for_each (g a) f) w.
Proof.
  revert w. induction l as [|a l IH]; intros w; simpl; auto.
  rewrite for_each_app. apply bind_ext. intros _ w'. apply IH.
Qed.

Lemma call_then_ret c w :
  bind (call raises c) (fun _ => ret tt) w = call raises c w.
Proof. unfold bind, call, ret. now destruct (raises (trace w) c). Qed.

Lemma create_schema_plan featurestores w :
  _create_schema raises featurestores w =
  for_each (schema_plan featurestores) (call raises) w.
Proof.
  unfold _create_schema, schema_plan. rewrite for_each_flat_map.
  apply for_each_ext. intros [fs FS] w1. simpl for_each.
  apply bind_ext. intros _ w2. rewrite for_each_flat_map.
  apply for_each_ext. intros [et T] w3. simpl for_each.
  apply bind_ext. intros _ w4. now rewrite call_then_ret.
Qed.

Lemma for_each_call_cons c (l : list Call) w :
  for_each (c :: l) (call raises) w =
  match raises (trace w) c with
  | Some x => (Raised x, {| trace := trace w ++ [(c, Some x)]; uuids := uuids w |})
  | None => for_each l (call raises)
              {| trace := trace w ++ [(c, None)]; uuids := uuids w |}
  end.
Proof.
  simpl. unfold bind, call at 1. now destruct (raises (trace w) c).
Qed.

Lemma for_each_call_prefix (l : list Call) w :
  exists tr,
    trace (snd (for_each l (call raises) w)) = trace w ++ tr /\
    uuids (snd (for_each l (call raises) w)) = uuids w /\
    block_outcome tr (fst (for_each l (call raises) w)) /\
    (exists rest, l = map fst tr ++ rest) /\
    (fst (for_each l (call raises) w) = Returned tt -> map fst tr = l).
Proof.
  revert w. induction l as [|c l IH]; intros w.
  - exists []. simpl. unfold ret. simpl. rewrite app_nil_r.
    repeat split; auto; [constructor; constructor | now exists []].
  - rewrite for_each_call_cons.
    destruct (raises (trace w) c) as [x|] eqn:R.
    + exists [(c, Some x)]. simpl. repeat split; auto.
      * apply (block_raises unit (tr:=[])). constructor.
      * now exists l.
      * discriminate.
    + destruct (IH {| trace := trace w ++ [(c, None)]; uuids := uuids w |})
        as [tr [E [U [O [[rest P] F]]]]].
      exists ((c, None) :: tr). simpl in *. repeat split; auto.
      * now rewrite E, <- app_assoc.
      * inversion O as [tr0 a Q E1 E2|tr0 c0 x0 Q E1 E2].
        -- constructor. constructor; auto.
        -- change ((c, None) :: tr0 ++ [(c0, Some x0)])
             with (((c, None) :: tr0) ++ [(c0, Some x0)]).
           constructor. constructor; auto.
      * exists rest. now rewrite P at 1.
      * intros Hr. now rewrite F.
Qed.

(** X10: schema creation makes the planned calls in order (each
    featurestore, then each of its entity types followed by its features),
    draws no UUID, and stops at the first call that raises: the calls made are
    a prefix of the plan, none but the last raised, and a normal return means
    the whole plan was carried out. *)
Theorem X10_schema_creation_follows_the_plan :
  forall (featurestores : Model) (w : World Exn),
    let run := _create_schema raises featurestores w in
    exists tr,
      trace (snd run) = trace w ++ tr /\
      uuids (snd run) = uuids w /\
      block_outcome tr (fst run) /\
      (exists rest, schema_plan featurestores = map fst tr ++ rest) /\
      (fst run = Returned tt -> map fst tr = schema_plan featurestores).
Proof.
  intros featurestores w run. unfold run.
  rewrite create_schema_plan. apply for_each_call_prefix.
Qed.
End SchemaFacts.

Section WholeRunFacts.
Variable Exn : Type.












End WholeRunFacts.


Lemma quiet_map_fst Exn (tr : Trace Exn) :
  quiet tr -> tr = map (fun c => (c, None)) (map fst tr).
Proof.
  induction 1 as [|[c o] tr Ho Q IH]; simpl; auto.
  simpl in Ho. subst o. now rewrite <- IH.
Qed.


(** * Further properties of the exporter's discovery *)

(** ** Resource names and staging paths *)

Lemma split_slash_relative t name :
  Forall (fun seg => String.prefix "/" (seg +++ "_" +++ t) = false)
    (split_slash name) /\
  split_slash name <> [].
Proof.
  induction name as [|c name [IH Hne]]; simpl.
  - split; [|discriminate]. now constructor.
  - destruct (Ascii.eqb c "/") eqn:E.
    + split; [|discriminate]. now constructor.
    + destruct (split_slash name) as [|seg segs]; [contradiction|].
      split; [|discriminate].
      inversion IH as [|? ? _ Hsegs]; subst. constructor; auto.
      cbn [String.append String.prefix].
      destruct (ascii_dec "/" c) as [<-|]; auto.
      now rewrite Ascii.eqb_refl in E.
Qed.

Lemma last_segment_relative name t :
  String.prefix "/" (last_segment name +++ "_" +++ t) = false.
Proof.
  unfold last_segment.
  destruct (split_slash_relative t name) as [H Hne].
  destruct (exists_last Hne) as [l [seg E]]. rewrite E in *.
  rewrite last_last. apply Forall_app in H. destruct H as [_ H].
  now inversion H.
Qed.

Lemma path_join_relative a b :
  String.prefix "/" b = false -> path_join a b = a +++ separator a +++ b.
Proof.
  intros H. unfold path_join, separator. rewrite H.
  now destruct (String.eqb a "" || endswith_slash a).
Qed.

(** ** Feature metadata from the listing *)

Lemma et_meta_set_data_type T f v f' :
  et_meta (set_data_type T f v) f' =
  if String.eqb f f' then Some v else et_meta T f'.
Proof.
  unfold set_data_type, et_meta.
  destruct (Dict.getitem FeatureMetadata_default (features_metadata T) f)
    as [x md] eqn:G.
  cbn [features_metadata].
  replace md with (snd (Dict.getitem FeatureMetadata_default (features_metadata T) f))
    by now rewrite G.
  rewrite dict_set_getitem, dict_get_set.
  now destruct (String.eqb f f').
Qed.

Lemma entities_set_data_type T f v : entities (set_data_type T f v) = entities T.
Proof.
  unfold set_data_type.
  now destruct (Dict.getitem FeatureMetadata_default (features_metadata T) f).
Qed.

Lemma fold_m_ret Exn A B (g : B -> A -> B) (l : list A) (s : B) (w : World Exn) :
  DataExporter.fold_m (fun s a => ret (g s a)) l s w =
  (Returned (fold_left g l s), w).
Proof.
  revert s. induction l as [|a l IH]; intros s; simpl; auto.
  unfold bind, ret at 1. apply IH.
Qed.

Lemma listed_metadata (l : list RemoteFeature) T f :
  et_meta
    (fold_left
       (fun data feature =>
          set_data_type data (last_segment (feature_resource_name feature))
            (value_type feature)) l T) f =
  match listed_type l f with
  | Some t => Some t
  | None => et_meta T f
  end /\
  entities
    (fold_left
       (fun data feature =>
          set_data_type data (last_segment (feature_resource_name feature))
            (value_type feature)) l T) = entities T.
Proof.
  induction l as [|a l IH] using rev_ind.
  - now split.
  - rewrite fold_left_app. cbn [fold_left]. destruct IH as [IH1 IH2]. split.
    + rewrite et_meta_set_data_type. unfold listed_type in *.
      rewrite rev_app_distr. cbn [rev app find].
      destruct (String.eqb (last_segment (feature_resource_name a)) f); auto.
    + now rewrite entities_set_data_type.
Qed.

(** X12: recording the feature metadata of an entity type makes no
    recorded call and draws no UUID.  When the listing raises, so does the
    function; otherwise it leaves the entities as they are, and the recorded
    type of a feature is the value type of the last listed feature with that
    identifier, or what it was when no listed feature has that identifier. *)
Theorem X12_listed_metadata_last_write_wins :
  forall (Exn : Type)
         (list_features : Trace Exn -> string -> list RemoteFeature * option Exn)
         (T : EntityType) (entity_type_name : string) (w : World Exn),
    let listing := list_features (trace w) entity_type_name in
    let run := DataExporter._export_feature_metadata list_features T
                 entity_type_name w in
    snd run = w /\
    match snd listing with
    | Some x => fst run = Raised x
    | None =>
        exists T',
          fst run = Returned T' /\
          entities T' = entities T /\
          forall f, et_meta T' f =
                    match listed_type (fst listing) f with
                    | Some t => Some t
                    | None => et_meta T f
                    end
    end.
Proof.
  intros Exn list_features T name w listing run.
  unfold run, DataExporter._export_feature_metadata, DataExporter.for_listed.
  fold listing.
  destruct (snd listing) as [x|]; unfold bind; rewrite fold_m_ret;
    cbn [fst snd DataExporter.lift ret].
  - now split.
  - split; [reflexivity|]. eexists. split; [reflexivity|]. split.
    + exact (proj2 (@listed_metadata (fst listing) T "")).
    + intros f. exact (proj1 (@listed_metadata (fst listing) T f)).
Qed.

(** ** The calls of a run of the exporter *)

Section ExporterFacts.
Variable Exn : Type.
Variable uuid4 : nat -> string.
Variables project_id region gcs_path : string.
Variables featurestore_id_regex entity_type_id_regex : string.
Variable raises : Trace Exn -> Call -> option Exn.
Variable downloaded_rows : Trace Exn -> Blob -> list Row.
Variable list_featurestores : Trace Exn -> string -> list string * option Exn.
Variable list_entity_types : Trace Exn -> string -> list string * option Exn.
Variable list_features : Trace Exn -> string -> list RemoteFeature * option Exn.
Variable re_match : string -> string -> outcome Exn bool.

Lemma yields_weaken A (Q Q' : Trace Exn -> Prop) (m : M Exn A) :
  (forall tr, Q tr -> Q' tr) -> yields Q m -> yields Q' m.
Proof.
  intros H Y w. destruct (Y w) as [tr [E HQ]]. exists tr. auto.
Qed.

Lemma yields_lift A (Q : Trace Exn -> Prop) (r : outcome Exn A) :
  Q [] -> yields Q (DataExporter.lift r).
Proof.
  intros H w. exists []. simpl. now rewrite app_nil_r.
Qed.

Lemma yields_fold_m A B (Q : Trace Exn -> Prop) (f : B -> A -> M Exn B) l s :
  Q [] -> (forall t1 t2, Q t1 -> Q t2 -> Q (t1 ++ t2)) ->
  (forall a s', In a l -> yields Q (f s' a)) ->
  yields Q (DataExporter.fold_m f l s).
Proof.
  intros H0 Happ. revert s.
  induction l as [|a l IH]; intros s Hf; simpl.
  - now apply yields_ret.
  - apply yields_bind; auto.
    + apply Hf. now left.
    + intros s'. apply IH. intros a' s'' Hin. apply Hf. now right.
Qed.

Lemma yields_for_listed A B (Q : Trace Exn -> Prop)
    (q : Trace Exn -> list A * option Exn) (f : B -> A -> M Exn B) s :
  Q [] -> (forall t1 t2, Q t1 -> Q t2 -> Q (t1 ++ t2)) ->
  (forall tr a s', In a (fst (q tr)) -> yields Q (f s' a)) ->
  yields Q (DataExporter.for_listed q f s).
Proof.
  intros H0 Happ Hf w. unfold DataExporter.for_listed.
  apply yields_bind; auto.
  - apply yields_fold_m; auto. intros a s' Hin. now apply (Hf (trace w)).
  - intros s'. destruct (snd (q (trace w))).
    + now apply yields_lift.
    + now apply yields_ret.
Qed.

Lemma yields_export_feature_metadata (Q : Trace Exn -> Prop) T name :
  Q [] -> (forall t1 t2, Q t1 -> Q t2 -> Q (t1 ++ t2)) ->
  yields Q (DataExporter._export_feature_metadata list_features T name).
Proof.
  intros H0 Happ. unfold DataExporter._export_feature_metadata.
  apply yields_for_listed; auto. intros tr a s' _. now apply yields_ret.
Qed.

Lemma export_jobs_nil (P : string -> string -> Prop) : export_jobs P (@nil (Call * option Exn)).
Proof. intros name prefix o []. Qed.

Lemma export_jobs_app (P : string -> string -> Prop) (t1 t2 : Trace Exn) :
  export_jobs P t1 -> export_jobs P t2 -> export_jobs P (t1 ++ t2).
Proof.
  intros H1 H2 name prefix o Hin. apply in_app_or in Hin.
  destruct Hin as [Hin|Hin]; eauto.
Qed.

Lemma export_jobs_weaken (P P' : string -> string -> Prop) (tr : Trace Exn) :
  (forall name prefix, P name prefix -> P' name prefix) ->
  export_jobs P tr -> export_jobs P' tr.
Proof. intros H J name prefix o Hin. eauto. Qed.

(** The calls [_export_entity_type_entity_data] makes for one entity type,
    whatever the services do. *)
Lemma export_entity_type_entity_data_trace et_id data name (w : World Exn) :
  let folder := path_join gcs_path (et_id +++ "_" +++ suffix uuid4 (uuids w)) in
  let b := {| blob_serial := length (trace w);
              blob_path := path_join folder "000000000000.csv" |} in
  exists tr,
    trace (snd (_export_entity_type_entity_data uuid4 gcs_path raises
                  downloaded_rows et_id data name w)) = trace w ++ tr /\
    ((exists x, tr = [(storage_blob b, Some x)]) \/
     exists body d,
       tr = (storage_blob b, None) :: body ++ [(blob_delete b, d)] /\
       ((exists x, body = [(export_feature_values name folder, Some x)]) \/
        (exists x, body = [(export_feature_values name folder, None);
                           (download_as_bytes b, Some x)]) \/
        (exists o, body = [(export_feature_values name folder, None);
                           (download_as_bytes b, None);
                           (csv_reader_exhausted b, o)]))).
Proof.
  intros folder b.
  unfold _export_entity_type_entity_data, _locate_folder_and_blob,
    _export_entity_and_features, try_finally, bind, new_blob, bind,
    draw_suffix, call, ret.
  cbn [trace uuids fst snd]. fold folder. fold b.
  destruct (raises (trace w) (storage_blob b)) as [x|] eqn:R0;
    cbn [trace uuids fst snd].
  - eexists. split; [reflexivity|]. left. now exists x.
  - destruct (raises (trace w ++ [(storage_blob b, None)])
                (export_feature_values name folder)) as [x|] eqn:R1;
      cbn [trace uuids fst snd].
    + match goal with
      | |- context [raises ?t (blob_delete b)] =>
          destruct (raises t (blob_delete b)) as [y|] eqn:R2
      end; cbn [trace uuids fst snd];
        (eexists; split; [rewrite <- !app_assoc; reflexivity|];
         right; eexists [_], _; split; [reflexivity|]; left; now exists x).
    + match goal with
      | |- context [raises ?t (download_as_bytes b)] =>
          destruct (raises t (download_as_bytes b)) as [x|] eqn:R2
      end; cbn [trace uuids fst snd].
      * match goal with
        | |- context [raises ?t (blob_delete b)] =>
            destruct (raises t (blob_delete b)) as [y|] eqn:R3
        end; cbn [trace uuids fst snd];
          (eexists; split; [rewrite <- !app_assoc; reflexivity|];
           right; eexists [_; _], _; split; [reflexivity|];
           right; left; now exists x).
      * match goal with
        | |- context [raises ?t (csv_reader_exhausted b)] =>
            destruct (raises t (csv_reader_exhausted b)) as [x|] eqn:R3
        end; cbn [trace uuids fst snd];
        match goal with
        | |- context [raises ?t (blob_delete b)] =>
            destruct (raises t (blob_delete b)) as [y|] eqn:R4
        end; cbn [trace uuids fst snd];
          (eexists; split; [rewrite <- !app_assoc; reflexivity|];
           right; eexists [_; _; _], _; split; [reflexivity|];
           right; right; eexists; reflexivity).
Qed.

Lemma export_entity_type_entity_data_jobs data name :
  yields
    (export_jobs
       (fun nm output_uri_prefix =>
          nm = name /\
          exists n, output_uri_prefix = staging_folder uuid4 gcs_path name n))
    (_export_entity_type_entity_data uuid4 gcs_path raises downloaded_rows
       (last_segment name) data name).
Proof.
  intros w.
  destruct (export_entity_type_entity_data_trace (last_segment name) data name w)
    as [tr [E H]].
  exists tr. split; [exact E|]. clear E.
  rewrite (@path_join_relative gcs_path
             (last_segment name +++ "_" +++ suffix uuid4 (uuids w))) in H
    by apply last_segment_relative.
  fold (staging_folder uuid4 gcs_path name (uuids w)) in H.
  intros nm prefix o Hin.
  assert (Hjob : (nm, prefix) = (name, staging_folder uuid4 gcs_path name (uuids w))).
  { destruct H as [[x ->]|[body [d [-> H]]]].
    - destruct Hin as [Hin|[]]. discriminate.
    - destruct Hin as [Hin|Hin]; [discriminate|].
      apply in_app_or in Hin. destruct Hin as [Hin|[Hin|[]]]; [|discriminate].
      destruct H as [[x ->]|[[x ->]|[o' ->]]]; simpl in Hin;
        repeat (destruct Hin as [Hin|Hin]; [try discriminate|]);
        try contradiction; now injection Hin as -> -> _. }
  injection Hjob as -> ->. split; eauto.
Qed.

Lemma download_follows_export_nil : download_follows_export (@nil (Call * option Exn)).
Proof. intros pre b o post H. now destruct pre. Qed.

Lemma download_follows_export_app (t1 t2 : Trace Exn) :
  download_follows_export t1 -> download_follows_export t2 ->
  download_follows_export (t1 ++ t2).
Proof.
  intros Q1 Q2 pre b o post H.
  apply app_eq_app in H. destruct H as [l [[E1 E2]|[E1 E2]]].
  - destruct l as [|y l].
    + simpl in E2. rewrite app_nil_r in E1. subst t1.
      destruct (Q2 [] b o post (eq_sym E2)) as [pre' [name [prefix [E _]]]].
      now destruct pre'.
    + injection E2 as <- E2. apply (Q1 pre b o l E1).
  - destruct (Q2 l b o post E2) as [pre' [name [prefix [E U]]]].
    exists (t1 ++ pre'), name, prefix. split; auto.
    now rewrite E1, E, app_assoc.
Qed.

Lemma export_entity_type_entity_data_download et_id data name :
  yields (@download_follows_export Exn)
    (_export_entity_type_entity_data uuid4 gcs_path raises downloaded_rows
       et_id data name).
Proof.
  intros w.
  destruct (export_entity_type_entity_data_trace et_id data name w)
    as [tr [E H]].
  exists tr. split; [exact E|]. clear E.
  intros pre b o post Htr.
  destruct H as [[x ->]|[body [d [-> H]]]].
  - destruct pre as [|e0 pre]; [discriminate|]. injection Htr as _ Htr.
    now destruct pre.
  - destruct H as [[x ->]|[[x ->]|[o' ->]]]; simpl in Htr;
      (destruct pre as [|e0 pre]; simpl in Htr; [discriminate|];
       injection Htr as E0 Htr;
       destruct pre as [|e1 pre]; simpl in Htr; [discriminate|];
       injection Htr as E1 Htr;
       destruct pre as [|e2 pre]; simpl in Htr;
       [ try discriminate
       | injection Htr as E2 Htr;
         try (destruct pre as [|e3 pre]; simpl in Htr;
              [try discriminate
              | injection Htr as E3 Htr;
                try (destruct pre as [|e4 pre]; simpl in Htr;
                     [try discriminate
                     | injection Htr as E4 Htr; now destruct pre])]);
         try now destruct pre ]).
    + injection Htr as <- _ _. subst e0 e1.
      exists [], name. eexists. split; reflexivity.
    + injection Htr as <- _ _. subst e0 e1.
      exists [], name. eexists. split; reflexivity.
Qed.

(** A property of traces that holds of the calls for each entity type and
    is kept by concatenation holds of the trace of the loop over the listed
    featurestores; if it also holds of the construction of the client, it
    holds of the trace of the discovery. *)
Lemma yields_export_loop (Q : Trace Exn -> Prop) m :
  Q [] -> (forall t1 t2, Q t1 -> Q t2 -> Q (t1 ++ t2)) ->
  (forall et_id data name,
      yields Q (_export_entity_type_entity_data uuid4 gcs_path raises
                  downloaded_rows et_id data name)) ->
  yields Q
    (DataExporter.for_listed
       (fun tr => list_featurestores tr
                    (DataExporter.common_location_path project_id region))
       (DataExporter.export_listed_featurestore uuid4 gcs_path
          featurestore_id_regex entity_type_id_regex raises downloaded_rows
          list_entity_types list_features re_match) m).
Proof.
  intros H0 Happ Het.
  apply yields_for_listed; auto. intros _ fs_name m' _.
  unfold DataExporter.export_listed_featurestore.
  apply yields_bind; auto; [now apply yields_lift|].
  intros matched. destruct (negb matched); [now apply yields_ret|].
  unfold DataExporter._export_featurestore_data.
  destruct (Dict.getitem Featurestore_default m' (last_segment fs_name))
    as [featurestore_data fss].
  apply yields_bind; auto; [|intros data; now apply yields_ret].
  apply yields_for_listed; auto. intros _ et_name FS _.
  unfold DataExporter.export_listed_entity_type.
  apply yields_bind; auto; [now apply yields_lift|].
  intros matched'. destruct (negb matched'); [now apply yields_ret|].
  unfold DataExporter._export_entity_type_data.
  destruct (Dict.getitem EntityType_default (entity_types FS)
              (last_segment et_name)) as [entity_type_data ets].
  apply yields_bind; auto; [now apply yields_export_feature_metadata|].
  intros data1. apply yields_bind; auto. intros data2. now apply yields_ret.
Qed.

Lemma yields_export_featurestores (Q : Trace Exn -> Prop) :
  Q [] -> (forall t1 t2, Q t1 -> Q t2 -> Q (t1 ++ t2)) ->
  (forall et_id data name,
      yields Q (_export_entity_type_entity_data uuid4 gcs_path raises
                  downloaded_rows et_id data name)) ->
  (forall c o, is_delete c = false -> is_storage_blob c = false ->
               (forall b, c <> download_as_bytes b) ->
               (forall n p, c <> export_feature_values n p) ->
               Q [(c, o)]) ->
  yields Q
    (DataExporter._export_featurestores uuid4 project_id region gcs_path
       featurestore_id_regex entity_type_id_regex raises downloaded_rows
       list_featurestores list_entity_types list_features re_match).
Proof.
  intros H0 Happ Het Hcall.
  unfold DataExporter._export_featurestores.
  apply yields_bind; auto.
  { intros w. unfold call. cbn [snd trace]. eexists. split; [reflexivity|].
    apply Hcall; try reflexivity; discriminate. }
  intros _. now apply yields_export_loop.
Qed.

(** X14: whatever the services do, each download of a run of the
    exporter reads the blob object that was made just before the export job
    preceding the download; the job returned, and the blob is the file
    [000000000000.csv] under the job's output prefix. *)
Theorem X14_download_reads_the_exported_file :
  forall (w : World Exn),
    let run := DataExporter.execute uuid4 project_id region gcs_path
                 featurestore_id_regex entity_type_id_regex raises
                 downloaded_rows list_featurestores list_entity_types
                 list_features re_match w in
    exists tr,
      trace (snd run) = trace w ++ tr /\
      forall pre b o post,
        tr = pre ++ (download_as_bytes b, o) :: post ->
        exists pre' name output_uri_prefix,
          pre = pre' ++ [(storage_blob b, None);
                         (export_feature_values name output_uri_prefix, None)] /\
          blob_path b = path_join output_uri_prefix "000000000000.csv".
Proof.
  intros w run. unfold run, DataExporter.execute.
  assert (Y : yields (@download_follows_export Exn)
                (bind (DataExporter._export_featurestores uuid4 project_id region
                         gcs_path featurestore_id_regex entity_type_id_regex
                         raises downloaded_rows list_featurestores
                         list_entity_types list_features re_match)
                   (fun featurestores => ret (written_rows featurestores)))).
  { apply yields_bind.
    - apply download_follows_export_app.
    - apply yields_export_featurestores.
      + apply download_follows_export_nil.
      + apply download_follows_export_app.
      + apply export_entity_type_entity_data_download.
      + intros c o _ _ Hd _ pre b o' post H.
        destruct pre as [|e0 pre].
        * injection H as -> _. now elim (Hd b).
        * injection H as _ H. now destruct pre.
    - intros m. apply yields_ret. apply download_follows_export_nil. }
  exact (Y w).
Qed.

Lemma export_listed_entity_type_jobs FS name :
  yields
    (export_jobs
       (fun nm output_uri_prefix =>
          nm = name /\
          re_match entity_type_id_regex (last_segment nm) = Returned true /\
          exists n, output_uri_prefix = staging_folder uuid4 gcs_path nm n))
    (DataExporter.export_listed_entity_type uuid4 gcs_path entity_type_id_regex
       raises downloaded_rows list_features re_match FS name).
Proof.
  unfold DataExporter.export_listed_entity_type.
  apply yields_bind_value
    with (R := fun matched =>
                 re_match entity_type_id_regex (last_segment name)
                 = Returned matched).
  - apply export_jobs_app.
  - intros w a H. exact H.
  - apply yields_lift, export_jobs_nil.
  - intros matched Hm. destruct matched; cbn [negb].
    + unfold DataExporter._export_entity_type_data.
      destruct (Dict.getitem EntityType_default (entity_types FS)
                  (last_segment name)) as [entity_type_data ets].
      apply yields_bind; [apply export_jobs_app| |].
      * apply yields_export_feature_metadata;
          [apply export_jobs_nil | apply export_jobs_app].
      * intros data1. apply yields_bind; [apply export_jobs_app| |].
        -- eapply yields_weaken;
             [|apply export_entity_type_entity_data_jobs].
           intros tr. apply export_jobs_weaken.
           intros nm prefix [-> Hn]. auto.
        -- intros data2. apply yields_ret, export_jobs_nil.
    + apply yields_ret, export_jobs_nil.
Qed.

Lemma export_listed_featurestore_jobs m fs_name :
  yields
    (export_jobs
       (fun nm output_uri_prefix =>
          re_match featurestore_id_regex (last_segment fs_name) = Returned true /\
          (exists tr, In nm (fst (list_entity_types tr fs_name))) /\
          re_match entity_type_id_regex (last_segment nm) = Returned true /\
          exists n, output_uri_prefix = staging_folder uuid4 gcs_path nm n))
    (DataExporter.export_listed_featurestore uuid4 gcs_path
       featurestore_id_regex entity_type_id_regex raises downloaded_rows
       list_entity_types list_features re_match m fs_name).
Proof.
  unfold DataExporter.export_listed_featurestore.
  apply yields_bind_value
    with (R := fun matched =>
                 re_match featurestore_id_regex (last_segment fs_name)
                 = Returned matched).
  - apply export_jobs_app.
  - intros w a H. exact H.
  - apply yields_lift, export_jobs_nil.
  - intros matched Hm. destruct matched; cbn [negb];
      [|apply yields_ret, export_jobs_nil].
    unfold DataExporter._export_featurestore_data.
    destruct (Dict.getitem Featurestore_default m (last_segment fs_name))
      as [featurestore_data fss].
    apply yields_bind; [apply export_jobs_app| |];
      [|intros data; apply yields_ret, export_jobs_nil].
    apply yields_for_listed; [apply export_jobs_nil|apply export_jobs_app|].
    intros tr et_name FS Hin.
    eapply yields_weaken; [|apply export_listed_entity_type_jobs].
    intros tr'. apply export_jobs_weaken.
    intros nm prefix [-> [Hre Hn]]. repeat split; eauto.
Qed.

(** X13: whatever the services do, a run of the exporter starts an
    export job only for an entity type that was listed for a listed
    featurestore, the identifiers of both being matched by the regexes of the
    tool; and the job's output prefix is a folder under the storage path of
    the tool: the path, a slash unless the path is empty or ends with one,
    the entity type's identifier, an underscore and a UUID suffix. *)
Theorem X13_only_selected_entity_types_are_exported :
  forall (w : World Exn),
    let run := DataExporter.execute uuid4 project_id region gcs_path
                 featurestore_id_regex entity_type_id_regex raises
                 downloaded_rows list_featurestores list_entity_types
                 list_features re_match w in
    exists tr,
      trace (snd run) = trace w ++ tr /\
      forall name output_uri_prefix o,
        In (export_feature_values name output_uri_prefix, o) tr ->
        (exists tr1 tr2 featurestore_name,
            In featurestore_name
              (fst (list_featurestores tr1
                      (DataExporter.common_location_path project_id region))) /\
            re_match featurestore_id_regex (last_segment featurestore_name)
            = Returned true /\
            In name (fst (list_entity_types tr2 featurestore_name)) /\
            re_match entity_type_id_regex (last_segment name) = Returned true) /\
        exists n,
          output_uri_prefix =
          gcs_path +++ separator gcs_path +++
          last_segment name +++ "_" +++ suffix uuid4 n.
Proof.
  intros w run. unfold run, DataExporter.execute.
  set (P := fun name output_uri_prefix =>
        (exists (tr1 tr2 : Trace Exn) featurestore_name,
            In featurestore_name
              (fst (list_featurestores tr1
                      (DataExporter.common_location_path project_id region))) /\
            re_match featurestore_id_regex (last_segment featurestore_name)
            = Returned true /\
            In name (fst (list_entity_types tr2 featurestore_name)) /\
            re_match entity_type_id_regex (last_segment name) = Returned true) /\
        exists n,
          output_uri_prefix =
          gcs_path +++ separator gcs_path +++
          last_segment name +++ "_" +++ suffix uuid4 n).
  assert (Y : yields (export_jobs (Exn:=Exn) P)
                (bind (DataExporter._export_featurestores uuid4 project_id region
                         gcs_path featurestore_id_regex entity_type_id_regex
                         raises downloaded_rows list_featurestores
                         list_entity_types list_features re_match)
                   (fun featurestores => ret (written_rows featurestores)))).
  { apply yields_bind; [apply export_jobs_app| |];
      [|intros m; apply yields_ret, export_jobs_nil].
    unfold DataExporter._export_featurestores.
    apply yields_bind; [apply export_jobs_app| |].
    - intros w0. unfold call. cbn [snd trace]. eexists.
      split; [reflexivity|]. intros nm prefix o [H|[]]. discriminate.
    - intros _. apply yields_for_listed;
        [apply export_jobs_nil|apply export_jobs_app|].
      intros tr fs_name m Hin.
      eapply yields_weaken; [|apply export_listed_featurestore_jobs].
      intros tr'. apply export_jobs_weaken.
      intros nm prefix [Hfs [[tr2 Het] [Hre Hn]]]. split; [|exact Hn].
      exists tr, tr2, fs_name. auto. }
  exact (Y w).
Qed.

(** ** The exporter leaves no staging object behind *)










(** ** The model the discovery returns *)

Lemma bind_returned A B (m : M Exn A) (k : A -> M Exn B) w b :
  fst (bind m k w) = Returned b ->
  exists a w1, m w = (Returned a, w1) /\ fst (k a w1) = Returned b.
Proof.
  unfold bind. destruct (m w) as [[a|x] w1]; [eauto|discriminate].
Qed.

Lemma returns_fold_m A B (I : list A -> B -> Prop) (f : B -> A -> M Exn B) l :
  (forall done a s0, In a l -> I done s0 -> returns (I (done ++ [a])) (f s0 a)) ->
  forall done s, I done s -> returns (I (done ++ l)) (DataExporter.fold_m f l s).
Proof.
  induction l as [|a l IH]; intros Hf done s HI w s' H; simpl in H.
  - injection H as <-. now rewrite app_nil_r.
  - apply bind_returned in H. destruct H as [s1 [w1 [E H]]].
    replace (done ++ a :: l) with ((done ++ [a]) ++ l)
      by now rewrite <- app_assoc.
    apply (IH (fun done a s0 Hin => Hf done a s0 (or_intror Hin))
              (done ++ [a]) s1) with (w := w1); auto.
    apply (Hf done a s (or_introl eq_refl) HI w). now rewrite E.
Qed.

Lemma for_listed_returned A B (q : Trace Exn -> list A * option Exn)
    (f : B -> A -> M Exn B) s w s' :
  fst (DataExporter.for_listed q f s w) = Returned s' ->
  snd (q (trace w)) = None /\
  fst (DataExporter.fold_m f (fst (q (trace w))) s w) = Returned s'.
Proof.
  unfold DataExporter.for_listed. intros H.
  apply bind_returned in H. destruct H as [s1 [w1 [E H]]].
  destruct (snd (q (trace w))); [discriminate|].
  injection H as <-. now rewrite E.
Qed.

(** The entity types of a featurestore of the model were selected by the
    regex. *)
Lemma export_listed_entity_type_selected FS name :
  (forall et, Dict.get (entity_types FS) et <> None ->
              re_match entity_type_id_regex et = Returned true) ->
  returns
    (fun FS' => forall et, Dict.get (entity_types FS') et <> None ->
                           re_match entity_type_id_regex et = Returned true)
    (DataExporter.export_listed_entity_type uuid4 gcs_path entity_type_id_regex
       raises downloaded_rows list_features re_match FS name).
Proof.
  intros J w FS' H. unfold DataExporter.export_listed_entity_type in H.
  apply bind_returned in H. destruct H as [matched [w1 [E H]]].
  unfold DataExporter.lift in E. injection E as E _.
  destruct matched; cbn [negb] in H; [|injection H as <-; exact J].
  unfold DataExporter._export_entity_type_data in H.
  destruct (Dict.getitem EntityType_default (entity_types FS)
              (last_segment name)) as [entity_type_data ets] eqn:G.
  apply bind_returned in H. destruct H as [data1 [w2 [_ H]]].
  apply bind_returned in H. destruct H as [data2 [w3 [_ H]]].
  injection H as <-. cbn [entity_types].
  replace ets with (snd (Dict.getitem EntityType_default (entity_types FS)
                           (last_segment name))) by now rewrite G.
  rewrite dict_set_getitem. intros et. rewrite dict_get_set.
  destruct (String.eqb (last_segment name) et) eqn:Eq; auto.
  apply String.eqb_eq in Eq. now subst et.
Qed.

Lemma export_listed_featurestore_returned m name w m' :
  fst (DataExporter.export_listed_featurestore uuid4 gcs_path
         featurestore_id_regex entity_type_id_regex raises downloaded_rows
         list_entity_types list_features re_match m name w) = Returned m' ->
  (re_match featurestore_id_regex (last_segment name) = Returned false /\
   m' = m) \/
  (re_match featurestore_id_regex (last_segment name) = Returned true /\
   exists FS',
     m' = Dict.set m (last_segment name) FS' /\
     ((forall FS et, Dict.get m (last_segment name) = Some FS ->
                     Dict.get (entity_types FS) et <> None ->
                     re_match entity_type_id_regex et = Returned true) ->
      forall et, Dict.get (entity_types FS') et <> None ->
                 re_match entity_type_id_regex et = Returned true)).
Proof.
  intros H. unfold DataExporter.export_listed_featurestore in H.
  apply bind_returned in H. destruct H as [matched [w1 [E H]]].
  unfold DataExporter.lift in E. injection E as E _.
  destruct matched; cbn [negb] in H; [|injection H as <-; now left].
  right. split; [exact E|].
  unfold DataExporter._export_featurestore_data in H.
  destruct (Dict.getitem Featurestore_default m (last_segment name))
    as [featurestore_data fss] eqn:G.
  apply bind_returned in H. destruct H as [data [w2 [Hl H]]].
  injection H as <-. exists data. split.
  - replace fss with (snd (Dict.getitem Featurestore_default m (last_segment name)))
      by now rewrite G.
    apply dict_set_getitem.
  - intros J.
    assert (J0 : forall et, Dict.get (entity_types featurestore_data) et <> None ->
                            re_match entity_type_id_regex et = Returned true).
    { unfold Dict.getitem in G.
      destruct (Dict.get m (last_segment name)) as [FS|] eqn:Gm;
        injection G as <- _.
      - intros et. now apply (J FS).
      - intros et Hne. now elim Hne. }
    assert (Hl' : fst (DataExporter.for_listed
                         (fun tr => list_entity_types tr name)
                         (DataExporter.export_listed_entity_type uuid4 gcs_path
                            entity_type_id_regex raises downloaded_rows
                            list_features re_match)
                         featurestore_data w1) = Returned data)
      by now rewrite Hl.
    apply for_listed_returned in Hl'. destruct Hl' as [_ Hf].
    revert Hf.
    apply (@returns_fold_m _ _
             (fun _ FS' => forall et, Dict.get (entity_types FS') et <> None ->
                                      re_match entity_type_id_regex et = Returned true)
             _ _ (fun done a s0 _ HI => @export_listed_entity_type_selected s0 a HI)
             [] featurestore_data J0 w1 data).
Qed.

(** X16: when the discovery returns, no listing raised; the
    featurestores of the model it returns are exactly those whose identifier
    is the last segment of a listed featurestore name and is matched by the
    featurestore regex, each once; and every entity type of the model has an
    identifier matched by the entity-type regex. *)
Theorem X16_exported_model_holds_the_selected_featurestores :
  forall (w : World Exn) (m : Model),
    let client :=
      FeaturestoreServiceClient (region +++ "-aiplatform.googleapis.com") in
    let listing :=
      list_featurestores (trace w ++ [(client, None)])
        (DataExporter.common_location_path project_id region) in
    fst (DataExporter._export_featurestores uuid4 project_id region gcs_path
           featurestore_id_regex entity_type_id_regex raises downloaded_rows
           list_featurestores list_entity_types list_features re_match w)
    = Returned m ->
    snd listing = None /\
    Dict.wf m /\
    (forall k, Dict.get m k <> None <->
               exists name, In name (fst listing) /\ last_segment name = k /\
                            re_match featurestore_id_regex k = Returned true) /\
    (forall k FS et, Dict.get m k = Some FS ->
                     Dict.get (entity_types FS) et <> None ->
                     re_match entity_type_id_regex et = Returned true).
Proof.
  intros w m client listing H.
  unfold DataExporter._export_featurestores in H.
  apply bind_returned in H. destruct H as [[] [w1 [Ec H]]].
  assert (Ew : trace w1 = trace w ++ [(client, None)]).
  { revert Ec. unfold call. fold client.
    destruct (raises (trace w) client); [discriminate|].
    now intros [= <-]. }
  apply for_listed_returned in H. rewrite Ew in H. fold listing in H.
  destruct H as [Hnone Hf]. split; [exact Hnone|].
  set (I := fun (done : list string) (m : Model) =>
              Dict.wf m /\
              (forall k, Dict.get m k <> None <->
                         exists name, In name done /\ last_segment name = k /\
                                      re_match featurestore_id_regex k = Returned true) /\
              (forall k FS et, Dict.get m k = Some FS ->
                               Dict.get (entity_types FS) et <> None ->
                               re_match entity_type_id_regex et = Returned true)).
  assert (Hstep : forall done name m0,
             In name (fst listing) -> I done m0 ->
             returns (I (done ++ [name]))
               (DataExporter.export_listed_featurestore uuid4 gcs_path
                  featurestore_id_regex entity_type_id_regex raises
                  downloaded_rows list_entity_types list_features re_match
                  m0 name)).
  2:{ assert (H0 : I [] Dict.empty).
      { split; [constructor|]. split.
        - intros k. simpl. split; [intros Hne; now elim Hne|].
          intros [nm [[] _]].
        - intros k FS et. discriminate. }
      exact (@returns_fold_m _ _ I _ (fst listing) Hstep [] Dict.empty H0 w1 m Hf). }
  unfold I.
  intros done name m0 _ [Hwf [Hkeys HJ]] w0 m1 Hstep.
  apply export_listed_featurestore_returned in Hstep.
  destruct Hstep as [[Hre ->]|[Hre [FS' [-> HJ']]]].
  - split; [exact Hwf|]. split; [|exact HJ].
    intros k. rewrite Hkeys. split.
    + intros [nm [Hin H']]. exists nm. split; [|exact H'].
      apply in_or_app. now left.
    + intros [nm [Hin [Hk Hm]]]. apply in_app_or in Hin.
      destruct Hin as [Hin|[->|[]]]; [now exists nm|].
      subst k. rewrite Hre in Hm. discriminate.
  - split; [now apply dict_wf_set|]. split.
    + intros k. rewrite dict_get_set.
      destruct (String.eqb (last_segment name) k) eqn:Eq.
      *  apply String.eqb_eq in Eq. subst k. split; [|discriminate].
         intros _. exists name. split; [|now split].
         apply in_or_app. right. now left.
      *  apply String.eqb_neq in Eq. rewrite Hkeys. split.
         -- intros [nm [Hin H']]. exists nm. split; [|exact H'].
            apply in_or_app. now left.
         -- intros [nm [Hin [Hk Hm]]]. apply in_app_or in Hin.
            destruct Hin as [Hin|[->|[]]]; [now exists nm|].
            contradiction.
    + intros k FS et. rewrite dict_get_set.
      destruct (String.eqb (last_segment name) k) eqn:Eq.
      *  intros [= <-]. apply HJ'. intros FS0 et0. apply HJ.
      *  apply HJ.
Qed.

End ExporterFacts.

(** X16 at the sample service, with the featurestore regex [fs] and the
    entity-type regex [h]: the model holds the featurestore [fs1] with the
    entity type [human] and not [robot]. *)
Lemma X16_exported_model_holds_the_selected_featurestores_witness :
  fst (DataExporter._export_featurestores sample_uuid4 "p" "r" "gs://b/x"
         "fs" "h" no_failure sample_download sample_featurestores
         sample_entity_types sample_features literal_match empty_world)
  = Returned
      [("fs1",
        {| entity_types :=
             [("human",
               {| features_metadata := [("height", {| data_type := INT64 |})];
                  entities :=
                    [("bob", {| features := [("height", {| value := "4" |})] |})]
               |})] |})] /\
  literal_match "h" "human" = Returned true /\
  literal_match "h" "robot" = Returned false.
Proof.
  assert (H : fst (DataExporter._export_featurestores sample_uuid4 "p" "r"
                     "gs://b/x" "fs" "h" no_failure sample_download
                     sample_featurestores sample_entity_types sample_features
                     literal_match empty_world)
              = Returned
                  [("fs1",
                    {| entity_types :=
                         [("human",
                           {| features_metadata :=
                                [("height", {| data_type := INT64 |})];
                              entities :=
                                [("bob",
                                  {| features :=
                                       [("height", {| value := "4" |})] |})]
                           |})] |})]) by reflexivity.
  destruct (X16_exported_model_holds_the_selected_featurestores
              sample_uuid4 "p" "r" "gs://b/x" "fs" "h" no_failure
              sample_download sample_featurestores sample_entity_types
              sample_features literal_match empty_world H)
    as [_ [_ [_ J]]].
  split; [exact H|]. split; [|reflexivity].
  apply (J "fs1" _ "human" eq_refl). discriminate.
Defined.

(** * Storage paths and the two path patterns *)

Lemma append_empty_r (a : string) : a +++ "" = a.
Proof. induction a as [|c a IH]; simpl; [|rewrite IH]; reflexivity. Qed.

Lemma append_assoc (a b c : string) : (a +++ b) +++ c = a +++ b +++ c.
Proof. induction a as [|x a IH]; simpl; [|rewrite IH]; reflexivity. Qed.

Lemma all_append cls (a b : string) :
  Re.all cls (a +++ b) = Re.all cls a && Re.all cls b.
Proof.
  induction a as [|c a IH]; simpl; auto.
  rewrite IH. now rewrite andb_assoc.
Qed.

Lemma take_drop_while cls (s : string) :
  take_while cls s +++ drop_while cls s = s /\
  Re.all cls (take_while cls s) = true /\
  match drop_while cls s with
  | String c _ => cls c = false
  | EmptyString => True
  end.
Proof.
  induction s as [|c s [IH1 [IH2 IH3]]]; simpl; auto.
  destruct (cls c) eqn:E; simpl.
  - rewrite IH1, E, IH2. auto.
  - auto.
Qed.

(** The longest run is tried first. *)
Lemma greedy_longest A cls (a rest : string) (k : string -> string -> option A)
    taken r :
  Re.all cls a = true ->
  match rest with String c _ => cls c = false | EmptyString => True end ->
  k (taken +++ a) rest = Some r ->
  Re.greedy cls (a +++ rest) k taken = Some r.
Proof.
  revert taken. induction a as [|c a IH]; intros taken Ha Hrest Hk.
  - rewrite append_empty_r in Hk. simpl.
    destruct rest as [|c rest]; simpl; auto. now rewrite Hrest.
  - simpl in Ha. apply andb_true_iff in Ha. destruct Ha as [Hc Ha].
    simpl. rewrite Hc.
    rewrite (IH (taken +++ String c EmptyString)); auto.
    now rewrite append_assoc.
Qed.

(** What a greedy repetition that succeeds has taken. *)
Lemma greedy_sound A cls (s : string) (k : string -> string -> option A) taken r :
  Re.greedy cls s k taken = Some r ->
  exists text rest,
    s = text +++ rest /\ Re.all cls text = true /\
    k (taken +++ text) rest = Some r.
Proof.
  revert taken. induction s as [|c s IH]; intros taken H; simpl in H.
  - exists "", "". rewrite (append_empty_r taken). repeat split; auto.
  - destruct (cls c) eqn:Hc.
    + destruct (Re.greedy cls s k (taken +++ String c EmptyString)) as [r'|] eqn:G.
      * injection H as <-. apply IH in G.
        destruct G as [text [rest [-> [Ha Hk]]]].
        exists (String c text), rest. simpl. rewrite Hc, Ha.
        rewrite append_assoc in Hk. repeat split; auto.
      * exists "", (String c s). rewrite (append_empty_r taken). repeat split; auto.
    + exists "", (String c s). rewrite (append_empty_r taken). repeat split; auto.
Qed.

Lemma match_lits l p pos (s : string) g :
  Re.match_items (Re.lits l ++ p) pos (l +++ s) g =
  Re.match_items p (pos + String.length l) s g.
Proof.
  revert pos. induction l as [|c l IH]; intros pos; simpl.
  - now rewrite Nat.add_0_r.
  - rewrite Ascii.eqb_refl, IH. f_equal. lia.
Qed.

Lemma match_lits_sound l p pos (s : string) g r :
  Re.match_items (Re.lits l ++ p) pos s g = Some r ->
  exists s', s = l +++ s'.
Proof.
  revert pos s. induction l as [|c l IH]; intros pos s H; simpl in *.
  - now exists s.
  - destruct s as [|c' s]; [discriminate|].
    destruct (Ascii.eqb c c') eqn:E; [|discriminate].
    apply Ascii.eqb_eq in E. subst c'.
    apply IH in H. destruct H as [s' ->]. now exists s'.
Qed.

Lemma endswith_slash_append (a : string) c b :
  endswith_slash (a +++ String c b) = endswith_slash (String c b).
Proof.
  induction a as [|x a IH]; auto.
  cbn [String.append]. rewrite <- IH.
  destruct (a +++ String c b) eqn:E; auto.
  destruct a; discriminate.
Qed.

Lemma endswith_slash_not_slash (b : string) :
  Re.all Re.not_slash b = true -> endswith_slash b = false.
Proof.
  induction b as [|c b IH]; auto.
  cbn [Re.all]. intros H. apply andb_true_iff in H. destruct H as [Hc Hb].
  destruct b as [|c' b].
  - unfold Re.not_slash in Hc. cbn [endswith_slash].
    now destruct (Ascii.eqb c "/").
  - now apply IH.
Qed.

Lemma not_slash_false c : Re.not_slash c = false -> c = "/"%char.
Proof.
  unfold Re.not_slash. destruct (Ascii.eqb c "/") eqn:E; [|discriminate].
  intros _. now apply Ascii.eqb_eq.
Qed.

(** The matches of the two patterns on a bucket alone and on a bucket
    followed by a slash and a blob name. *)
Lemma original_match_bucket (b : string) :
  b <> "" -> Re.all Re.not_slash b = true ->
  Re.re_match GS_ORIGINAL_PATH_FORMAT ("gs://" +++ b) =
  Some [("bucket_name", b); ("blob_name", "")].
Proof.
  intros Hne Hb. unfold Re.re_match, GS_ORIGINAL_PATH_FORMAT.
  cbn [Re.match_items Nat.eqb]. rewrite match_lits.
  cbn [Re.match_items]. rewrite <- (append_empty_r b) at 1.
  apply greedy_longest; [exact Hb|exact I|].
  cbn [String.append andb]. destruct (String.eqb_spec b ""); [contradiction|].
  reflexivity.
Qed.

Lemma original_match_blob (b blob : string) :
  b <> "" -> Re.all Re.not_slash b = true -> Re.all Re.dot blob = true ->
  Re.re_match GS_ORIGINAL_PATH_FORMAT ("gs://" +++ b +++ "/" +++ blob) =
  Some [("bucket_name", b); ("blob_name", blob)].
Proof.
  intros Hne Hb Hblob. unfold Re.re_match, GS_ORIGINAL_PATH_FORMAT.
  cbn [Re.match_items Nat.eqb]. rewrite match_lits.
  cbn [Re.match_items]. apply greedy_longest; [exact Hb|reflexivity|].
  cbn [String.append andb]. destruct (String.eqb_spec b ""); [contradiction|].
  cbn [Re.match_items]. rewrite Ascii.eqb_refl.
  rewrite <- (append_empty_r blob) at 1.
  erewrite greedy_longest; [reflexivity|exact Hblob|exact I|].
  cbn [String.append andb Re.match_items String.eqb orb Dict.set].
  reflexivity.
Qed.

Lemma final_match_blob (b blob : string) :
  b <> "" -> Re.all Re.not_slash b = true ->
  blob <> "" -> Re.all Re.dot blob = true ->
  Re.re_match GS_FINAL_PATH_FORMAT ("gs://" +++ b +++ "/" +++ blob) =
  Some [("bucket_name", b); ("blob_name", blob)].
Proof.
  intros Hne Hb Hne' Hblob. unfold Re.re_match, GS_FINAL_PATH_FORMAT.
  cbn [Re.match_items Nat.eqb]. rewrite match_lits.
  cbn [Re.match_items]. apply greedy_longest; [exact Hb|reflexivity|].
  cbn [String.append andb]. destruct (String.eqb_spec b ""); [contradiction|].
  cbn [Re.match_items]. rewrite Ascii.eqb_refl.
  rewrite <- (append_empty_r blob) at 1.
  apply greedy_longest; [exact Hblob|exact I|].
  cbn [String.append andb]. destruct (String.eqb_spec blob ""); [contradiction|].
  reflexivity.
Qed.

Lemma original_match_shape gcs_path m :
  Re.re_match GS_ORIGINAL_PATH_FORMAT gcs_path = Some m ->
  exists c rest, gcs_path = "gs://" +++ String c rest /\ c <> "/"%char.
Proof.
  unfold Re.re_match, GS_ORIGINAL_PATH_FORMAT.
  cbn [Re.match_items Nat.eqb]. intros H.
  destruct (match_lits_sound _ _ _ _ _ H) as [s' ->].
  rewrite match_lits in H. cbn [Re.match_items] in H.
  apply greedy_sound in H. destruct H as [text [rest [-> [Ha Hk]]]].
  cbn [String.append andb] in Hk.
  destruct text as [|c text]; [discriminate|].
  exists c, (text +++ rest). split; [reflexivity|].
  cbn [Re.all] in Ha. apply andb_true_iff in Ha. destruct Ha as [Hc _].
  intros ->. discriminate.
Qed.

(** A path that starts with [gs://] and a character other than a slash is
    a bucket alone or a bucket, a slash and a blob name. *)
Lemma storage_path_cases c rest :
  c <> "/"%char ->
  let b := take_while Re.not_slash (String c rest) in
  let d := drop_while Re.not_slash (String c rest) in
  b <> "" /\ Re.all Re.not_slash b = true /\
  (("gs://" +++ String c rest = "gs://" +++ b /\ after_slash d = "") \/
   "gs://" +++ String c rest = "gs://" +++ b +++ "/" +++ after_slash d).
Proof.
  intros Hc b d.
  destruct (take_drop_while Re.not_slash (String c rest)) as [E [Hb Hd]].
  fold b in E, Hb. fold d in E, Hd.
  assert (Hne : b <> "").
  { unfold b. cbn [take_while]. unfold Re.not_slash.
    destruct (Ascii.eqb_spec c "/"); [contradiction|]. discriminate. }
  split; [exact Hne|]. split; [exact Hb|].
  destruct d as [|x d'].
  - left. rewrite append_empty_r in E. now rewrite E.
  - right. apply not_slash_false in Hd. subst x.
    cbn [after_slash]. rewrite Ascii.eqb_refl. now rewrite <- E.
Qed.

Lemma all_dot_after_slash c rest :
  Re.all Re.dot ("gs://" +++ String c rest) = true ->
  Re.all Re.dot (after_slash (drop_while Re.not_slash (String c rest))) = true.
Proof.
  intros H.
  destruct (take_drop_while Re.not_slash (String c rest)) as [E _].
  rewrite <- E, !all_append in H.
  apply andb_true_iff in H. destruct H as [_ H].
  apply andb_true_iff in H. destruct H as [_ H].
  destruct (drop_while Re.not_slash (String c rest)) as [|x d]; auto.
  cbn [after_slash]. destruct (Ascii.eqb x "/"); auto.
  cbn [Re.all] in H. apply andb_true_iff in H. tauto.
Qed.

Lemma original_match_groups c rest :
  c <> "/"%char -> Re.all Re.dot ("gs://" +++ String c rest) = true ->
  Re.re_match GS_ORIGINAL_PATH_FORMAT ("gs://" +++ String c rest) =
  Some [("bucket_name", take_while Re.not_slash (String c rest));
        ("blob_name", after_slash (drop_while Re.not_slash (String c rest)))].
Proof.
  intros Hc Hdot.
  destruct (storage_path_cases rest Hc) as [Hne [Hb [[E1 E2]|E]]].
  - rewrite E1, E2. now apply original_match_bucket.
  - rewrite E. apply original_match_blob; auto.
    now apply all_dot_after_slash.
Qed.

(** X17: the check of the storage path in the constructors.  A path is
    rejected with a [ValueError] that quotes it, or accepted; an accepted
    path starts with [gs://] followed by a character other than a slash; and
    every such path that holds no newline is accepted, its bucket being the
    text up to the next slash and its blob name what follows that slash. *)
Theorem X17_storage_path_check :
  forall gcs_path : string,
    (__init__ gcs_path = None \/
     __init__ gcs_path = Some ("Not a valid GS path format: " +++ gcs_path)) /\
    (__init__ gcs_path = None ->
     exists c rest, gcs_path = "gs://" +++ String c rest /\ c <> "/"%char) /\
    (forall c rest,
        gcs_path = "gs://" +++ String c rest -> c <> "/"%char ->
        Re.all Re.dot gcs_path = true ->
        __init__ gcs_path = None /\
        Re.re_match GS_ORIGINAL_PATH_FORMAT gcs_path =
        Some [("bucket_name", take_while Re.not_slash (String c rest));
              ("blob_name",
               after_slash (drop_while Re.not_slash (String c rest)))]).
Proof.
  intros gcs_path. unfold __init__. split; [|split].
  - destruct (Re.re_match GS_ORIGINAL_PATH_FORMAT gcs_path); auto.
  - destruct (Re.re_match GS_ORIGINAL_PATH_FORMAT gcs_path) as [m|] eqn:E;
      [|discriminate].
    intros _. exact (original_match_shape _ E).
  - intros c rest -> Hc Hdot.
    rewrite (original_match_groups rest Hc Hdot). now split.
Qed.

(** ** The staging file lies in the bucket of the storage path *)

Lemma separator_bucket (b : string) :
  b <> "" -> Re.all Re.not_slash b = true -> separator ("gs://" +++ b) = "/".
Proof.
  intros Hne Hb. unfold separator.
  destruct b as [|c b]; [contradiction|].
  rewrite endswith_slash_append, (endswith_slash_not_slash _ Hb).
  reflexivity.
Qed.

Lemma separator_blob (b blob : string) :
  separator ("gs://" +++ b +++ "/" +++ blob) = separator blob.
Proof.
  unfold separator.
  replace ("gs://" +++ b +++ "/" +++ blob) with (("gs://" +++ b) +++ "/" +++ blob)
    by now rewrite append_assoc.
  destruct blob as [|c blob].
  - change ("/" +++ "") with (String "/" ""). rewrite endswith_slash_append.
    reflexivity.
  - change ("/" +++ String c blob) with (String "/" (String c blob)).
    rewrite endswith_slash_append. reflexivity.
Qed.

Lemma path_join_in_bucket (b blob gcs_path name : string) :
  b <> "" -> Re.all Re.not_slash b = true ->
  (gcs_path = "gs://" +++ b /\ blob = "") \/
  gcs_path = "gs://" +++ b +++ "/" +++ blob ->
  String.prefix "/" name = false ->
  path_join gcs_path name = "gs://" +++ b +++ "/" +++ path_join blob name.
Proof.
  intros Hne Hb Hcases Hrel. rewrite !path_join_relative by exact Hrel.
  destruct Hcases as [[-> ->]| ->].
  - rewrite separator_bucket by assumption.
    now rewrite !append_assoc.
  - rewrite separator_blob. now rewrite !append_assoc.
Qed.

Lemma path_join_all_dot (a name : string) :
  Re.all Re.dot a = true -> Re.all Re.dot name = true ->
  Re.all Re.dot (path_join a name) = true.
Proof.
  intros Ha Hn. unfold path_join.
  destruct (String.prefix "/" name); auto.
  destruct (String.eqb a "" || endswith_slash a);
    rewrite ?all_append, Ha, Hn; reflexivity.
Qed.

Lemma path_join_not_empty (a name : string) :
  name <> "" -> path_join a name <> "".
Proof.
  intros Hn. unfold path_join.
  destruct (String.prefix "/" name); auto.
  destruct (String.eqb a "" || endswith_slash a);
    destruct a; simpl; auto; discriminate.
Qed.

(** An accepted path without a newline: its groups, and the groups of a
    file path made by joining a relative name to it. *)
Lemma accepted_path_join (gcs_path name : string) :
  __init__ gcs_path = None -> Re.all Re.dot gcs_path = true ->
  name <> "" -> String.prefix "/" name = false -> Re.all Re.dot name = true ->
  exists bucket_name blob_name,
    Re.re_match GS_ORIGINAL_PATH_FORMAT gcs_path =
    Some [("bucket_name", bucket_name); ("blob_name", blob_name)] /\
    Re.all Re.dot blob_name = true /\
    Re.re_match GS_ORIGINAL_PATH_FORMAT (path_join gcs_path name) =
    Some [("bucket_name", bucket_name); ("blob_name", path_join blob_name name)] /\
    Re.re_match GS_FINAL_PATH_FORMAT (path_join gcs_path name) =
    Some [("bucket_name", bucket_name); ("blob_name", path_join blob_name name)].
Proof.
  unfold __init__. intros Hacc Hdot Hne Hrel Hname.
  destruct (Re.re_match GS_ORIGINAL_PATH_FORMAT gcs_path) as [m|] eqn:E;
    [|discriminate].
  destruct (original_match_shape _ E) as [c [rest [-> Hc]]].
  rewrite (original_match_groups rest Hc Hdot) in E.
  pose proof (all_dot_after_slash _ _ Hdot) as Hblob.
  destruct (storage_path_cases rest Hc) as [Hb0 [Hb Hcases]].
  set (b := take_while Re.not_slash (String c rest)) in *.
  set (blob := after_slash (drop_while Re.not_slash (String c rest))) in *.
  exists b, blob. split; [symmetry; exact E|].
  split; [exact Hblob|].
  rewrite (@path_join_in_bucket b blob _ name Hb0 Hb Hcases Hrel).
  split.
  - apply original_match_blob; auto. now apply path_join_all_dot.
  - apply final_match_blob; auto.
    + now apply path_join_not_empty.
    + now apply path_join_all_dot.
Qed.

Lemma accepted_by_original (gcs_path : string) m :
  Re.re_match GS_ORIGINAL_PATH_FORMAT gcs_path = Some m -> __init__ gcs_path = None.
Proof. unfold __init__. now intros ->. Qed.

Lemma relative_with_suffix (entity_type_id t : string) :
  String.prefix "/" entity_type_id = false ->
  String.prefix "/" (entity_type_id +++ "_" +++ t) = false.
Proof.
  destruct entity_type_id as [|c e]; [reflexivity|].
  cbn [String.append String.prefix].
  destruct (ascii_dec "/" c); [|reflexivity].
  now destruct e.
Qed.

Lemma absolute_with_suffix (entity_type_id t : string) :
  String.prefix "/" entity_type_id = true ->
  exists rest, entity_type_id +++ t = String "/" rest.
Proof.
  destruct entity_type_id as [|c e]; [discriminate|].
  cbn [String.append String.prefix].
  destruct (ascii_dec "/" c) as [<-|]; [|discriminate]. eauto.
Qed.

Lemma append_not_empty (a b : string) : b <> "" -> a +++ b <> "".
Proof. destruct a; simpl; auto. discriminate. Qed.

(** X18: the staging file of the exporter.  For a storage path that the
    constructor accepted, and when neither the path, nor the entity type's
    identifier, nor the UUID suffix holds a newline, the file path of
    [_locate_folder_and_blob] always matches the final pattern (so reading
    its groups cannot fail), its bucket is the bucket of the storage path,
    and its blob name is the blob name of the storage path joined with the
    unique folder and the file name. *)
Theorem X18_export_staging_file_is_in_the_bucket :
  forall (uuid4 : nat -> string) (n : nat) (gcs_path entity_type_name : string),
    let unique_folder := last_segment entity_type_name +++ "_" +++ suffix uuid4 n in
    let filepath := path_join (path_join gcs_path unique_folder) "000000000000.csv" in
    __init__ gcs_path = None ->
    Re.all Re.dot gcs_path = true ->
    Re.all Re.dot (last_segment entity_type_name) = true ->
    Re.all Re.dot (suffix uuid4 n) = true ->
    exists bucket_name blob_name,
      Re.re_match GS_ORIGINAL_PATH_FORMAT gcs_path =
      Some [("bucket_name", bucket_name); ("blob_name", blob_name)] /\
      bucket_and_blob_name filepath =
      Some (bucket_name,
            path_join (path_join blob_name unique_folder) "000000000000.csv").
Proof.
  intros uuid4 n gcs_path name unique_folder filepath Hacc Hdot Hid Hs.
  assert (Hfolder : Re.all Re.dot unique_folder = true).
  { unfold unique_folder. now rewrite !all_append, Hid, Hs. }
  assert (Hne : unique_folder <> "").
  { unfold unique_folder. apply append_not_empty. discriminate. }
  destruct (@accepted_path_join gcs_path unique_folder Hacc Hdot Hne
              (last_segment_relative name (suffix uuid4 n)) Hfolder)
    as [b [blob [E1 [Hblob [E2 _]]]]].
  destruct (@accepted_path_join (path_join gcs_path unique_folder)
              "000000000000.csv" (accepted_by_original _ E2)
              (path_join_all_dot _ _ Hdot Hfolder))
    as [b' [blob' [E3 [_ [_ E4]]]]]; try reflexivity; try discriminate.
  rewrite E2 in E3. injection E3 as <- <-.
  exists b, blob. split; [exact E1|].
  unfold bucket_and_blob_name. fold filepath in E4. now rewrite E4.
Qed.

(** X19: the staging file of the importer.  An entity type identifier
    that starts with a slash makes [os.path.join] drop the storage path, and
    the file path then matches no pattern: reading the groups of the match
    fails.  Otherwise, for an accepted storage path and in the absence of
    newlines, the file path matches, its bucket is the bucket of the storage
    path, and its blob name is the blob name of the storage path joined with
    the file name. *)
Theorem X19_import_staging_file :
  forall (uuid4 : nat -> string) (n : nat) (gcs_path entity_type_id : string),
    let filename := entity_type_id +++ "_" +++ suffix uuid4 n +++ ".csv" in
    let filepath := path_join gcs_path filename in
    (String.prefix "/" entity_type_id = true ->
     filepath = filename /\ bucket_and_blob_name filepath = None) /\
    (String.prefix "/" entity_type_id = false ->
     __init__ gcs_path = None ->
     Re.all Re.dot gcs_path = true ->
     Re.all Re.dot entity_type_id = true ->
     Re.all Re.dot (suffix uuid4 n) = true ->
     exists bucket_name blob_name,
       Re.re_match GS_ORIGINAL_PATH_FORMAT gcs_path =
       Some [("bucket_name", bucket_name); ("blob_name", blob_name)] /\
       bucket_and_blob_name filepath =
       Some (bucket_name, path_join blob_name filename)).
Proof.
  intros uuid4 n gcs_path et filename filepath. split.
  - intros Habs.
    destruct (absolute_with_suffix et ("_" +++ suffix uuid4 n +++ ".csv") Habs)
      as [rest E].
    fold filename in E.
    assert (Hp : filepath = filename).
    { unfold filepath, path_join. rewrite E. cbn [String.prefix].
      destruct (ascii_dec "/" "/") as [_|Hn]; [|now elim Hn].
      now destruct rest. }
    split; [exact Hp|]. rewrite Hp, E. reflexivity.
  - intros Hrel Hacc Hdot Het Hs.
    assert (Hname : Re.all Re.dot filename = true).
    { unfold filename. now rewrite !all_append, Het, Hs. }
    assert (Hne : filename <> "").
    { unfold filename. apply append_not_empty. discriminate. }
    destruct (@accepted_path_join gcs_path filename Hacc Hdot Hne
                (relative_with_suffix et _ Hrel) Hname)
      as [b [blob [E1 [_ [_ E2]]]]].
    exists b, blob. split; [exact E1|].
    unfold bucket_and_blob_name. fold filepath in E2. now rewrite E2.
Qed.

(** X18 at the storage path of the unit tests and the entity type
    [human]. *)
Lemma X18_export_staging_file_is_in_the_bucket_witness :
  __init__ "gs://scratch_space/some/path" = None /\
  bucket_and_blob_name
    (path_join
       (path_join "gs://scratch_space/some/path"
          (last_segment "projects/p/locations/r/featurestores/fs1/entityTypes/human"
             +++ "_" +++ suffix sample_uuid4 0))
       "000000000000.csv") =
  Some ("scratch_space", "some/path/human_d3d75/000000000000.csv").
Proof.
  split; [reflexivity|].
  destruct (X18_export_staging_file_is_in_the_bucket sample_uuid4 0
              "gs://scratch_space/some/path"
              "projects/p/locations/r/featurestores/fs1/entityTypes/human"
              eq_refl eq_refl eq_refl eq_refl)
    as [bucket_name [blob_name [E1 E2]]].
  vm_compute in E1. injection E1 as <- <-. exact E2.
Defined.

(** X19 at the storage path of the unit tests: the entity type [human]
    is staged in the bucket, the entity type [/human] is not staged at
    all. *)
Lemma X19_import_staging_file_witness :
  bucket_and_blob_name
    (path_join "gs://scratch_space/some/path"
       ("human" +++ "_" +++ suffix sample_uuid4 0 +++ ".csv")) =
  Some ("scratch_space", "some/path/human_d3d75.csv") /\
  bucket_and_blob_name
    (path_join "gs://scratch_space/some/path"
       ("/human" +++ "_" +++ suffix sample_uuid4 0 +++ ".csv")) = None.
Proof.
  split.
  - destruct (X19_import_staging_file sample_uuid4 0
                "gs://scratch_space/some/path" "human") as [_ H].
    destruct (H eq_refl eq_refl eq_refl eq_refl eq_refl)
      as [bucket_name [blob_name [E1 E2]]].
    vm_compute in E1. injection E1 as <- <-. exact E2.
  - destruct (X19_import_staging_file sample_uuid4 0
                "gs://scratch_space/some/path" "/human") as [H _].
    exact (proj2 (H eq_refl)).
Defined.

(** * The data the exporter holds for an entity type *)

Lemma process_entities_metadata entity_type_id d csv_rows :
  features_metadata (_process_entities_and_features entity_type_id d csv_rows) =
  features_metadata d.
Proof.
  destruct csv_rows as [|header data_rows]; [reflexivity|].
  rewrite process_entities_fold. revert d.
  induction data_rows as [|row data_rows IH]; intros d; simpl; auto.
  rewrite IH, process_data_line_fold. apply process_columns_metadata.
Qed.

Section ExportedData.
Variable Exn : Type.
Variable uuid4 : nat -> string.
Variable gcs_path : string.
Variable raises : Trace Exn -> Call -> option Exn.
Variable downloaded_rows : Trace Exn -> Blob -> list Row.
Variable list_features : Trace Exn -> string -> list RemoteFeature * option Exn.

Lemma export_feature_metadata_returned T name (w : World Exn) T1 w1 :
  DataExporter._export_feature_metadata list_features T name w = (Returned T1, w1) ->
  w1 = w /\
  entities T1 = entities T /\
  forall f, et_meta T1 f =
            match listed_type (fst (list_features (trace w) name)) f with
            | Some t => Some t
            | None => et_meta T f
            end.
Proof.
  unfold DataExporter._export_feature_metadata, DataExporter.for_listed, bind.
  rewrite fold_m_ret.
  destruct (snd (list_features (trace w) name)); [discriminate|].
  unfold ret. intros [= <- <-]. split; [reflexivity|]. split.
  - exact (proj2 (@listed_metadata (fst (list_features (trace w) name)) T "")).
  - intros f.
    exact (proj1 (@listed_metadata (fst (list_features (trace w) name)) T f)).
Qed.

Lemma export_entity_type_entity_data_returned et_id data name (w : World Exn) data' :
  fst (_export_entity_type_entity_data uuid4 gcs_path raises downloaded_rows
         et_id data name w) = Returned data' ->
  let folder := path_join gcs_path (et_id +++ "_" +++ suffix uuid4 (uuids w)) in
  let b := {| blob_serial := length (trace w);
              blob_path := path_join folder "000000000000.csv" |} in
  data' = _process_entities_and_features et_id data
            (downloaded_rows
               (trace w ++ [(storage_blob b, None);
                            (export_feature_values name folder, None)]) b).
Proof.
  intros H folder b. revert H.
  unfold _export_entity_type_entity_data, _locate_folder_and_blob,
    _export_entity_and_features, try_finally, bind, new_blob, bind,
    draw_suffix, call, ret.
  cbn [trace uuids fst snd]. fold folder. fold b.
  destruct (raises (trace w) (storage_blob b)) as [x|] eqn:R0;
    cbn [trace uuids fst snd]; [discriminate|].
  destruct (raises (trace w ++ [(storage_blob b, None)])
              (export_feature_values name folder)) as [x|] eqn:R1;
    cbn [trace uuids fst snd].
  { match goal with
    | |- context [raises ?t (blob_delete b)] =>
        destruct (raises t (blob_delete b)) as [y|] eqn:R2
    end; cbn [trace uuids fst snd]; discriminate. }
  match goal with
  | |- context [raises ?t (download_as_bytes b)] =>
      destruct (raises t (download_as_bytes b)) as [x|] eqn:R2
  end; cbn [trace uuids fst snd].
  { match goal with
    | |- context [raises ?t (blob_delete b)] =>
        destruct (raises t (blob_delete b)) as [y|] eqn:R3
    end; cbn [trace uuids fst snd]; discriminate. }
  match goal with
  | |- context [raises ?t (csv_reader_exhausted b)] =>
      destruct (raises t (csv_reader_exhausted b)) as [x|] eqn:R3
  end; cbn [trace uuids fst snd];
  match goal with
  | |- context [raises ?t (blob_delete b)] =>
      destruct (raises t (blob_delete b)) as [y|] eqn:R4
  end; cbn [trace uuids fst snd]; try discriminate.
  intros [= <-]. rewrite <- app_assoc. reflexivity.
Qed.

(** X20: the data the exporter holds for an entity type once its export
    has returned.  The entity type stored under the last segment of the
    resource name is the decoding, by [_process_entities_and_features], of
    the CSV downloaded from the staging blob into the entity type found there
    (or a new one) with the listed feature metadata recorded; its metadata
    are the listed ones, the last listed type of a feature winning; and the
    other entity types of the featurestore are as before. *)
Theorem X20_exported_entity_type_data :
  forall (FS FS' : Featurestore) (entity_type_name : string) (w : World Exn),
    let entity_type_id := last_segment entity_type_name in
    let T0 := fst (Dict.getitem EntityType_default (entity_types FS)
                     entity_type_id) in
    let folder := staging_folder uuid4 gcs_path entity_type_name (uuids w) in
    let b := {| blob_serial := length (trace w);
                blob_path := path_join folder "000000000000.csv" |} in
    let csv_rows :=
      downloaded_rows
        (trace w ++ [(storage_blob b, None);
                     (export_feature_values entity_type_name folder, None)]) b in
    fst (DataExporter._export_entity_type_data uuid4 gcs_path raises
           downloaded_rows list_features entity_type_id FS entity_type_name w)
    = Returned FS' ->
    exists T1 T',
      entities T1 = entities T0 /\
      T' = _process_entities_and_features entity_type_id T1 csv_rows /\
      Dict.get (entity_types FS') entity_type_id = Some T' /\
      (forall f, et_meta T' f =
                 match listed_type (fst (list_features (trace w) entity_type_name)) f with
                 | Some t => Some t
                 | None => et_meta T0 f
                 end) /\
      (forall et, et <> entity_type_id ->
                  Dict.get (entity_types FS') et = Dict.get (entity_types FS) et).
Proof.
  intros FS FS' name w id T0 folder b csv_rows H.
  assert (HT0 : fst (Dict.getitem EntityType_default (entity_types FS) id) = T0)
    by reflexivity.
  clearbody T0. revert H. unfold DataExporter._export_entity_type_data.
  destruct (Dict.getitem EntityType_default (entity_types FS) id)
    as [entity_type_data ets] eqn:G.
  cbn [fst] in HT0. intros H.
  apply bind_returned in H. destruct H as [T1 [w1 [E1 H]]].
  apply export_feature_metadata_returned in E1. destruct E1 as [-> [Hent Hmeta]].
  apply bind_returned in H. destruct H as [T' [w2 [E2 H]]].
  injection H as <-.
  assert (E2' : fst (_export_entity_type_entity_data uuid4 gcs_path raises
                       downloaded_rows id T1 name w) = Returned T')
    by now rewrite E2.
  apply export_entity_type_entity_data_returned in E2'.
  rewrite (@path_join_relative gcs_path (id +++ "_" +++ suffix uuid4 (uuids w)))
    in E2' by apply last_segment_relative.
  fold (staging_folder uuid4 gcs_path name (uuids w)) in E2'.
  fold folder in E2'. fold b in E2'. fold csv_rows in E2'.
  exists T1, T'. split; [now rewrite Hent, HT0|]. split; [exact E2'|].
  cbn [entity_types].
  replace ets with (snd (Dict.getitem EntityType_default (entity_types FS) id))
    by now rewrite G.
  rewrite dict_set_getitem. split; [apply dict_get_set_same|]. split.
  - intros f. rewrite E2'.
    unfold et_meta.
    rewrite process_entities_metadata.
    fold (et_meta T1 f). rewrite Hmeta. now rewrite HT0.
  - intros et Hne. apply dict_get_set_other. auto.
Qed.

End ExportedData.

(** X20 at the sample service: the entity type [human] of a new
    featurestore gets the listed type of [height] and the downloaded value of
    [bob]. *)
Lemma X20_exported_entity_type_data_witness :
  exists FS' T',
    fst (DataExporter._export_entity_type_data sample_uuid4 "gs://b/x"
           no_failure sample_download sample_features "human"
           Featurestore_default
           "projects/p/locations/r/featurestores/fs1/entityTypes/human"
           empty_world) = Returned FS' /\
    Dict.get (entity_types FS') "human" = Some T' /\
    et_meta T' "height" = Some INT64 /\
    et_value T' "bob" "height" = Some "4".
Proof.
  eexists.
  destruct (@X20_exported_entity_type_data string sample_uuid4 "gs://b/x"
              no_failure sample_download sample_features Featurestore_default
              _ "projects/p/locations/r/featurestores/fs1/entityTypes/human"
              empty_world eq_refl)
    as [T1 [T' [_ [E [G [M _]]]]]].
  exists T'. split; [reflexivity|]. split; [exact G|]. split.
  - rewrite M. reflexivity.
  - vm_compute in G. injection G as <-. reflexivity.
Defined.

(** * The tools fail fast on a bad storage path *)

Lemma rejected_path (gcs_path : string) :
  (forall c rest, gcs_path = "gs://" +++ String c rest -> c = "/"%char) ->
  __init__ gcs_path = Some ("Not a valid GS path format: " +++ gcs_path).
Proof.
  intros H. unfold __init__.
  destruct (Re.re_match GS_ORIGINAL_PATH_FORMAT gcs_path) as [m|] eqn:E;
    [|reflexivity].
  destruct (original_match_shape _ E) as [c [rest [Eq Hc]]].
  now elim Hc; apply (H c rest).
Qed.

(** X21: a storage path that is not [gs://] followed by a character
    other than a slash stops both tools before anything else happens: [main]
    raises the tool's exception chained to the [ValueError] of the
    constructor, no call is made, no UUID is drawn, the import file is not
    parsed and no export file is written.  And whatever the path, an
    exception that leaves [main] is the tool's own, chained to its cause. *)
Theorem X21_tools_fail_fast_on_a_bad_storage_path :
  forall (Exn : Type) (ValueError : string -> Exn)
         (Exception_from : string -> Exn -> Exn)
         (uuid4 : nat -> string)
         (project_id region import_file_path export_file_path gcs_path : string)
         (featurestore_id_regex entity_type_id_regex : string)
         (raises : Trace Exn -> Call -> option Exn)
         (downloaded_rows : Trace Exn -> Blob -> list Row)
         (list_featurestores list_entity_types
            : Trace Exn -> string -> list string * option Exn)
         (list_features : Trace Exn -> string -> list RemoteFeature * option Exn)
         (re_match : string -> string -> outcome Exn bool)
         (rows : list Row) (w : World Exn),
    let import_run :=
      import_tool_main ValueError Exception_from uuid4 region import_file_path
        gcs_path raises rows w in
    let export_run :=
      export_tool_main ValueError Exception_from uuid4 project_id region
        gcs_path export_file_path featurestore_id_regex entity_type_id_regex
        raises downloaded_rows list_featurestores list_entity_types
        list_features re_match w in
    ((forall c rest, gcs_path = "gs://" +++ String c rest -> c = "/"%char) ->
     import_run =
       (Raised (Exception_from ("Failed to process file: " +++ import_file_path)
                  (ValueError ("Not a valid GS path format: " +++ gcs_path))),
        w, []) /\
     export_run =
       (Raised (Exception_from
                  ("Failed to export Featurestore data: " +++ export_file_path)
                  (ValueError ("Not a valid GS path format: " +++ gcs_path))),
        w)) /\
    (forall x, fst (fst import_run) = Raised x ->
       exists ex, x = Exception_from
                        ("Failed to process file: " +++ import_file_path) ex) /\
    (forall x, fst export_run = Raised x ->
       exists ex, x = Exception_from
                        ("Failed to export Featurestore data: " +++ export_file_path)
                        ex).
Proof.
  intros Exn ValueError Exception_from uuid4 project_id region import_file_path
    export_file_path gcs_path fs_regex et_regex raises downloaded_rows
    list_featurestores list_entity_types list_features re_match rows w
    import_run export_run.
  split; [|split].
  - intros Hbad. unfold import_run, export_run, import_tool_main,
      export_tool_main.
    rewrite (rejected_path Hbad). split; reflexivity.
  - intros x. unfold import_run, import_tool_main.
    destruct (__init__ gcs_path) as [invalid|].
    + cbn. intros [= <-]. eauto.
    + destruct (execute uuid4 region gcs_path raises rows w) as [[[[]|ex] w'] logged];
        cbn; [discriminate|]. intros [= <-]. eauto.
  - intros x. unfold export_run, export_tool_main.
    destruct (__init__ gcs_path) as [invalid|].
    + cbn. intros [= <-]. eauto.
    + destruct (DataExporter.execute uuid4 project_id region gcs_path fs_regex
                  et_regex raises downloaded_rows list_featurestores
                  list_entity_types list_features re_match w) as [[written|ex] w'];
        cbn; [discriminate|]. intros [= <-]. eauto.
Qed.

(** X21 at a storage path without the scheme. *)
Lemma X21_tools_fail_fast_on_a_bad_storage_path_witness :
  import_tool_main (fun message => "ValueError: " +++ message)
    (fun message ex => message +++ " <- " +++ ex)
    sample_uuid4 "region" "data/featurestore.txt" "scratch_bucket/"
    no_failure [height_row] empty_world =
  (Raised "Failed to process file: data/featurestore.txt <- ValueError: Not a valid GS path format: scratch_bucket/",
   empty_world, []).
Proof.
  assert (Hbad : forall c rest,
             "scratch_bucket/" = "gs://" +++ String c rest -> c = "/"%char)
    by (intros c rest H; discriminate).
  exact (proj1 (proj1 (X21_tools_fail_fast_on_a_bad_storage_path
                         (fun message => "ValueError: " +++ message)
                         (fun message ex => message +++ " <- " +++ ex)
                         sample_uuid4 "project" "region" "data/featurestore.txt"
                         "export.txt" "scratch_bucket/" ".*" ".*" no_failure
                         sample_download sample_featurestores
                         sample_entity_types sample_features literal_match
                         [height_row] empty_world) Hbad)).
Defined.

(** * Ingestion only into what the run created *)

Section IngestionTargets.
Variable Exn : Type.
Variable uuid4 : nat -> string.
Variables region gcs_path : string.
Variable raises : Trace Exn -> Call -> option Exn.

Lemma upload_entity_type_ingests featurestores fs FS et T :
  In (fs, FS) featurestores -> In (et, T) (entity_types FS) ->
  yields (Forall (fun ce : Call * option Exn =>
                    ingests_entity_type featurestores (fst ce)))
    (upload_entity_type uuid4 gcs_path raises fs (et, T)).
Proof.
  intros H1 H2.
  assert (Happ : forall t1 t2 : Trace Exn,
             Forall (fun ce => ingests_entity_type featurestores (fst ce)) t1 ->
             Forall (fun ce => ingests_entity_type featurestores (fst ce)) t2 ->
             Forall (fun ce => ingests_entity_type featurestores (fst ce)) (t1 ++ t2))
    by (intros; apply Forall_app; now split).
  unfold upload_entity_type, _create_blob_object.
  apply yields_bind; auto.
  - apply yields_bind; auto; [apply yields_draw_suffix; constructor|].
    intros s. apply yields_bind; auto.
    + apply yields_new_blob. now intros b.
    + intros b. apply yields_ret. constructor.
  - intros fb. apply yields_try_finally; auto.
    + apply yields_bind; auto.
      * unfold _upload_data_file. apply yields_bind; auto.
        -- unfold _write_header. apply yields_bind; auto;
             [apply yields_draw_suffix; constructor|].
           intros s. apply yields_ret. constructor.
        -- intros hc. apply yields_bind; auto.
           ++ apply yields_call_Forall. exact I.
           ++ intros _. apply yields_ret. constructor.
      * intros col. unfold _run_data_ingestion_job.
        apply yields_call_Forall. simpl. exists FS, T. auto.
    + apply yields_call_Forall. exact I.
Qed.

Lemma upload_data_ingests featurestores :
  yields (Forall (fun ce : Call * option Exn =>
                    ingests_entity_type featurestores (fst ce)))
    (_upload_data uuid4 gcs_path raises featurestores).
Proof.
  unfold _upload_data.
  apply yields_for_each; [constructor | intros; apply Forall_app; now split |].
  intros [fs FS] H1.
  apply yields_for_each; [constructor | intros; apply Forall_app; now split |].
  intros [et T] H2. now apply (upload_entity_type_ingests _ _ FS).
Qed.

Lemma schema_plan_no_import m c : In c (schema_plan m) -> is_import c = false.
Proof.
  unfold schema_plan. intros H. apply in_flat_map in H.
  destruct H as [[fs FS] [_ [<-|H]]]; [reflexivity|].
  apply in_flat_map in H. destruct H as [[et T] [_ [<-|[<-|[]]]]]; reflexivity.
Qed.

Lemma schema_plan_creates m fs FS et T :
  In (fs, FS) m -> In (et, T) (entity_types FS) ->
  In (create_featurestore fs) (schema_plan m) /\
  In (create_entity_type fs et) (schema_plan m) /\
  In (batch_create_features fs et
        (map (fun kv => (fst kv, data_type (snd kv))) (features_metadata T)))
     (schema_plan m).
Proof.
  intros H1 H2. unfold schema_plan. repeat split.
  - apply in_flat_map. exists (fs, FS). split; [exact H1|]. now left.
  - apply in_flat_map. exists (fs, FS). split; [exact H1|]. right.
    apply in_flat_map. exists (et, T). split; [exact H2|]. now left.
  - apply in_flat_map. exists (fs, FS). split; [exact H1|]. right.
    apply in_flat_map. exists (et, T). split; [exact H2|]. right. now left.
Qed.

(** The phases of [execute]: the run ends before any upload, having made
    no ingestion call, or its trace is the construction of the client, the
    whole schema plan, and the trace of [_upload_data]. *)
Lemma execute_phases rows (w : World Exn) :
  let m := featurestores (_parse_schema_and_data uuid4 (uuids w) rows) in
  let result := execute uuid4 region gcs_path raises rows w in
  exists tr,
    trace (snd (fst result)) = trace w ++ tr /\
    (Forall (fun ce => is_import (fst ce) = false) tr \/
     exists tu,
       tr = (FeaturestoreServiceClient (region +++ "-aiplatform.googleapis.com"),
             None)
            :: map (fun c => (c, None)) (schema_plan m) ++ tu /\
       Forall (fun ce => ingests_entity_type m (fst ce)) tu).
Proof.
  intros m result. unfold result, execute. fold m.
  destruct (Dict.truthy m).
  2:{ exists []. simpl. rewrite app_nil_r. split; [reflexivity|]. left.
      constructor. }
  cbn [fst snd].
  set (client := FeaturestoreServiceClient (region +++ "-aiplatform.googleapis.com")).
  set (w1 := {| trace := trace w;
                uuids := uuid_calls (_parse_schema_and_data uuid4 (uuids w) rows) |}).
  match goal with
  | |- context [bind ?a ?k w1] => set (run := bind a k w1)
  end.
  assert (Hrun : run =
            match raises (trace w) client with
            | Some x => (Raised x, {| trace := trace w ++ [(client, Some x)];
                                      uuids := uuids w1 |})
            | None =>
                bind (_create_schema raises m)
                  (fun _ => _upload_data uuid4 gcs_path raises m)
                  {| trace := trace w ++ [(client, None)]; uuids := uuids w1 |}
            end).
  { unfold run, bind at 1, call. cbn [trace uuids w1].
    now destruct (raises (trace w) client). }
  rewrite Hrun. clear Hrun run.
  destruct (raises (trace w) client) as [x|] eqn:R.
  - exists [(client, Some x)]. cbn [fst snd trace]. split; [reflexivity|].
    left. now repeat constructor.
  - set (w2 := {| trace := trace w ++ [(client, None)]; uuids := uuids w1 |}).
    unfold bind.
    pose proof (create_schema_plan raises m w2) as Eplan.
    destruct (for_each_call_prefix raises (schema_plan m) w2)
      as [ts [Es [_ [Os [[rest Ps] Fs]]]]].
    rewrite <- Eplan in Es, Os, Fs.
    destruct (_create_schema raises m w2) as [[[]|x] w3]; cbn [fst snd] in *.
    + destruct (upload_data_ingests m w3) as [tu [Eu Hu]].
      exists ((client, None) :: ts ++ tu). split.
      * rewrite Eu, Es. unfold w2. cbn [trace].
        rewrite <- !app_assoc. reflexivity.
      * right. exists tu. split; [|exact Hu]. f_equal. f_equal.
        inversion Os as [tr0 a Q E1 E2|]; subst.
        rewrite (quiet_map_fst Q) at 1. now rewrite Fs.
    + exists ((client, None) :: ts). split.
      * rewrite Es. unfold w2. cbn [trace]. now rewrite <- app_assoc.
      * left. constructor; [reflexivity|].
        apply Forall_forall. intros ce Hin.
        apply (schema_plan_no_import m). rewrite Ps.
        apply in_or_app. left. now apply in_map.
Qed.

End IngestionTargets.

(** X22: an import run ingests only into what it has created.  Whatever
    the services do, every ingestion job of [execute] comes after the
    creation, by calls that returned, of its featurestore, of its entity
    type, and of a batch of features whose identifiers are, in order, the
    feature identifiers the job names; these are pairwise distinct and none
    of the features created has an array type. *)
Theorem X22_ingestion_only_into_created_features :
  forall (Exn : Type) (uuid4 : nat -> string) (region gcs_path : string)
         (raises : Trace Exn -> Call -> option Exn)
         (rows : list Row) (w : World Exn),
    let result := execute uuid4 region gcs_path raises rows w in
    exists tr,
      trace (snd (fst result)) = trace w ++ tr /\
      forall pre fs et uri col ids o post,
        tr = pre ++ (import_feature_values fs et uri col ids, o) :: post ->
        In (create_featurestore fs, None) pre /\
        In (create_entity_type fs et, None) pre /\
        exists requests,
          In (batch_create_features fs et requests, None) pre /\
          map fst requests = ids /\
          NoDup ids /\
          Forall (fun r : string * ValueType => is_array_type (snd r) = false)
            requests.
Proof.
  intros Exn uuid4 region gcs_path raises rows w result.
  destruct (execute_phases uuid4 region gcs_path raises rows w)
    as [tr [E [Hno|[tu [Etr Hu]]]]]; fold result in E;
    exists tr; (split; [exact E|]);
    intros pre fs et uri col ids o post Htr.
  - exfalso. rewrite Forall_forall in Hno.
    assert (Hin : In (import_feature_values fs et uri col ids, o) tr)
      by (rewrite Htr; apply in_or_app; right; now left).
    apply Hno in Hin. discriminate.
  - set (m := featurestores (_parse_schema_and_data uuid4 (uuids w) rows)) in *.
    set (client := FeaturestoreServiceClient (region +++ "-aiplatform.googleapis.com")) in *.
    set (plan := map (fun c : Call => (c, @None Exn)) (schema_plan m)) in *.
    assert (Hplan : forall c, In c (schema_plan m) -> In (c, @None Exn) plan).
    { intros c Hc. unfold plan.
      apply (in_map (fun c : Call => (c, @None Exn))). exact Hc. }
    assert (Hsplit : exists pre', pre = ((client, None) :: plan) ++ pre' /\
                                  tu = pre' ++ (import_feature_values fs et uri col ids, o) :: post).
    { rewrite Etr in Htr.
      change ((client, None) :: plan ++ tu) with (((client, None) :: plan) ++ tu) in Htr.
      apply app_eq_app in Htr. destruct Htr as [l [[E1 E2]|[E1 E2]]].
      - destruct l as [|y l].
        + exists []. simpl in E2. rewrite app_nil_r in *. auto.
        + exfalso. injection E2 as <- E2.
          assert (Hin : In (import_feature_values fs et uri col ids, o)
                          ((client, None) :: plan))
            by (rewrite E1; apply in_or_app; right; now left).
          destruct Hin as [Hin|Hin]; [discriminate|].
          unfold plan in Hin. apply in_map_iff in Hin.
          destruct Hin as [c [Ec Hc]]. injection Ec as -> _.
          apply schema_plan_no_import in Hc. discriminate.
      - exists l. auto. }
    destruct Hsplit as [pre' [-> Etu]].
    rewrite Forall_forall in Hu.
    assert (Hin : In (import_feature_values fs et uri col ids, o) tu)
      by (rewrite Etu; apply in_or_app; right; now left).
    apply Hu in Hin. cbn [fst ingests_entity_type] in Hin.
    destruct Hin as [FS [T [H1 [H2 ->]]]].
    destruct (schema_plan_creates m fs FS et T H1 H2) as [C1 [C2 C3]].
    pose proof (wf_model_parsed uuid4 (uuids w) rows) as Hwf. fold m in Hwf.
    destruct (@wf_model_find m fs FS et T Hwf H1 H2) as [Hfind [Hmd _]].
    split; [|split].
    + apply in_or_app. left. right. now apply Hplan.
    + apply in_or_app. left. right. now apply Hplan.
    + exists (map (fun kv => (fst kv, data_type (snd kv))) (features_metadata T)).
      split; [|split; [|split]].
      * apply in_or_app. left. right. now apply Hplan.
      * rewrite map_map. reflexivity.
      * exact Hmd.
      * apply Forall_forall. intros r Hr. apply in_map_iff in Hr.
        destruct Hr as [[f md] [<- Hf]]. cbn [fst snd].
        apply (@parsed_metadata_not_array uuid4 (uuids w) rows fs et f).
        fold m. unfold metadata_of. rewrite Hfind. unfold et_meta.
        now rewrite (@dict_In_get _ (features_metadata T) f md Hmd Hf).
Qed.

(** * The importer reads every file the exporter writes *)

Lemma encoded_rows_warnings uuid4 rows :
  (forall row, In row rows ->
     exists k et e f t v, row = line_data k et e f (ValueType_name t) v) ->
  forall st,
  exists ws,
    warnings (parse_rows uuid4 st rows) = warnings st ++ ws /\
    Forall (fun w => w = "Uploading array value types not currently supported.") ws.
Proof.
  induction rows as [|row rows IH]; intros H st; simpl.
  - exists []. now rewrite app_nil_r.
  - change (fold_left (parse_row uuid4) rows (parse_row uuid4 st row))
      with (parse_rows uuid4 (parse_row uuid4 st row) rows).
    destruct (IH (fun r Hr => H r (or_intror Hr)) (parse_row uuid4 st row))
      as [ws [E Hws]].
    destruct (H row (or_introl eq_refl)) as [k [et [e [f [t [v ->]]]]]].
    change (parse_row uuid4 st (line_data k et e f (ValueType_name t) v))
      with (_store_values uuid4 st k et e f (ValueType_name t) v) in *.
    set (st1 := _store_values uuid4 st k et e f (ValueType_name t) v) in *.
    assert (W1 : exists known,
               warnings st1 =
               warnings st ++ metadata_warnings known (ValueType_name t)).
    { unfold st1. rewrite store_values_eq. cbv zeta. cbn [warnings]. eauto. }
    destruct W1 as [known W1].
    assert (W : metadata_warnings known (ValueType_name t) = [] \/
                metadata_warnings known (ValueType_name t) =
                ["Uploading array value types not currently supported."]).
    { unfold metadata_warnings. destruct known; [now left|].
      rewrite ValueType_name_upper, ValueType_getitem_name.
      destruct (is_array_type t); auto. }
    rewrite E, W1. destruct W as [W|W]; rewrite W.
    + exists ws. now rewrite app_nil_r.
    + exists ("Uploading array value types not currently supported." :: ws).
      split; [now rewrite <- app_assoc|]. now constructor.
Qed.

Lemma written_rows_encoded m row :
  In row (written_rows m) ->
  exists k et e f t v,
    In (k, et, e, f, t, v) (combinations m) /\
    row = line_data k et e f (ValueType_name t) v.
Proof.
  rewrite written_rows_encode. intros H. apply in_map_iff in H.
  destruct H as [[[[[[k et] e] f] t] v] [<- H]].
  exists k, et, e, f, t, v. now split.
Qed.

(** X23: the importer reads every file the exporter writes.  Whatever
    the model, parsing the rows written for it logs no line that fails to
    parse and no unknown data type: every warning is the one about array
    types, and there is none when no feature that has a value has an array
    type. *)
Theorem X23_written_file_is_read_back :
  forall (m : Model) (uuid4 : nat -> string) (n : nat),
    let st := _parse_schema_and_data uuid4 n (written_rows m) in
    Forall (fun w => w = "Uploading array value types not currently supported.")
      (warnings st) /\
    ((forall fs et e f t v, In (fs, et, e, f, t, v) (combinations m) ->
                            is_array_type t = false) ->
     warnings st = []).
Proof.
  intros m uuid4 n st. unfold st, _parse_schema_and_data. split.
  - destruct (@encoded_rows_warnings uuid4 (written_rows m)) with (st := initial_state n)
      as [ws [E Hws]].
    + intros row H. apply written_rows_encoded in H.
      destruct H as [k [et [e [f [t [v [_ ->]]]]]]]. eauto 7.
    + rewrite E. exact Hws.
  - intros Hscalar. apply scalar_rows_log_nothing.
    intros row H. apply written_rows_encoded in H.
    destruct H as [k [et [e [f [t [v [Hin ->]]]]]]].
    exists k, et, e, f, t, v. split; [reflexivity|]. eapply Hscalar, Hin.
Qed.

(** * The export file holds only what was selected *)

Lemma dict_in_set V (d : Dict.t V) k v k' v' :
  In (k', v') (Dict.set d k v) -> (k' = k /\ v' = v) \/ In (k', v') d.
Proof.
  induction d as [|[k0 v0] d IH]; simpl.
  - intros [[= <- <-]|[]]. now left.
  - destruct (String.eqb k0 k) eqn:E; simpl.
    + apply String.eqb_eq in E. subst k0.
      intros [[= <- <-]|H]; auto.
    + intros [H|H]; auto. destruct (IH H); auto.
Qed.

Section ExportedFile.
Variable Exn : Type.
Variable uuid4 : nat -> string.
Variables project_id region gcs_path : string.
Variables featurestore_id_regex entity_type_id_regex : string.
Variable raises : Trace Exn -> Call -> option Exn.
Variable downloaded_rows : Trace Exn -> Blob -> list Row.
Variable list_featurestores : Trace Exn -> string -> list string * option Exn.
Variable list_entity_types : Trace Exn -> string -> list string * option Exn.
Variable list_features : Trace Exn -> string -> list RemoteFeature * option Exn.
Variable re_match : string -> string -> outcome Exn bool.

Lemma export_listed_entity_type_in FS name :
  (forall et T, In (et, T) (entity_types FS) ->
                re_match entity_type_id_regex et = Returned true) ->
  returns
    (fun FS' => forall et T, In (et, T) (entity_types FS') ->
                             re_match entity_type_id_regex et = Returned true)
    (DataExporter.export_listed_entity_type uuid4 gcs_path entity_type_id_regex
       raises downloaded_rows list_features re_match FS name).
Proof.
  intros J w FS' H. unfold DataExporter.export_listed_entity_type in H.
  apply bind_returned in H. destruct H as [matched [w1 [E H]]].
  unfold DataExporter.lift in E. injection E as E _.
  destruct matched; cbn [negb] in H; [|injection H as <-; exact J].
  unfold DataExporter._export_entity_type_data in H.
  destruct (Dict.getitem EntityType_default (entity_types FS)
              (last_segment name)) as [entity_type_data ets] eqn:G.
  apply bind_returned in H. destruct H as [data1 [w2 [_ H]]].
  apply bind_returned in H. destruct H as [data2 [w3 [_ H]]].
  injection H as <-. cbn [entity_types].
  replace ets with (snd (Dict.getitem EntityType_default (entity_types FS)
                           (last_segment name))) by now rewrite G.
  rewrite dict_set_getitem. intros et T Hin.
  apply dict_in_set in Hin. destruct Hin as [[-> _]|Hin]; eauto.
Qed.

Lemma export_listed_featurestore_in m name :
  (forall k FS, In (k, FS) m ->
     re_match featurestore_id_regex k = Returned true /\
     forall et T, In (et, T) (entity_types FS) ->
                  re_match entity_type_id_regex et = Returned true) ->
  returns
    (fun m' => forall k FS, In (k, FS) m' ->
       re_match featurestore_id_regex k = Returned true /\
       forall et T, In (et, T) (entity_types FS) ->
                    re_match entity_type_id_regex et = Returned true)
    (DataExporter.export_listed_featurestore uuid4 gcs_path
       featurestore_id_regex entity_type_id_regex raises downloaded_rows
       list_entity_types list_features re_match m name).
Proof.
  intros I w m' H. unfold DataExporter.export_listed_featurestore in H.
  apply bind_returned in H. destruct H as [matched [w1 [E H]]].
  unfold DataExporter.lift in E. injection E as E _.
  destruct matched; cbn [negb] in H; [|injection H as <-; exact I].
  unfold DataExporter._export_featurestore_data in H.
  destruct (Dict.getitem Featurestore_default m (last_segment name))
    as [featurestore_data fss] eqn:G.
  apply bind_returned in H. destruct H as [data [w2 [Hl H]]].
  injection H as <-.
  replace fss with (snd (Dict.getitem Featurestore_default m (last_segment name)))
    by now rewrite G.
  rewrite dict_set_getitem.
  assert (J0 : forall et T, In (et, T) (entity_types featurestore_data) ->
                            re_match entity_type_id_regex et = Returned true).
  { unfold Dict.getitem in G.
    destruct (Dict.get m (last_segment name)) as [FS|] eqn:Gm;
      injection G as <- _.
    - apply dict_get_In in Gm. apply (I _ _ Gm).
    - intros et T []. }
  assert (Hl' : fst (DataExporter.for_listed
                       (fun tr => list_entity_types tr name)
                       (DataExporter.export_listed_entity_type uuid4 gcs_path
                          entity_type_id_regex raises downloaded_rows
                          list_features re_match)
                       featurestore_data w1) = Returned data)
    by now rewrite Hl.
  apply for_listed_returned in Hl'. destruct Hl' as [_ Hf].
  pose proof (@returns_fold_m Exn _ _
                (fun _ FS' => forall et T, In (et, T) (entity_types FS') ->
                                           re_match entity_type_id_regex et = Returned true)
                _ _ (fun done a s0 _ HI => @export_listed_entity_type_in s0 a HI)
                [] featurestore_data J0 w1 data Hf) as J.
  intros k FS Hin. apply dict_in_set in Hin.
  destruct Hin as [[-> ->]|Hin]; [|now apply I].
  split; [exact E|exact J].
Qed.

Lemma discovered_model_selected (w : World Exn) m :
  fst (DataExporter._export_featurestores uuid4 project_id region gcs_path
         featurestore_id_regex entity_type_id_regex raises downloaded_rows
         list_featurestores list_entity_types list_features re_match w)
  = Returned m ->
  forall k FS, In (k, FS) m ->
    re_match featurestore_id_regex k = Returned true /\
    forall et T, In (et, T) (entity_types FS) ->
                 re_match entity_type_id_regex et = Returned true.
Proof.
  intros H. unfold DataExporter._export_featurestores in H.
  apply bind_returned in H. destruct H as [[] [w1 [_ H]]].
  apply for_listed_returned in H. destruct H as [_ Hf].
  refine (@returns_fold_m Exn _ _
            (fun _ (m' : Model) => forall k FS, In (k, FS) m' ->
               re_match featurestore_id_regex k = Returned true /\
               forall et T, In (et, T) (entity_types FS) ->
                            re_match entity_type_id_regex et = Returned true)
            _ _ (fun done a s0 _ HI => @export_listed_featurestore_in s0 a HI)
            [] Dict.empty _ w1 m Hf).
  intros k FS [].
Qed.

(** X24: the export file holds only what was selected.  When a run of
    the exporter returns, every row handed to the file writer is a line of
    twelve tokens for a featurestore and an entity type whose identifiers are
    matched by the regexes of the tool. *)
Theorem X24_export_file_holds_only_selected_rows :
  forall (w : World Exn) (rows : list Row),
    fst (DataExporter.execute uuid4 project_id region gcs_path
           featurestore_id_regex entity_type_id_regex raises downloaded_rows
           list_featurestores list_entity_types list_features re_match w)
    = Returned rows ->
    forall row, In row rows ->
      exists fs et e f t v,
        row = line_data fs et e f (ValueType_name t) v /\
        re_match featurestore_id_regex fs = Returned true /\
        re_match entity_type_id_regex et = Returned true.
Proof.
  intros w rows H row Hin. unfold DataExporter.execute in H.
  apply bind_returned in H. destruct H as [m [w1 [E H]]].
  injection H as <-.
  apply written_rows_encoded in Hin.
  destruct Hin as [fs [et [e [f [t [v [Hc ->]]]]]]].
  apply in_combinations in Hc.
  destruct Hc as [FS [T [E0 [F [H1 [H2 _]]]]]].
  assert (E' : fst (DataExporter._export_featurestores uuid4 project_id region
                      gcs_path featurestore_id_regex entity_type_id_regex
                      raises downloaded_rows list_featurestores
                      list_entity_types list_features re_match w) = Returned m)
    by now rewrite E.
  destruct (discovered_model_selected _ E' _ _ H1) as [Hfs Het].
  exists fs, et, e, f, t, v. split; [reflexivity|]. split; [exact Hfs|].
  exact (Het _ _ H2).
Qed.

End ExportedFile.

(** X24 at the sample service: the only row written is for [fs1] and
    [human], which the regexes [fs] and [h] select. *)
Lemma X24_export_file_holds_only_selected_rows_witness :
  exists fs et e f t v,
    ["featurestores"; "fs1"; "entityTypes"; "human"; "entities"; "bob";
     "features"; "height"; "featureDataTypes"; "INT64"; "featureValues"; "4"]
    = line_data fs et e f (ValueType_name t) v /\
    literal_match "fs" fs = Returned true /\
    literal_match "h" et = Returned true.
Proof.
  apply (@X24_export_file_holds_only_selected_rows string sample_uuid4 "p" "r"
           "gs://b/x" "fs" "h" no_failure sample_download sample_featurestores
           sample_entity_types sample_features literal_match empty_world
           [["featurestores"; "fs1"; "entityTypes"; "human"; "entities"; "bob";
             "features"; "height"; "featureDataTypes"; "INT64";
             "featureValues"; "4"]] eq_refl).
  now left.
Defined.

(** * The export file has one row per combination *)

Lemma wf_set_data_type T f v :
  wf_entity_type T -> wf_entity_type (set_data_type T f v).
Proof.
  intros [Hmd [Hent Hall]]. unfold set_data_type.
  destruct (Dict.getitem FeatureMetadata_default (features_metadata T) f)
    as [x md] eqn:G.
  replace md with (snd (Dict.getitem FeatureMetadata_default (features_metadata T) f))
    by now rewrite G.
  rewrite dict_set_getitem. split; [|split]; cbn [features_metadata entities]; auto.
  now apply dict_wf_set.
Qed.

Lemma wf_listed_metadata (l : list RemoteFeature) T :
  wf_entity_type T ->
  wf_entity_type
    (fold_left
       (fun data feature =>
          set_data_type data (last_segment (feature_resource_name feature))
            (value_type feature)) l T).
Proof.
  revert T. induction l as [|a l IH]; intros T H; simpl; auto.
  apply IH. now apply wf_set_data_type.
Qed.

Lemma wf_process_columns entity_type_id l acc :
  wf_entity_type (snd acc) ->
  wf_entity_type (snd (fold_left (process_column entity_type_id) l acc)).
Proof.
  revert acc. induction l as [|[n v] l IH]; intros [eid d] H; [exact H|].
  rewrite process_columns_cons. apply IH.
  destruct (String.eqb n ("entity_type_" +++ entity_type_id)); auto.
  destruct (String.eqb n "feature_timestamp"); auto.
  cbn [snd] in *. now apply wf_set_feature_value.
Qed.

Lemma wf_process_entities entity_type_id T csv_rows :
  wf_entity_type T ->
  wf_entity_type (_process_entities_and_features entity_type_id T csv_rows).
Proof.
  destruct csv_rows as [|header data_rows]; [auto|].
  rewrite process_entities_fold. revert T.
  induction data_rows as [|row data_rows IH]; intros T H; simpl; auto.
  apply IH. rewrite process_data_line_fold. now apply wf_process_columns.
Qed.

Lemma row_key_encode c : row_key (encode_combination c) = combination_key c.
Proof. now destruct c as [[[[[fs et] e] f] t] v]. Qed.

Section ExportedModelWf.
Variable Exn : Type.
Variable uuid4 : nat -> string.
Variables project_id region gcs_path : string.
Variables featurestore_id_regex entity_type_id_regex : string.
Variable raises : Trace Exn -> Call -> option Exn.
Variable downloaded_rows : Trace Exn -> Blob -> list Row.
Variable list_featurestores : Trace Exn -> string -> list string * option Exn.
Variable list_entity_types : Trace Exn -> string -> list string * option Exn.
Variable list_features : Trace Exn -> string -> list RemoteFeature * option Exn.
Variable re_match : string -> string -> outcome Exn bool.

Lemma export_feature_metadata_wf T name :
  wf_entity_type T ->
  returns wf_entity_type
    (DataExporter._export_feature_metadata list_features T name).
Proof.
  intros H w T1.
  unfold DataExporter._export_feature_metadata, DataExporter.for_listed, bind.
  rewrite fold_m_ret.
  destruct (snd (list_features (trace w) name)); [discriminate|].
  unfold ret. intros [= <-]. now apply wf_listed_metadata.
Qed.

Lemma export_listed_entity_type_wf FS name :
  wf_featurestore FS ->
  returns wf_featurestore
    (DataExporter.export_listed_entity_type uuid4 gcs_path entity_type_id_regex
       raises downloaded_rows list_features re_match FS name).
Proof.
  intros [Hwf Hall] w FS' H. unfold DataExporter.export_listed_entity_type in H.
  apply bind_returned in H. destruct H as [matched [w1 [_ H]]].
  destruct matched; cbn [negb] in H; [|injection H as <-; now split].
  unfold DataExporter._export_entity_type_data in H.
  destruct (Dict.getitem EntityType_default (entity_types FS)
              (last_segment name)) as [entity_type_data ets] eqn:G.
  assert (H0 : wf_entity_type entity_type_data).
  { replace entity_type_data
      with (fst (Dict.getitem EntityType_default (entity_types FS)
                   (last_segment name))) by now rewrite G.
    apply Forall_dict_getitem; [exact Hall|apply wf_entity_type_default]. }
  apply bind_returned in H. destruct H as [data1 [w2 [E1 H]]].
  assert (H1 : wf_entity_type data1).
  { apply (@export_feature_metadata_wf entity_type_data name H0 w1).
    now rewrite E1. }
  apply bind_returned in H. destruct H as [data2 [w3 [E2 H]]].
  assert (H2 : wf_entity_type data2).
  { assert (E2' : fst (_export_entity_type_entity_data uuid4 gcs_path raises
                         downloaded_rows (last_segment name) data1 name w2)
                  = Returned data2) by now rewrite E2.
    apply export_entity_type_entity_data_returned in E2'. rewrite E2'.
    now apply wf_process_entities. }
  injection H as <-. unfold wf_featurestore. cbn [entity_types].
  replace ets with (snd (Dict.getitem EntityType_default (entity_types FS)
                           (last_segment name))) by now rewrite G.
  rewrite dict_set_getitem. split.
  - now apply dict_wf_set.
  - now apply Forall_dict_set.
Qed.

Lemma export_listed_featurestore_wf m name :
  wf_model m ->
  returns wf_model
    (DataExporter.export_listed_featurestore uuid4 gcs_path
       featurestore_id_regex entity_type_id_regex raises downloaded_rows
       list_entity_types list_features re_match m name).
Proof.
  intros [Hwf Hall] w m' H. unfold DataExporter.export_listed_featurestore in H.
  apply bind_returned in H. destruct H as [matched [w1 [_ H]]].
  destruct matched; cbn [negb] in H; [|injection H as <-; now split].
  unfold DataExporter._export_featurestore_data in H.
  destruct (Dict.getitem Featurestore_default m (last_segment name))
    as [featurestore_data fss] eqn:G.
  assert (H0 : wf_featurestore featurestore_data).
  { replace featurestore_data
      with (fst (Dict.getitem Featurestore_default m (last_segment name)))
      by now rewrite G.
    apply Forall_dict_getitem; [exact Hall|]. split; constructor. }
  apply bind_returned in H. destruct H as [data [w2 [Hl H]]].
  injection H as <-.
  assert (Hl' : fst (DataExporter.for_listed
                       (fun tr => list_entity_types tr name)
                       (DataExporter.export_listed_entity_type uuid4 gcs_path
                          entity_type_id_regex raises downloaded_rows
                          list_features re_match)
                       featurestore_data w1) = Returned data)
    by now rewrite Hl.
  apply for_listed_returned in Hl'. destruct Hl' as [_ Hf].
  pose proof (@returns_fold_m Exn _ _ (fun _ FS' => wf_featurestore FS')
                _ _ (fun done a s0 _ HI => @export_listed_entity_type_wf s0 a HI)
                [] featurestore_data H0 w1 data Hf) as J.
  replace fss with (snd (Dict.getitem Featurestore_default m (last_segment name)))
    by now rewrite G.
  rewrite dict_set_getitem. split.
  - now apply dict_wf_set.
  - now apply Forall_dict_set.
Qed.

Lemma discovered_model_wf (w : World Exn) m :
  fst (DataExporter._export_featurestores uuid4 project_id region gcs_path
         featurestore_id_regex entity_type_id_regex raises downloaded_rows
         list_featurestores list_entity_types list_features re_match w)
  = Returned m ->
  wf_model m.
Proof.
  intros H. unfold DataExporter._export_featurestores in H.
  apply bind_returned in H. destruct H as [[] [w1 [_ H]]].
  apply for_listed_returned in H. destruct H as [_ Hf].
  refine (@returns_fold_m Exn _ _ (fun _ (m' : Model) => wf_model m')
            _ _ (fun done a s0 _ HI => @export_listed_featurestore_wf s0 a HI)
            [] Dict.empty _ w1 m Hf).
  split; constructor.
Qed.

(** X25: the export file has one row per combination.  When a run of
    the exporter returns, no two rows handed to the file writer name the same
    featurestore, entity type, entity and feature, whatever the listings and
    the downloaded CSVs hold: a resource listed twice, a column or an entity
    met again only overwrite what was recorded. *)
Theorem X25_export_file_has_one_row_per_combination :
  forall (w : World Exn) (rows : list Row),
    fst (DataExporter.execute uuid4 project_id region gcs_path
           featurestore_id_regex entity_type_id_regex raises downloaded_rows
           list_featurestores list_entity_types list_features re_match w)
    = Returned rows ->
    NoDup (map row_key rows).
Proof.
  intros w rows H. unfold DataExporter.execute in H.
  apply bind_returned in H. destruct H as [m [w1 [E H]]].
  injection H as <-.
  assert (E' : fst (DataExporter._export_featurestores uuid4 project_id region
                      gcs_path featurestore_id_regex entity_type_id_regex
                      raises downloaded_rows list_featurestores
                      list_entity_types list_features re_match w) = Returned m)
    by now rewrite E.
  apply discovered_model_wf in E'.
  rewrite written_rows_encode, map_map.
  rewrite (map_ext _ combination_key row_key_encode).
  now apply combinations_NoDup.
Qed.

End ExportedModelWf.

(** X25 at the sample service with a download in which [bob] comes
    twice: one row is written, with the later value. *)
Lemma X25_export_file_has_one_row_per_combination_witness :
  fst (DataExporter.execute sample_uuid4 "p" "r" "gs://b/x" "fs" "h" no_failure
         repeated_download sample_featurestores sample_entity_types
         sample_features literal_match empty_world)
  = Returned
      [["featurestores"; "fs1"; "entityTypes"; "human"; "entities"; "bob";
        "features"; "height"; "featureDataTypes"; "INT64"; "featureValues"; "5"]] /\
  NoDup [("fs1", "human", "bob", "height")].
Proof.
  split; [reflexivity|].
  exact (@X25_export_file_has_one_row_per_combination string sample_uuid4
           "p" "r" "gs://b/x" "fs" "h" no_failure repeated_download
           sample_featurestores sample_entity_types sample_features
           literal_match empty_world _ eq_refl).
Defined.

(** * Data rows shorter or longer than the header *)

Lemma combine_app_l A B (l1 l2 : list A) (l : list B) :
  length l <= length l1 -> combine (l1 ++ l2) l = combine l1 l.
Proof.
  revert l. induction l1 as [|a l1 IH]; intros [|b l] H; simpl in *; auto;
    try lia.
  - now destruct l2.
  - rewrite IH by lia. reflexivity.
Qed.

Lemma combine_app_r A B (l : list A) (l1 l2 : list B) :
  length l <= length l1 -> combine l (l1 ++ l2) = combine l l1.
Proof.
  revert l1. induction l as [|a l IH]; intros [|b l1] H; simpl in *; auto;
    try lia.
  rewrite IH by lia. reflexivity.
Qed.

(** X26: a data row need not be as long as the header.  [zip] stops at
    the shorter of the two: the values beyond the last column are ignored,
    and the columns beyond the last value set nothing, so that a short row
    raises no error and leaves the features of the missing columns as they
    were. *)
Theorem X26_short_and_long_data_rows :
  forall (entity_type_id : string) (d : EntityType)
         (header more_columns values more_values : list string),
    length header = length values ->
    _process_data_line entity_type_id d header (values ++ more_values) =
    _process_data_line entity_type_id d header values /\
    _process_data_line entity_type_id d (header ++ more_columns) values =
    _process_data_line entity_type_id d header values /\
    (forall e f, ~ In f header ->
       et_value (_process_data_line entity_type_id d (header ++ more_columns)
                   values) e f = et_value d e f).
Proof.
  intros et_id d header more_columns values more_values L.
  rewrite !process_data_line_fold.
  rewrite combine_app_r by lia. rewrite combine_app_l by lia.
  split; [reflexivity|]. split; [reflexivity|].
  intros e f Hnot. apply process_columns_frame. right. left.
  now apply not_in_combine_fst.
Qed.

(** X26 at a row that lacks the value of the last column. *)
Lemma X26_short_and_long_data_rows_witness :
  et_value (_process_data_line "human" EntityType_default
              ["entity_type_human"; "height"; "awake"] ["bob"; "4"])
    "bob" "awake" = None /\
  et_value (_process_data_line "human" EntityType_default
              ["entity_type_human"; "height"; "awake"] ["bob"; "4"])
    "bob" "height" = Some "4".
Proof.
  destruct (@X26_short_and_long_data_rows "human" EntityType_default
              ["entity_type_human"; "height"] ["awake"] ["bob"; "4"] []
              eq_refl) as [_ [E H]].
  split.
  - apply (H "bob" "awake"). simpl. intuition discriminate.
  - change (["entity_type_human"; "height"; "awake"])
      with (["entity_type_human"; "height"] ++ ["awake"]).
    rewrite E. reflexivity.
Defined.

(** * The staged CSV of an import run holds the values of the model *)

(** X27: whatever the services do, every CSV an import run uploads for
    a parsed file has pairwise distinct feature columns, one row per entity
    with pairwise distinct entity identifiers, and in the row of an entity,
    under each feature column, the value the model holds for that entity and
    feature, or the empty string when it holds none. *)
Theorem X27_staged_csv_holds_the_model_values :
  forall (Exn : Type) (uuid4 : nat -> string) (gcs_path : string)
         (raises : Trace Exn -> Call -> option Exn)
         (rows : list Row) (n : nat) (w : World Exn),
    let m := featurestores (_parse_schema_and_data uuid4 n rows) in
    let run := _upload_data uuid4 gcs_path raises m w in
    exists tr,
      trace (snd run) = trace w ++ tr /\
      forall b csv_rows o,
        In (upload_from_file b csv_rows, o) tr ->
        exists fs et col feature_ids,
          hd [] csv_rows = col :: feature_ids /\
          NoDup feature_ids /\
          NoDup (map (hd "") (tl csv_rows)) /\
          forall e cells,
            In (e :: cells) (tl csv_rows) ->
            cells = map (fun f => match value_of m fs et e f with
                                  | Some v => v
                                  | None => ""
                                  end) feature_ids.
Proof.
  intros Exn uuid4 gcs_path raises rows n w m run.
  destruct (upload_data_uploads_staged_csv uuid4 gcs_path raises m w)
    as [tr [E H]].
  exists tr. split; [exact E|].
  intros b csv_rows o Hin. rewrite Forall_forall in H.
  apply H in Hin. cbn [fst uploads_staged_csv] in Hin.
  destruct Hin as [fs [FS [et [T [s [H1 [H2 ->]]]]]]].
  pose proof (wf_model_parsed uuid4 n rows) as Hwf. fold m in Hwf.
  destruct (@wf_model_find m fs FS et T Hwf H1 H2) as [Hfind [Hmd [Hent Hall]]].
  exists fs, et, ("entity_id_" +++ s), (Dict.keys (features_metadata T)).
  unfold staged_csv. cbn [hd tl]. split; [reflexivity|]. split; [exact Hmd|].
  split.
  - rewrite map_map. cbn [hd]. exact Hent.
  - intros e cells Hrow. apply in_map_iff in Hrow.
    destruct Hrow as [[e' E'] [[= -> <-] HE]]. cbn [fst snd].
    unfold staged_cells. apply map_ext. intros f.
    unfold value_of. rewrite Hfind. unfold et_value.
    rewrite (@dict_In_get _ (entities T) e E' Hent HE).
    now destruct (Dict.get (features E') f).
Qed.

(** * The last data row of an entity wins *)

Lemma data_line_of_other_entity entity_type_id d cols (row : Row) e f :
  hd "" row <> e ->
  (forall c, In c cols -> reserved_column entity_type_id c = false) ->
  et_value (_process_data_line entity_type_id d
              (("entity_type_" +++ entity_type_id) :: cols) row) e f =
  et_value d e f.
Proof.
  intros Hrow Hres. rewrite process_data_line_fold.
  destruct row as [|e' vals]; [reflexivity|]. cbn [hd] in Hrow.
  change (combine (("entity_type_" +++ entity_type_id) :: cols) (e' :: vals))
    with (("entity_type_" +++ entity_type_id, e') :: combine cols vals).
  rewrite process_columns_cons, String.eqb_refl.
  apply process_columns_frame. right. right.
  split; [intros E; now apply Hrow|].
  intros v. left. intros Hin.
  apply in_combine_l in Hin. apply Hres in Hin.
  unfold reserved_column in Hin. now rewrite String.eqb_refl in Hin.
Qed.

(** X28: in the staged CSV the last data row of an entity wins.  With a
    header made of the entity-identifier column and distinct feature columns,
    none of them reserved, the values an entity has after the whole CSV was
    decoded are those of the last data row that starts with its identifier,
    whatever the rows before it and the rows of other entities after it
    hold. *)
Theorem X28_last_data_row_of_an_entity_wins :
  forall (entity_type_id : string) (d : EntityType) (e : string)
         (cols vals : list string) (before after : list Row),
    length cols = length vals ->
    NoDup cols ->
    (forall c, In c cols -> reserved_column entity_type_id c = false) ->
    Forall (fun row : Row => hd "" row <> e) after ->
    let header := ("entity_type_" +++ entity_type_id) :: cols in
    let d' := _process_entities_and_features entity_type_id d
                (header :: before ++ (e :: vals) :: after) in
    forall f v, In (f, v) (combine cols vals) -> et_value d' e f = Some v.
Proof.
  intros et_id d e cols vals before after L Hnd Hres Hafter header d' f v Hin.
  unfold d'. rewrite process_entities_fold, fold_left_app. cbn [fold_left].
  set (d0 := fold_left
               (fun data row => _process_data_line et_id data header row)
               before d).
  assert (H1 : et_value (_process_data_line et_id d0 header (e :: vals)) e f
               = Some v).
  { unfold header. rewrite process_data_line_fold.
    change (combine (("entity_type_" +++ et_id) :: cols) (e :: vals))
      with (("entity_type_" +++ et_id, e) :: combine cols vals).
    rewrite process_columns_cons, String.eqb_refl.
    apply process_columns_regular; auto;
      rewrite map_fst_combine by exact L; auto. }
  revert H1. generalize (_process_data_line et_id d0 header (e :: vals)).
  clear d0. induction Hafter as [|row after Hrow Hafter IH]; intros d1 H1;
    [exact H1|].
  cbn [fold_left]. apply IH.
  unfold header. rewrite data_line_of_other_entity; auto.
Qed.

(** X28 at a CSV in which [bob] comes twice and [sally] last. *)
Lemma X28_last_data_row_of_an_entity_wins_witness :
  et_value (_process_entities_and_features "human" EntityType_default
              [["entity_type_human"; "height"];
               ["bob"; "4"]; ["bob"; "5"]; ["sally"; "3"]])
    "bob" "height" = Some "5".
Proof.
  assert (N : NoDup ["height"]) by (repeat constructor; simpl; tauto).
  assert (R : forall c, In c ["height"] -> reserved_column "human" c = false)
    by (intros c [<-|[]]; reflexivity).
  assert (A : Forall (fun row : Row => hd "" row <> "bob") [["sally"; "3"]])
    by (repeat constructor; discriminate).
  apply (@X28_last_data_row_of_an_entity_wins "human" EntityType_default "bob"
           ["height"] ["5"] [["bob"; "4"]] [["sally"; "3"]] eq_refl N R A).
  now left.
Defined.

(** * The feature time of an ingestion job *)

(** X29: the feature time of an ingestion job is in whole milliseconds.
    The nanoseconds kept are a multiple of a million, at most the
    nanoseconds of the clock and less than a millisecond below them;
    truncating again changes nothing; and nanoseconds within a second stay
    within that second. *)
Theorem X29_feature_time_in_whole_milliseconds :
  forall nanos : Z,
    let kept := truncate_nanos nanos in
    (kept mod 1000000 = 0)%Z /\
    (kept <= nanos < kept + 1000000)%Z /\
    truncate_nanos kept = kept /\
    ((0 <= nanos < 1000000000)%Z -> (0 <= kept < 1000000000)%Z).
Proof.
  intros nanos kept. unfold kept, truncate_nanos.
  pose proof (Z.div_mod nanos 1000000 ltac:(lia)) as D.
  pose proof (Z.mod_pos_bound nanos 1000000 ltac:(lia)) as B.
  split; [|split; [|split]].
  - apply Z.mod_mul. lia.
  - lia.
  - rewrite Z.div_mul by lia. reflexivity.
  - intros R. lia.
Qed.

(** * Staging objects, one entity type at a time *)

Section StagingFacts.
Variable Exn : Type.
Variable uuid4 : nat -> string.
Variable gcs_path : string.
Variable raises : Trace Exn -> Call -> option Exn.
Variable downloaded_rows : Trace Exn -> Blob -> list Row.

Lemma staged_returned b body (seg : Trace Exn) :
  staged b body seg (Returned tt) ->
  seg = (storage_blob b, None)
          :: map (fun c => (c, None)) body ++ [(blob_delete b, None)].
Proof.
  intros H. remember (Returned tt : outcome Exn unit) as r eqn:Er.
  destruct H as [x|done c rest x d E|d]; try discriminate.
  destruct d; [discriminate|reflexivity].
Qed.

(** The calls [_upload_data] makes for one entity type. *)
Lemma upload_entity_type_staged fs et T (w : World Exn) :
  let path := path_join gcs_path (et +++ "_" +++ suffix uuid4 (uuids w) +++ ".csv") in
  let b := {| blob_serial := length (trace w); blob_path := path |} in
  let col := "entity_id_" +++ suffix uuid4 (S (uuids w)) in
  exists seg,
    trace (snd (upload_entity_type uuid4 gcs_path raises fs (et, T) w))
    = trace w ++ seg /\
    staged b
      [upload_from_file b (staged_csv col T);
       import_feature_values fs et path col (Dict.keys (features_metadata T))]
      seg (fst (upload_entity_type uuid4 gcs_path raises fs (et, T) w)).
Proof.
  intros path b col.
  assert (Hcsv : (col :: Dict.keys (features_metadata T))
                   :: map (fun kv => _write_row T (fst kv) (snd kv)) (entities T)
                 = staged_csv col T).
  { unfold staged_csv. f_equal. apply map_ext. intros kv. apply write_row_cells. }
  unfold upload_entity_type, _create_blob_object, _upload_data_file,
    _write_header, _run_data_ingestion_job, try_finally, bind, new_blob,
    bind, draw_suffix, call, ret.
  cbn [trace uuids fst snd]. fold path. fold b.
  destruct (raises (trace w) (storage_blob b)) as [x|] eqn:R0;
    cbn [trace uuids fst snd]; fold col.
  2: match goal with
     | |- context [upload_from_file b ?rows] =>
         set (csv := rows);
         assert (Ecsv : csv = staged_csv col T) by exact Hcsv;
         clearbody csv; subst csv
     end.
  all: set (up := upload_from_file b (staged_csv col T)).
  all: set (job := import_feature_values fs et path col
                (Dict.keys (features_metadata T))).
  - eexists. split; [reflexivity|]. constructor.
  - destruct (raises (trace w ++ [(storage_blob b, None)]) up) as [x|] eqn:R1;
      cbn [trace uuids fst snd].
    + match goal with
      | |- context [raises ?t (blob_delete b)] =>
          destruct (raises t (blob_delete b)) as [y|] eqn:R2
      end; cbn [trace uuids fst snd];
        (eexists; split; [rewrite <- !app_assoc; reflexivity|]).
      * apply (@staged_block_raised Exn b [up; job] [] up [job] x (Some y) eq_refl).
      * apply (@staged_block_raised Exn b [up; job] [] up [job] x None eq_refl).
    + fold job.
      match goal with
      | |- context [raises ?t job] =>
          destruct (raises t job) as [x|] eqn:R2
      end; cbn [trace uuids fst snd];
      match goal with
      | |- context [raises ?t (blob_delete b)] =>
          destruct (raises t (blob_delete b)) as [y|] eqn:R3
      end; cbn [trace uuids fst snd];
        (eexists; split; [rewrite <- !app_assoc; reflexivity|]).
      * apply (@staged_block_raised Exn b [up; job] [up] job [] x (Some y) eq_refl).
      * apply (@staged_block_raised Exn b [up; job] [up] job [] x None eq_refl).
      * apply (@staged_block_returned Exn b [up; job] (Some y)).
      * apply (@staged_block_returned Exn b [up; job] None).
Qed.

Lemma upload_entity_type_upload_staged fs et T (w : World Exn) :
  exists seg,
    trace (snd (upload_entity_type uuid4 gcs_path raises fs (et, T) w))
    = trace w ++ seg /\
    upload_staged gcs_path (fs, et, T) seg
      (fst (upload_entity_type uuid4 gcs_path raises fs (et, T) w)).
Proof.
  destruct (upload_entity_type_staged fs et T w) as [seg [E H]].
  exists seg. split; [exact E|].
  exists (length (trace w)), (suffix uuid4 (uuids w)),
    (suffix uuid4 (S (uuids w))).
  exact H.
Qed.

(** A loop whose body handles one staging object per item. *)
Lemma for_each_staged_run A (S : A -> Trace Exn -> outcome Exn unit -> Prop)
    (f : A -> M Exn unit) (l : list A) :
  (forall a w, exists seg,
      trace (snd (f a w)) = trace w ++ seg /\ S a seg (fst (f a w))) ->
  forall w, exists tr,
    trace (snd (for_each l f w)) = trace w ++ tr /\
    staged_run S l tr (fst (for_each l f w)).
Proof.
  intros H. induction l as [|a l IH]; intros w.
  - exists []. cbn. rewrite app_nil_r. split; [reflexivity|constructor].
  - cbn [for_each]. unfold bind. destruct (H a w) as [seg [E HS]].
    destruct (f a w) as [[u|x] w1] eqn:F; cbn [fst snd] in *.
    + destruct u. destruct (IH w1) as [tr [E' HS']]. exists (seg ++ tr). split.
      * rewrite E', E, app_assoc. reflexivity.
      * now apply staged_run_next.
    + exists seg. split; [exact E|]. now apply staged_run_stop.
Qed.

Lemma for_each_map A B (g : A -> B) (f : B -> M Exn unit) l (w : World Exn) :
  for_each (map g l) f w = for_each l (fun a => f (g a)) w.
Proof.
  revert w. induction l as [|a l IH]; intros w; simpl; auto.
  unfold bind. destruct (f (g a) w) as [[u|x] w1]; [apply IH | reflexivity].
Qed.

(** The two loops of [_upload_data] as one loop over the entity types. *)
Lemma upload_data_in_order featurestores (w : World Exn) :
  _upload_data uuid4 gcs_path raises featurestores w =
  for_each (entity_types_in_order featurestores)
    (fun '(fs, et, T) => upload_entity_type uuid4 gcs_path raises fs (et, T)) w.
Proof.
  unfold _upload_data, entity_types_in_order. rewrite for_each_flat_map.
  apply for_each_ext. intros [fs FS] w1. rewrite for_each_map.
  apply for_each_ext. now intros [et T] w2.
Qed.

Lemma upload_data_staged_run featurestores (w : World Exn) :
  exists tr,
    trace (snd (_upload_data uuid4 gcs_path raises featurestores w))
    = trace w ++ tr /\
    staged_run (upload_staged gcs_path) (entity_types_in_order featurestores) tr
      (fst (_upload_data uuid4 gcs_path raises featurestores w)).
Proof.
  rewrite upload_data_in_order. apply for_each_staged_run.
  intros [[fs et] T] w'. apply upload_entity_type_upload_staged.
Qed.

(** *** Counting deletions *)

Lemma Blob_eqb_true a b : Blob_eqb a b = true -> a = b.
Proof.
  destruct a as [n p], b as [n' p']. unfold Blob_eqb. cbn [blob_serial blob_path].
  intros H. apply andb_true_iff in H. destruct H as [H1 H2].
  apply Nat.eqb_eq in H1. apply String.eqb_eq in H2. now subst.
Qed.

Lemma filter_andb A (f g : A -> bool) l :
  filter (fun a => f a && g a) l = filter g (filter f l).
Proof.
  induction l as [|a l IH]; simpl; auto.
  destruct (f a); simpl; [destruct (g a); now rewrite IH | exact IH].
Qed.

Lemma successful_deletions_of b (tr : Trace Exn) d :
  deletions b tr = 1 ->
  In (blob_delete b, d) tr ->
  successful_deletions b tr = match d with None => 1 | Some _ => 0 end.
Proof.
  unfold deletions, successful_deletions. intros H Hin.
  rewrite (filter_andb (fun ce : Call * option Exn => deletes b (fst ce))
             (fun ce => match snd ce with None => true | Some _ => false end)).
  assert (Hf : In (blob_delete b, d)
                 (filter (fun ce : Call * option Exn => deletes b (fst ce)) tr)).
  { apply filter_In. split; [exact Hin|]. simpl. apply Blob_eqb_refl. }
  destruct (filter (fun ce : Call * option Exn => deletes b (fst ce)) tr)
    as [|e [|e' l]]; simpl in H; try discriminate.
  destruct Hf as [->|[]]. simpl. now destruct d.
Qed.

Lemma deleted_once_entry b (tr : Trace Exn) :
  deletions b tr = 1 ->
  exists d, In (blob_delete b, d) tr /\
            deletions b tr = 1 /\
            successful_deletions b tr = match d with None => 1 | Some _ => 0 end.
Proof.
  intros H.
  assert (Hd : exists d, In (blob_delete b, d) tr).
  { unfold deletions in H.
    destruct (filter (fun ce : Call * option Exn => deletes b (fst ce)) tr)
      as [|[c d] l] eqn:F; [discriminate|].
    assert (Hin : In (c, d)
                    (filter (fun ce : Call * option Exn => deletes b (fst ce)) tr))
      by (rewrite F; now left).
    apply filter_In in Hin. destruct Hin as [Hin Hc]. simpl in Hc.
    destruct c; try discriminate. apply Blob_eqb_true in Hc. subst b0.
    now exists d. }
  destruct Hd as [d Hd]. exists d. split; [exact Hd|]. split; [exact H|].
  now apply successful_deletions_of.
Qed.

(** *** The ingestion job of an entity type raises *)

Lemma staged_run_ingestion_raised l (tr : Trace Exn) r fs et uri col ids x :
  staged_run (upload_staged gcs_path) l tr r ->
  In (import_feature_values fs et uri col ids, Some x) tr ->
  exists before b csv d,
    tr = before ++ [(storage_blob b, None); (upload_from_file b csv, None);
                    (import_feature_values fs et uri col ids, Some x);
                    (blob_delete b, d)] /\
    blob_path b = uri /\
    (exists s, uri = path_join gcs_path (et +++ "_" +++ s +++ ".csv")) /\
    r = Raised (match d with Some y => y | None => x end).
Proof.
  intros H. induction H as [|[[fs' et'] T'] l seg x0 H|[[fs' et'] T'] l seg tr r H H' IH];
    intros Hin.
  - destruct Hin.
  - destruct H as [n [s [s' H]]]. cbv zeta in H.
    inversion H as [y Hs Hr|done c rest y d Hb Hs Hr|d Hs Hr]; clear H.
    + subst seg. destruct Hin as [Hin|[]]. discriminate.
    + destruct done as [|c1 [|c2 done]]; cbn [app] in Hb.
      * injection Hb as <- <-. subst seg. cbn in Hin.
        destruct Hin as [Hin|[Hin|[Hin|[]]]]; discriminate.
      * injection Hb as <- <- <-. subst seg. cbn in Hin.
        destruct Hin as [Hin|[Hin|[Hin|[Hin|[]]]]]; try discriminate.
        injection Hin as <- <- <- <- <- <-.
        eexists [], _, _, d. split; [reflexivity|].
        split; [reflexivity|]. split; [now exists s|]. reflexivity.
      * injection Hb as _ _ Hb. destruct done; discriminate.
    + subst seg. cbn in Hin.
      destruct Hin as [Hin|[Hin|[Hin|[Hin|[]]]]]; discriminate.
  - destruct H as [n [s [s' H]]]. cbv zeta in H.
    pose proof (staged_returned H) as Es.
    apply in_app_or in Hin. destruct Hin as [Hin|Hin].
    + rewrite Es in Hin. cbn in Hin.
      destruct Hin as [Hin|[Hin|[Hin|[Hin|[]]]]]; discriminate.
    + destruct (IH Hin) as [before [b [csv [d [E [Hp [Hs Hr]]]]]]].
      exists (seg ++ before), b, csv, d. split.
      * rewrite E. now rewrite app_assoc.
      * auto.
Qed.

(** *** The exporter's staging object *)

Lemma export_entity_type_entity_data_staged et_id name data (w : World Exn) :
  let folder := path_join gcs_path (et_id +++ "_" +++ suffix uuid4 (uuids w)) in
  let b := {| blob_serial := length (trace w);
              blob_path := path_join folder "000000000000.csv" |} in
  exists tr,
    trace (snd (_export_entity_type_entity_data uuid4 gcs_path raises
                  downloaded_rows et_id data name w)) = trace w ++ tr /\
    staged b
      [export_feature_values name folder; download_as_bytes b;
       csv_reader_exhausted b]
      tr
      (forget (fst (_export_entity_type_entity_data uuid4 gcs_path raises
                      downloaded_rows et_id data name w))).
Proof.
  intros folder b.
  unfold _export_entity_type_entity_data, _locate_folder_and_blob,
    _export_entity_and_features, try_finally, bind, new_blob, bind,
    draw_suffix, call, ret.
  pose (ex := export_feature_values name folder).
  pose (dl := download_as_bytes b).
  pose (rd := csv_reader_exhausted b).
  cbn [trace uuids fst snd]. fold folder. fold b.
  destruct (raises (trace w) (storage_blob b)) as [x|] eqn:R0;
    cbn [trace uuids fst snd forget]; fold folder; fold b; fold ex; fold dl; fold rd.
  - eexists. split; [reflexivity|]. constructor.
  - destruct (raises (trace w ++ [(storage_blob b, None)]) ex) as [x|] eqn:R1;
      cbn [trace uuids fst snd forget]; fold folder; fold b; fold ex; fold dl; fold rd.
    + match goal with
      | |- context [raises ?t (blob_delete b)] =>
          destruct (raises t (blob_delete b)) as [y|] eqn:R2
      end; cbn [trace uuids fst snd forget]; fold folder; fold b; fold ex; fold dl; fold rd;
        (eexists; split; [rewrite <- !app_assoc; reflexivity|]).
      * apply (@staged_block_raised Exn b [ex; dl; rd] [] ex [dl; rd] x (Some y) eq_refl).
      * apply (@staged_block_raised Exn b [ex; dl; rd] [] ex [dl; rd] x None eq_refl).
    + match goal with
      | |- context [raises ?t dl] =>
          destruct (raises t dl) as [x|] eqn:R2
      end; cbn [trace uuids fst snd forget]; fold folder; fold b; fold ex; fold dl; fold rd.
      * match goal with
        | |- context [raises ?t (blob_delete b)] =>
            destruct (raises t (blob_delete b)) as [y|] eqn:R3
        end; cbn [trace uuids fst snd forget]; fold folder; fold b; fold ex; fold dl; fold rd;
          (eexists; split; [rewrite <- !app_assoc; reflexivity|]).
        -- apply (@staged_block_raised Exn b [ex; dl; rd] [ex] dl [rd] x (Some y) eq_refl).
        -- apply (@staged_block_raised Exn b [ex; dl; rd] [ex] dl [rd] x None eq_refl).
      * match goal with
        | |- context [raises ?t rd] =>
            destruct (raises t rd) as [x|] eqn:R3
        end; cbn [trace uuids fst snd forget]; fold folder; fold b; fold ex; fold dl; fold rd;
        match goal with
        | |- context [raises ?t (blob_delete b)] =>
            destruct (raises t (blob_delete b)) as [y|] eqn:R4
        end; cbn [trace uuids fst snd forget]; fold folder; fold b; fold ex; fold dl; fold rd;
          (eexists; split; [rewrite <- !app_assoc; reflexivity|]).
        -- apply (@staged_block_raised Exn b [ex; dl; rd] [ex; dl] rd [] x (Some y) eq_refl).
        -- apply (@staged_block_raised Exn b [ex; dl; rd] [ex; dl] rd [] x None eq_refl).
        -- apply (@staged_block_returned Exn b [ex; dl; rd] (Some y)).
        -- apply (@staged_block_returned Exn b [ex; dl; rd] None).
Qed.

Lemma staged_ends_with_deletion b body (tr : Trace Exn) r :
  staged b body tr r ->
  In (storage_blob b, None) tr ->
  exists before d,
    tr = before ++ [(blob_delete b, d)] /\
    (forall c x, In (c, Some x) before ->
                 r = Raised (match d with Some y => y | None => x end)).
Proof.
  intros H Hin. destruct H as [x|done c rest x d E|d].
  - destruct Hin as [Hin|[]]. discriminate.
  - exists ((storage_blob b, None)
              :: map (fun c' => (c', None)) done ++ [(c, Some x)]), d.
    split.
    + cbn [app]. now rewrite <- app_assoc.
    + intros c' x' [H|H]; [discriminate|].
      apply in_app_or in H. destruct H as [H|[H|[]]].
      * apply in_map_iff in H. destruct H as [c'' [H _]]. discriminate.
      * now injection H as _ <-.
  - exists ((storage_blob b, None) :: map (fun c' => (c', None)) body), d.
    split; [reflexivity|].
    intros c' x' [H|H]; [discriminate|].
    apply in_map_iff in H. destruct H as [c'' [H _]]. discriminate.
Qed.

(** C2, as the code has it: the cleanup of staging objects, one entity type
    at a time.

    Importer.  The calls of [_upload_data] are, for the entity types of the
    model in order, those of [upload_staged]: the blob object named after
    the entity type is made, the CSV of the entity type is uploaded to it,
    the ingestion job is run on it, and [blob.delete()] is called on it
    whether or not the upload or the job raised; the first entity type that
    ends in an exception ends the run.  For every blob object that was made,
    [blob.delete()] is called exactly once, and the object is deleted exactly
    once when that call returns and not at all when it raises.  When the
    ingestion job of an entity type raises [x], the run ends with the
    creation of the blob object of that entity type, the upload, the failed
    job and one call of [blob.delete()] on that object: if the deletion
    returns, the object has been deleted once and [x] leaves [_upload_data];
    if the deletion raises, the object has not been deleted and the
    exception of the deletion leaves [_upload_data] in place of [x].

    Exporter.  The calls of [_export_entity_type_entity_data] are those of
    one staging object named after the entity type, with the export job, the
    download and the decoding of the downloaded rows in the [try] block.
    Once the blob object has been made, the last call is [blob.delete()] on
    it, the only one, whichever call of the block raised; the object is
    deleted exactly once when that call returns; and an exception [x] of the
    export job, the download or the decoding leaves the function, unless the
    deletion raised, whose exception then leaves it. *)
Theorem C2_staging_blob_delete_called_on_every_exit_path :
  (forall (featurestores : Model) (w : World Exn),
      let run := _upload_data uuid4 gcs_path raises featurestores w in
      exists tr,
        trace (snd run) = trace w ++ tr /\
        staged_run (upload_staged gcs_path)
          (entity_types_in_order featurestores) tr (fst run) /\
        (forall b,
            In (storage_blob b, None) tr ->
            exists d,
              In (blob_delete b, d) tr /\
              deletions b tr = 1 /\
              successful_deletions b tr
              = match d with None => 1 | Some _ => 0 end) /\
        (forall fs et uri col ids x,
            In (import_feature_values fs et uri col ids, Some x) tr ->
            exists before b csv d,
              tr = before ++ [(storage_blob b, None);
                              (upload_from_file b csv, None);
                              (import_feature_values fs et uri col ids, Some x);
                              (blob_delete b, d)] /\
              blob_path b = uri /\
              (exists s, uri = path_join gcs_path (et +++ "_" +++ s +++ ".csv")) /\
              deletions b tr = 1 /\
              successful_deletions b tr
              = match d with None => 1 | Some _ => 0 end /\
              fst run = Raised (match d with Some y => y | None => x end))) /\
  (forall (entity_type_id entity_type_name : string)
          (entity_type_data : EntityType) (w : World Exn),
      let run := _export_entity_type_entity_data uuid4 gcs_path raises
                   downloaded_rows entity_type_id entity_type_data
                   entity_type_name w in
      let folder := path_join gcs_path
                      (entity_type_id +++ "_" +++ suffix uuid4 (uuids w)) in
      let b := {| blob_serial := length (trace w);
                  blob_path := path_join folder "000000000000.csv" |} in
      exists tr,
        trace (snd run) = trace w ++ tr /\
        staged b
          [export_feature_values entity_type_name folder;
           download_as_bytes b; csv_reader_exhausted b]
          tr (forget (fst run)) /\
        (In (storage_blob b, None) tr ->
         exists before d,
           tr = before ++ [(blob_delete b, d)] /\
           deletions b tr = 1 /\
           successful_deletions b tr
           = match d with None => 1 | Some _ => 0 end /\
           (forall c x,
               In (c, Some x) before ->
               forget (fst run)
               = Raised (match d with Some y => y | None => x end)))).
Proof.
  split.
  - intros featurestores w run.
    destruct (upload_data_staged_run featurestores w) as [tr [E S]].
    destruct (upload_data_cleanup_guarantee uuid4 gcs_path raises featurestores w)
      as [tr' [E' G]].
    assert (Et : tr' = tr) by (apply (app_inv_head (trace w)); congruence).
    subst tr'. exists tr. split; [exact E|]. split; [exact S|]. split.
    + intros b Hb. apply deleted_once_entry. now apply (proj1 G).
    + intros fs et uri col ids x Hin.
      destruct (@staged_run_ingestion_raised _ _ _ _ _ _ _ _ _ S Hin)
        as [before [b [csv [d [Et [Hp [Hs Hr]]]]]]].
      exists before, b, csv, d.
      assert (D : deletions b tr = 1).
      { apply (proj1 G). rewrite Et. apply in_or_app. right. now left. }
      split; [exact Et|]. split; [exact Hp|]. split; [exact Hs|].
      split; [exact D|]. split; [|exact Hr].
      apply successful_deletions_of; [exact D|].
      rewrite Et. apply in_or_app. right. simpl. auto.
  - intros entity_type_id entity_type_name entity_type_data w run folder b.
    destruct (export_entity_type_entity_data_staged entity_type_id
                entity_type_name entity_type_data w) as [tr [E S]].
    destruct (export_entity_type_entity_data_cleanup_guarantee uuid4 gcs_path
                raises downloaded_rows entity_type_id entity_type_name
                entity_type_data w) as [tr' [E' G]].
    assert (Et : tr' = tr) by (apply (app_inv_head (trace w)); congruence).
    subst tr'. exists tr. split; [exact E|]. split; [exact S|].
    intros Hb.
    destruct (@staged_ends_with_deletion _ _ _ _ S Hb) as [before [d [Et Hx]]].
    exists before, d.
    assert (D : deletions b tr = 1) by now apply (proj1 G).
    split; [exact Et|]. split; [exact D|]. split; [|exact Hx].
    apply successful_deletions_of; [exact D|].
    rewrite Et. apply in_or_app. right. now left.
Qed.

End StagingFacts.

(** The cleanup as the claim C2 states it fails when [blob.delete()] itself
    raises.  The ingestion job of the one entity type raises ["ow"] and the
    deletion of its staging object raises ["NotFound"]: the staging object
    was made, [blob.delete()] was called once, the object has not been
    deleted, and the exception that leaves [_upload_data] is the one of the
    deletion, not the one of the ingestion job. *)
Lemma C2_staging_blob_not_deleted_counterexample :
  _upload_data sample_uuid4 "gs://scratch_space/some/path"
    ingestion_and_deletion_fail
    (featurestores (_parse_schema_and_data sample_uuid4 0 [height_row]))
    empty_world
  = (Raised "NotFound",
     {| trace :=
          [(storage_blob
              {| blob_serial := 0;
                 blob_path := "gs://scratch_space/some/path/human_d3d75.csv" |},
            None);
           (upload_from_file
              {| blob_serial := 0;
                 blob_path := "gs://scratch_space/some/path/human_d3d75.csv" |}
              [["entity_id_d3d75"; "height"]; ["bob"; "4"]], None);
           (import_feature_values "benchmark_featurestore_d3d75" "human"
              "gs://scratch_space/some/path/human_d3d75.csv" "entity_id_d3d75"
              ["height"], Some "ow");
           (blob_delete
              {| blob_serial := 0;
                 blob_path := "gs://scratch_space/some/path/human_d3d75.csv" |},
            Some "NotFound")];
        uuids := 2 |}) /\
  successful_deletions
    {| blob_serial := 0;
       blob_path := "gs://scratch_space/some/path/human_d3d75.csv" |}
    (trace
       (snd (_upload_data sample_uuid4 "gs://scratch_space/some/path"
               ingestion_and_deletion_fail
               (featurestores
                  (_parse_schema_and_data sample_uuid4 0 [height_row]))
               empty_world)))
  <> 1 /\
  fst (_upload_data sample_uuid4 "gs://scratch_space/some/path"
         ingestion_and_deletion_fail
         (featurestores (_parse_schema_and_data sample_uuid4 0 [height_row]))
         empty_world)
  <> Raised "ow".
Proof.
  split; [reflexivity|]. split; vm_compute; discriminate.
Qed.

(** The cleanup at the data of [test_delete_blob_exception]: the ingestion
    job raises, the deletion returns. *)
Lemma C2_staging_blob_delete_called_on_every_exit_path_witness :
  exists before b csv d,
    trace
      (snd (_upload_data sample_uuid4 "gs://scratch_space/some/path"
              ingestion_fails
              (featurestores
                 (_parse_schema_and_data sample_uuid4 0 [height_row]))
              empty_world))
    = before ++
      [(storage_blob b, None); (upload_from_file b csv, None);
       (import_feature_values "benchmark_featurestore_d3d75" "human"
          "gs://scratch_space/some/path/human_d3d75.csv" "entity_id_d3d75"
          ["height"], Some "ow");
       (blob_delete b, d)] /\
    blob_path b = "gs://scratch_space/some/path/human_d3d75.csv" /\
    deletions b
      (trace
         (snd (_upload_data sample_uuid4 "gs://scratch_space/some/path"
                 ingestion_fails
                 (featurestores
                    (_parse_schema_and_data sample_uuid4 0 [height_row]))
                 empty_world))) = 1 /\
    fst (_upload_data sample_uuid4 "gs://scratch_space/some/path"
           ingestion_fails
           (featurestores
              (_parse_schema_and_data sample_uuid4 0 [height_row]))
           empty_world)
    = Raised (match d with Some y => y | None => "ow" end).
Proof.
  destruct (proj1 (@C2_staging_blob_delete_called_on_every_exit_path string
                     sample_uuid4 "gs://scratch_space/some/path"
                     ingestion_fails no_download)
              (featurestores
                 (_parse_schema_and_data sample_uuid4 0 [height_row]))
              empty_world) as [tr [E [_ [_ H]]]].
  cbn [trace empty_world app] in E.
  destruct (H "benchmark_featurestore_d3d75" "human"
              "gs://scratch_space/some/path/human_d3d75.csv" "entity_id_d3d75"
              ["height"] "ow") as [before [b [csv [d [Et [Hp [_ [D [_ Hr]]]]]]]]].
  - rewrite <- E. vm_compute. auto.
  - exists before, b, csv, d. rewrite E.
    split; [exact Et|]. split; [exact Hp|]. split; [exact D|exact Hr].
Defined.
